(** * Terra Discover API: the Space mutation engine

    A shallow embedding of the create / update / delete handlers of
    [src/features/spaces/route.ts], of [ensureUniqueSlug]
    ([src/utils/generateSlug.ts]) and of the part of the Prisma schema
    they rely on, followed by the properties of the specification.

    Modelling conventions.
    - The database is an explicit value [Db]; each table is the list of
      its rows in storage order.  Reads are total functions of the
      database; writes return either the new database or the raw error
      Prisma throws.
    - A handler is a function from the database and the request to an
      [Outcome]: the database after the request and the response sent.
    - The [slugify] package is not part of the repository: it is a
      parameter of the development.
    - The database is reachable and answers every query; connection
      faults are outside the model (the catch handlers are nevertheless
      modelled on every raw error, see [updateCatch]). *)

From Stdlib Require Import String Ascii List Bool Arith Lia FinFun.
From Stdlib Require Import Decimal DecimalNat DecimalString.
Import ListNotations.
Open Scope list_scope.
Open Scope string_scope.

(** ** JavaScript values and string helpers *)

(** An optional key of a request body: the key is missing, or it is
    there with a value. *)
Inductive Field (A : Type) : Type :=
| Absent
| Present (v : A).
Arguments Absent {A}.
Arguments Present {A} v.

(** A value that may be the JavaScript [null]. *)
Inductive Nullable (A : Type) : Type :=
| JsNull
| NotNull (v : A).
Arguments JsNull {A}.
Arguments NotNull {A} v.

(** [`${n}`] for a counter: its decimal digits.  (The counter is a
    JavaScript number; it prints this way below 10^21 and is incremented
    exactly below 2^53.) *)
Definition numToString (n : nat) : string :=
  NilEmpty.string_of_uint (Nat.to_uint n).

(** [hay.includes(needle)] *)
Fixpoint includes (needle hay : string) : bool :=
  prefix needle hay
  || match hay with
     | EmptyString => false
     | String _ rest => includes needle rest
     end.

(** [xs.join(sep)] *)
Fixpoint join (sep : string) (xs : list string) : string :=
  match xs with
  | [] => ""
  | [x] => x
  | x :: rest => x ++ sep ++ join sep rest
  end.

(** Membership of a string in a list ([Set.has], SQL [IN]). *)
Definition mem (x : string) (xs : list string) : bool :=
  existsb (String.eqb x) xs.

Fixpoint nodupb (xs : list string) : bool :=
  match xs with
  | [] => true
  | x :: rest => negb (mem x rest) && nodupb rest
  end.

(** ** The data model ([prisma/schema.prisma]) *)

Definition Id := string.

(** A JSON document held in a [Json?] column; its contents are opaque to
    the handlers.  Documents are taken to be non-null. *)
Inductive Json : Type :=
| JsonDoc (text : string).

Record Space : Type := mkSpace {
  id : Id;
  name : string;
  slug : string;
  alternateNames : list string;
  description : string;
  activities : list string;
  historicalContext : option string;
  architecturalStyle : option string;
  operatingHours : option Json;
  entranceFee : option Json;
  contactInfo : option Json;
  accessibility : option Json;
  typeId : Id;
  categories : list Id;   (* rows of _SpaceToSpaceCategory for this space *)
  features : list Id;     (* rows of _SpaceToSpaceFeature for this space *)
  submittedById : Id;
  createdAt : nat;
  updatedAt : nat
}.

(** SpaceType, SpaceCategory and SpaceFeature have the same shape. *)
Record Taxon : Type := mkTaxon {
  taxonId : Id;
  taxonName : string;
  taxonDescription : option string
}.

Record Db : Type := mkDb {
  users : list Id;
  spaces : list Space;
  spaceTypes : list Taxon;
  spaceCategories : list Taxon;
  spaceFeatures : list Taxon
}.

(** The constraints the schema puts on a database: primary keys and the
    unique index on [Space.slug]. *)
Definition wfDb (db : Db) : bool :=
  nodupb (map id (spaces db))
  && nodupb (map slug (spaces db))
  && nodupb (map taxonId (spaceTypes db))
  && nodupb (map taxonId (spaceCategories db))
  && nodupb (map taxonId (spaceFeatures db)).

(** ** Raw errors and responses *)

(** What a [catch (error)] clause can receive. *)
Inductive RawError : Type :=
| PrismaKnown (code : string) (message : string)
    (* error instanceof PrismaClientKnownRequestError *)
| JsError (message : string)
    (* any other instance of Error *)
| NonError.
    (* a thrown value that is not an Error *)

Record ErrorResponse : Type := mkError {
  message : string;
  code : nat
}.

(** The Space as the API returns it: the row, with categories and
    features flattened to names. *)
Record SpaceView : Type := mkView {
  viewRow : Space;
  viewCategories : list string;
  viewFeatures : list string
}.

Inductive Response : Type :=
| Ok (status : nat) (body : SpaceView)
| NoContent                       (* c.body(null, 204) *)
| Err (e : ErrorResponse).

(** ** Queries *)

(** [prisma.space.findUnique({ where: { slug } })] *)
Definition findUniqueBySlug (db : Db) (s : string) : option Space :=
  find (fun sp => slug sp =? s) (spaces db).

(** [prisma.space.findUnique({ where: { id } })] *)
Definition findUniqueById (db : Db) (i : Id) : option Space :=
  find (fun sp => id sp =? i) (spaces db).

(** [prisma.space.findFirst({ where: { OR: [{ id }, { slug }] } })] *)
Definition findFirstByIdOrSlug (db : Db) (identifier : string) : option Space :=
  find (fun sp => (id sp =? identifier) || (slug sp =? identifier)) (spaces db).

(** [prisma.<taxonomy>.findUnique({ where: { id } })] *)
Definition findTaxon (table : list Taxon) (i : Id) : option Taxon :=
  find (fun t => taxonId t =? i) table.

(** [prisma.<taxonomy>.findMany({ where: { id: { in: ids } } })] *)
Definition findManyIn (table : list Taxon) (ids : list Id) : list Taxon :=
  filter (fun t => mem (taxonId t) ids) table.

(** ** The slug generator ([ensureUniqueSlug]) *)

Record SlugifyOptions : Type := mkOptions {
  lower : bool;
  strict : bool
}.

(** [slugify(name)] *)
Definition defaultOptions : SlugifyOptions := mkOptions false false.
(** [slugify(name, { lower: true, strict: true })] *)
Definition strictLower : SlugifyOptions := mkOptions true true.

(** A stand-in for the slugify package, used to run the handlers on
    sample requests.  It agrees with the package on names made of ASCII
    letters, digits and single inner spaces: a space becomes a hyphen
    and, with [lower], upper-case letters are lowered.  With [strict]
    every other character is dropped. *)
Definition isAlnum (c : ascii) : bool :=
  let n := nat_of_ascii c in
  ((48 <=? n) && (n <=? 57) || (65 <=? n) && (n <=? 90)
   || (97 <=? n) && (n <=? 122))%nat.

Definition lowerChar (c : ascii) : ascii :=
  let n := nat_of_ascii c in
  if ((65 <=? n) && (n <=? 90))%nat then ascii_of_nat (n + 32) else c.

Fixpoint sampleSlugify (s : string) (o : SlugifyOptions) : string :=
  match s with
  | EmptyString => EmptyString
  | String c rest =>
      let c' := if lower o then lowerChar c else c in
      if (nat_of_ascii c =? 32)%nat then String "-" (sampleSlugify rest o)
      else if strict o && negb (isAlnum c) then sampleSlugify rest o
      else String c' (sampleSlugify rest o)
  end.

(** ** Request bodies ([CreateSpaceRequestSchema], [UpdateSpaceRequestSchema]) *)

Record CreatePayload : Type := mkCreatePayload {
  c_name : string;
  c_alternateNames : Field (list string);
  c_description : Field (Nullable string);
  c_activities : Field (list string);
  c_historicalContext : Field (Nullable string);
  c_architecturalStyle : Field (Nullable string);
  c_operatingHours : Field Json;
  c_entranceFee : Field Json;
  c_contactInfo : Field Json;
  c_accessibility : Field Json;
  c_typeId : Id;
  c_categoryIds : Field (list Id);
  c_featureIds : Field (list Id)
}.

(** [CreateSpaceRequestSchema.partial()]: every key is optional. *)
Record UpdatePayload : Type := mkUpdatePayload {
  u_name : Field string;
  u_alternateNames : Field (list string);
  u_description : Field (Nullable string);
  u_activities : Field (list string);
  u_historicalContext : Field (Nullable string);
  u_architecturalStyle : Field (Nullable string);
  u_operatingHours : Field Json;
  u_entranceFee : Field Json;
  u_contactInfo : Field Json;
  u_accessibility : Field Json;
  u_typeId : Field Id;
  u_categoryIds : Field (list Id);
  u_featureIds : Field (list Id)
}.

(** ** Writes *)

(** The [data] argument of [prisma.space.create]. *)
Record CreateData : Type := mkCreateData {
  cd_name : string;
  cd_slug : string;
  cd_alternateNames : Field (list string);
  cd_description : Nullable string;
  cd_activities : Field (list string);
  cd_historicalContext : Field (Nullable string);
  cd_architecturalStyle : Field (Nullable string);
  cd_operatingHours : Field Json;
  cd_entranceFee : Field Json;
  cd_contactInfo : Field Json;
  cd_accessibility : Field Json;
  cd_submittedBy : Id;            (* submittedBy: { connect: { id } } *)
  cd_type : Id;                   (* type: { connect: { id } } *)
  cd_categories : list Id;        (* categories: { connect: [...] } *)
  cd_features : list Id           (* features: { connect: [...] } *)
}.

(** The [data] argument of [prisma.space.update]: the [updateData]
    object of the handler, one field per key it may carry. *)
Record UpdateData : Type := mkUpdateData {
  ud_name : Field string;
  ud_slug : Field string;
  ud_alternateNames : Field (list string);
  ud_description : Field (Nullable string);
  ud_activities : Field (list string);
  ud_historicalContext : Field (Nullable string);
  ud_architecturalStyle : Field (Nullable string);
  ud_operatingHours : Field Json;
  ud_entranceFee : Field Json;
  ud_contactInfo : Field Json;
  ud_accessibility : Field Json;
  ud_type : Field Id;              (* type: { connect: { id } } *)
  ud_categories : Field (list Id); (* categories: { set: [...] } *)
  ud_features : Field (list Id)    (* features: { set: [...] } *)
}.

(** Column values from the optional keys of [data]. *)
Definition orElse {A : Type} (f : Field A) (current : A) : A :=
  match f with
  | Absent => current
  | Present v => v
  end.

Definition nullableColumn {A : Type} (f : Field (Nullable A)) (current : option A)
  : option A :=
  match f with
  | Absent => current
  | Present JsNull => None
  | Present (NotNull v) => Some v
  end.

Definition jsonColumn (f : Field Json) (current : option Json) : option Json :=
  match f with
  | Absent => current
  | Present j => Some j
  end.

(** [architecturalStyle] is a [VarChar(100)]. *)
Definition tooLong (f : Field (Nullable string)) : bool :=
  match f with
  | Present (NotNull s) => (100 <? String.length s)%nat
  | _ => false
  end.

Definition allExist (table : list Taxon) (ids : list Id) : bool :=
  forallb (fun i => mem i (map taxonId table)) ids.

Definition validationError : RawError :=
  JsError "Argument `description` must not be null.".
Definition requiredRecordMissing : RawError :=
  PrismaKnown "P2025" "An operation failed because it depends on one or more records that were required but not found.".
Definition uniqueConstraintFailed : RawError :=
  PrismaKnown "P2002" "Unique constraint failed on the fields.".
Definition valueTooLong : RawError :=
  PrismaKnown "P2000" "The provided value for the column is too long for the column's type.".

(** [prisma.space.create({ data })] at time [now], the row receiving the
    generated identifier [newId].  The write is atomic: it yields the new
    database and the stored row, or a raw error and no change.  When
    several constraints fail at once the order in which they are tested
    here decides which error is raised; no property below depends on
    that order. *)
Definition prismaSpaceCreate (db : Db) (now : nat) (newId : Id) (data : CreateData)
  : (Db * Space) + RawError :=
  match cd_description data with
  | JsNull => inr validationError
  | NotNull descr =>
      if negb (mem (cd_submittedBy data) (users db)) then inr requiredRecordMissing
      else if negb (mem (cd_type data) (map taxonId (spaceTypes db)))
      then inr requiredRecordMissing
      else if negb (allExist (spaceCategories db) (cd_categories data))
      then inr requiredRecordMissing
      else if negb (allExist (spaceFeatures db) (cd_features data))
      then inr requiredRecordMissing
      else if tooLong (cd_architecturalStyle data) then inr valueTooLong
      else if mem newId (map id (spaces db)) then inr uniqueConstraintFailed
      else if mem (cd_slug data) (map slug (spaces db)) then inr uniqueConstraintFailed
      else
        let row :=
          mkSpace newId (cd_name data) (cd_slug data)
                  (orElse (cd_alternateNames data) [])
                  descr
                  (orElse (cd_activities data) [])
                  (nullableColumn (cd_historicalContext data) None)
                  (nullableColumn (cd_architecturalStyle data) None)
                  (jsonColumn (cd_operatingHours data) None)
                  (jsonColumn (cd_entranceFee data) None)
                  (jsonColumn (cd_contactInfo data) None)
                  (jsonColumn (cd_accessibility data) None)
                  (cd_type data)
                  (nodup string_dec (cd_categories data))
                  (nodup string_dec (cd_features data))
                  (cd_submittedBy data)
                  now now in
        inl (mkDb (users db) (spaces db ++ [row]) (spaceTypes db)
                  (spaceCategories db) (spaceFeatures db), row)
  end.

(** The row [sp] after [data] is applied at time [now]. *)
Definition applyUpdate (now : nat) (data : UpdateData) (descr : string) (sp : Space)
  : Space :=
  mkSpace (id sp)
          (orElse (ud_name data) (name sp))
          (orElse (ud_slug data) (slug sp))
          (orElse (ud_alternateNames data) (alternateNames sp))
          descr
          (orElse (ud_activities data) (activities sp))
          (nullableColumn (ud_historicalContext data) (historicalContext sp))
          (nullableColumn (ud_architecturalStyle data) (architecturalStyle sp))
          (jsonColumn (ud_operatingHours data) (operatingHours sp))
          (jsonColumn (ud_entranceFee data) (entranceFee sp))
          (jsonColumn (ud_contactInfo data) (contactInfo sp))
          (jsonColumn (ud_accessibility data) (accessibility sp))
          (orElse (ud_type data) (typeId sp))
          (match ud_categories data with
           | Absent => categories sp
           | Present ids => nodup string_dec ids
           end)
          (match ud_features data with
           | Absent => features sp
           | Present ids => nodup string_dec ids
           end)
          (submittedById sp)
          (createdAt sp)
          now.

(** The table with the row of identifier [i] replaced by [row]. *)
Definition replaceRow (i : Id) (row : Space) (rows : list Space) : list Space :=
  map (fun sp => if id sp =? i then row else sp) rows.

(** The slug [s] is held by a row other than the one of identifier [i]. *)
Definition slugTakenByOther (db : Db) (i : Id) (s : string) : bool :=
  existsb (fun sp => negb (id sp =? i) && (slug sp =? s)) (spaces db).

(** [prisma.space.update({ where: { id }, data })] at time [now]. *)
Definition prismaSpaceUpdate (db : Db) (now : nat) (i : Id) (data : UpdateData)
  : (Db * Space) + RawError :=
  match findUniqueById db i with
  | None => inr requiredRecordMissing
  | Some sp =>
      match ud_description data with
      | Present JsNull => inr validationError
      | descr =>
          if negb (allExist (spaceTypes db)
                            (match ud_type data with Absent => [] | Present t => [t] end))
          then inr requiredRecordMissing
          else if negb (allExist (spaceCategories db) (orElse (ud_categories data) []))
          then inr requiredRecordMissing
          else if negb (allExist (spaceFeatures db) (orElse (ud_features data) []))
          then inr requiredRecordMissing
          else if tooLong (ud_architecturalStyle data) then inr valueTooLong
          else if slugTakenByOther db i (orElse (ud_slug data) (slug sp))
          then inr uniqueConstraintFailed
          else
            let row :=
              applyUpdate now data
                (match descr with
                 | Present (NotNull d) => d
                 | _ => description sp
                 end) sp in
            inl (mkDb (users db) (replaceRow i row (spaces db)) (spaceTypes db)
                      (spaceCategories db) (spaceFeatures db), row)
      end
  end.

(** [prisma.space.delete({ where: { id } })]; the join rows of the space
    go with it (ON DELETE CASCADE). *)
Definition prismaSpaceDelete (db : Db) (i : Id) : Db + RawError :=
  match findUniqueById db i with
  | None => inr requiredRecordMissing
  | Some _ =>
      inl (mkDb (users db) (filter (fun sp => negb (id sp =? i)) (spaces db))
                (spaceTypes db) (spaceCategories db) (spaceFeatures db))
  end.

(** ** The error mapper (the [catch] clauses of the three handlers) *)

(** POST /: every exception becomes the same 500. *)
Definition createCatch (error : RawError) : ErrorResponse :=
  mkError "Failed to create space due to an internal server error." 500.

(** PATCH /{identifier} *)
Definition updateCatch (error : RawError) : ErrorResponse :=
  match error with
  | PrismaKnown code _ =>
      if code =? "P2002"
      then mkError "A space with this name or slug already exists." 409
      else if code =? "P2025"
      then mkError "One or more related records (type, category, feature) not found." 404
      else mkError "Database operation failed unexpectedly." 500
  | JsError msg =>
      if includes "Forbidden" msg then mkError msg 403
      else if includes "not found" msg then mkError msg 404
      else if includes "Validation error" msg || includes "Invalid input" msg
      then mkError "Invalid input data provided." 400
      else mkError "An unexpected server error occurred." 500
  | NonError => mkError "An entirely unexpected error occurred." 500
  end.

(** DELETE /{id} *)
Definition deleteCatch (error : RawError) : ErrorResponse :=
  match error with
  | PrismaKnown code _ =>
      if code =? "P2025"
      then mkError "Space not found." 404
      else mkError "Failed to delete space due to an internal server error." 500
  | _ => mkError "Failed to delete space due to an internal server error." 500
  end.

(** The raw errors the specification names. *)
Definition isUniqueViolation (error : RawError) : bool :=
  match error with
  | PrismaKnown code _ => code =? "P2002"
  | _ => false
  end.

Definition isRelatedRecordMissing (error : RawError) : bool :=
  match error with
  | PrismaKnown code _ => code =? "P2025"
  | _ => false
  end.

(** An Error that is not a PrismaClientKnownRequestError. *)
Definition isPlainError (error : RawError) : bool :=
  match error with
  | JsError _ => true
  | _ => false
  end.

(** ** Validation of reference lists *)

(** The check the handlers run on a non-empty list of category or
    feature identifiers: one batched read, then the identifiers that did
    not come back.  [None]: the check passes. *)
Definition missingIds (table : list Taxon) (ids : list Id) : list Id :=
  let foundIds := map taxonId (findManyIn table ids) in
  filter (fun i => negb (mem i foundIds)) ids.

Definition idsNotFound (kind : string) (table : list Taxon) (ids : list Id)
  : ErrorResponse :=
  mkError ("One or more " ++ kind ++ " IDs not found: "
           ++ join ", " (missingIds table ids) ++ ".") 404.

Definition checkIds (kind : string) (table : list Taxon) (ids : list Id)
  : option ErrorResponse :=
  if (0 <? length ids)%nat then
    if negb (length (findManyIn table ids) =? length ids)%nat then
      Some (idsNotFound kind table ids)
    else None
  else None.

Definition typeNotFound (typeId : Id) : ErrorResponse :=
  mkError ("Space Type with ID '" ++ typeId ++ "' not found.") 404.

Definition spaceNotFound : ErrorResponse := mkError "Space not found." 404.

(** [include: { categories: { select: { name } }, features: ... }] and
    the flattening to name lists. *)
Definition formatSpace (db : Db) (row : Space) : SpaceView :=
  mkView row
         (map taxonName (findManyIn (spaceCategories db) (categories row)))
         (map taxonName (findManyIn (spaceFeatures db) (features row))).

(** [spaceData.description || ""] *)
Definition descriptionOrEmpty (d : Field (Nullable string)) : string :=
  match d with
  | Present (NotNull s) => s
  | _ => ""
  end.

(** The last step on [updateData]: a [description] key that is present
    and null is replaced by the empty string. *)
Definition normalizeDescription (d : Field (Nullable string))
  : Field (Nullable string) :=
  match d with
  | Present JsNull => Present (NotNull "")
  | other => other
  end.

(** ** Sample data

    A small database and a few requests, on which the handlers are run
    in the examples that follow the properties. *)

Definition alice : Id := "cluser0alice".
Definition budi : Id := "cluser0budi".

Definition typePark : Taxon := mkTaxon "cltype0park" "Park" None.
Definition catHistorical : Taxon := mkTaxon "clcat0hist" "Historical" None.
Definition catRecreational : Taxon := mkTaxon "clcat0recr" "Recreational" None.
Definition featWifi : Taxon := mkTaxon "clfeat0wifi" "Wi-Fi" None.

Definition taman : Space :=
  mkSpace "cmcvyolex000gv3ik8qxx701q" "Taman Bungkul" "taman-bungkul"
          ["Bungkul Park"] "A vibrant urban park in Surabaya."
          ["picnic"; "jogging"] None None None None None None
          "cltype0park" ["clcat0hist"; "clcat0recr"] ["clfeat0wifi"]
          alice 1 1.

Definition sampleDb : Db :=
  mkDb [alice; budi] [taman] [typePark] [catHistorical; catRecreational] [featWifi].

(** An update payload with no key. *)
Definition emptyUpdate : UpdatePayload :=
  mkUpdatePayload Absent Absent Absent Absent Absent Absent Absent Absent Absent
                  Absent Absent Absent Absent.

(** [{ categoryIds: [], description: null }] *)
Definition clearCategories : UpdatePayload :=
  mkUpdatePayload Absent Absent (Present JsNull) Absent Absent Absent Absent Absent
                  Absent Absent Absent (Present []) Absent.

(** [{ name: "Kebun Bibit" }] *)
Definition renameKebun : UpdatePayload :=
  mkUpdatePayload (Present "Kebun Bibit") Absent Absent Absent Absent Absent Absent
                  Absent Absent Absent Absent Absent Absent.

(** [{ name: "taman bungkul" }]: the stored name in lower case. *)
Definition renameLower : UpdatePayload :=
  mkUpdatePayload (Present "taman bungkul") Absent Absent Absent Absent Absent Absent
                  Absent Absent Absent Absent Absent Absent.

(** [{ categoryIds: ["clcat0recr", "bad1", "bad2"] }] *)
Definition badCategoriesUpdate : UpdatePayload :=
  mkUpdatePayload Absent Absent Absent Absent Absent Absent Absent Absent Absent
                  Absent Absent (Present ["clcat0recr"; "bad1"; "bad2"]) Absent.

(** [{ name: "Hidden Gem", typeId: "cltype0park",
       categoryIds: ["clcat0recr", "bad1", "bad2"] }] *)
Definition badCategoriesCreate : CreatePayload :=
  mkCreatePayload "Hidden Gem" Absent Absent Absent Absent Absent Absent Absent
                  Absent Absent "cltype0park"
                  (Present ["clcat0recr"; "bad1"; "bad2"]) Absent.

(** [{ name: "Hidden Gem", typeId: "cltype0park", categoryIds: ["clcat0hist"] }] *)
Definition hiddenGem : CreatePayload :=
  mkCreatePayload "Hidden Gem" Absent Absent Absent Absent Absent Absent Absent
                  Absent Absent "cltype0park" (Present ["clcat0hist"]) Absent.

(** A space named after the identifier of [taman]: its slug is that
    identifier. *)
Definition namesake : Space :=
  mkSpace "cmcvyolex000hv3ik1abc234d" "cmcvyolex000gv3ik8qxx701q"
          "cmcvyolex000gv3ik8qxx701q" [] "" [] None None None None None None
          "cltype0park" [] [] budi 2 2.

Definition clashDb : Db :=
  mkDb [alice; budi] [taman; namesake] [typePark] [catHistorical; catRecreational]
       [featWifi].

(** The database [db] with its Space table replaced. *)
Definition withSpaces (db : Db) (rows : list Space) : Db :=
  mkDb (users db) rows (spaceTypes db) (spaceCategories db) (spaceFeatures db).

(** [taman] after [clearCategories], [renameKebun] and [renameLower] at
    time 5, and the row a create of [hiddenGem] by [budi] stores. *)
Definition tamanCleared : Space :=
  mkSpace "cmcvyolex000gv3ik8qxx701q" "Taman Bungkul" "taman-bungkul"
          ["Bungkul Park"] "" ["picnic"; "jogging"] None None None None None None
          "cltype0park" [] ["clfeat0wifi"] alice 1 5.

Definition tamanKebun : Space :=
  mkSpace "cmcvyolex000gv3ik8qxx701q" "Kebun Bibit" "kebun-bibit"
          ["Bungkul Park"] "A vibrant urban park in Surabaya."
          ["picnic"; "jogging"] None None None None None None
          "cltype0park" ["clcat0hist"; "clcat0recr"] ["clfeat0wifi"]
          alice 1 5.

Definition tamanLower : Space :=
  mkSpace "cmcvyolex000gv3ik8qxx701q" "taman bungkul" "taman-bungkul-1"
          ["Bungkul Park"] "A vibrant urban park in Surabaya."
          ["picnic"; "jogging"] None None None None None None
          "cltype0park" ["clcat0hist"; "clcat0recr"] ["clfeat0wifi"]
          alice 1 5.

Definition gem : Space :=
  mkSpace "cmcvyolex000iv3ik9new0001" "Hidden Gem" "hidden-gem"
          [] "" [] None None None None None None
          "cltype0park" ["clcat0hist"] [] budi 5 5.

(** [{ name: "cmcvyolex000gv3ik8qxx701q", typeId: "cltype0park" }] *)
Definition namesakePayload : CreatePayload :=
  mkCreatePayload "cmcvyolex000gv3ik8qxx701q" Absent Absent Absent Absent Absent
                  Absent Absent Absent Absent "cltype0park" Absent Absent.

(** What a handler does with a request: it answers, leaving the database
    in some state, or it is still in the slug loop when the fuel is
    spent. *)
Inductive Outcome : Type :=
| Responded (db : Db) (r : Response)
| Running.

Section Engine.

Variable slugify : string -> SlugifyOptions -> string.

(** The retry candidate [`${slugify(baseName)}-${counter}`]. *)
Definition candidate (baseName : string) (counter : nat) : string :=
  slugify baseName defaultOptions ++ "-" ++ numToString counter.

(** The [while (!isUnique)] loop.  [fuel] bounds the number of
    iterations; the result carries the number of iterations run.
    [None]: the loop is still running when the fuel is spent. *)
Fixpoint ensureUniqueSlugLoop (fuel : nat) (db : Db) (baseName : string)
         (slug : string) (counter : nat) : option (string * nat) :=
  match fuel with
  | O => None
  | S fuel' =>
      match findUniqueBySlug db slug with
      | None => Some (slug, 1)
      | Some _ =>
          match ensureUniqueSlugLoop fuel' db baseName
                  (candidate baseName counter) (S counter) with
          | Some (s, iterations) => Some (s, S iterations)
          | None => None
          end
      end
  end.

Definition ensureUniqueSlugFuel (fuel : nat) (db : Db) (baseName : string)
  : option (string * nat) :=
  ensureUniqueSlugLoop fuel db baseName (slugify baseName strictLower) 1.

(** The loop of the source has no bound.  It is run here with
    [length (spaces db) + 2] iterations of fuel, which is never spent
    and beyond which the result does not change (see
    [ensureUniqueSlugFuel_enough] and [ensureUniqueSlugLoop_more_fuel]). *)
Definition ensureUniqueSlug (db : Db) (baseName : string) : option string :=
  option_map fst (ensureUniqueSlugFuel (length (spaces db) + 2) db baseName).

(** ** POST / *)

Definition createData (user : Id) (slug : string) (payload : CreatePayload)
  : CreateData :=
  mkCreateData (c_name payload) slug
               (c_alternateNames payload)
               (NotNull (descriptionOrEmpty (c_description payload)))
               (c_activities payload)
               (c_historicalContext payload)
               (c_architecturalStyle payload)
               (c_operatingHours payload)
               (c_entranceFee payload)
               (c_contactInfo payload)
               (c_accessibility payload)
               user
               (c_typeId payload)
               (orElse (c_categoryIds payload) [])
               (orElse (c_featureIds payload) []).

Definition createSpace (db : Db) (now : nat) (newId : Id) (user : Id)
           (payload : CreatePayload) : Outcome :=
  match findTaxon (spaceTypes db) (c_typeId payload) with
  | None => Responded db (Err (typeNotFound (c_typeId payload)))
  | Some _ =>
      match checkIds "Category" (spaceCategories db)
                     (orElse (c_categoryIds payload) []) with
      | Some e => Responded db (Err e)
      | None =>
          match checkIds "Feature" (spaceFeatures db)
                         (orElse (c_featureIds payload) []) with
          | Some e => Responded db (Err e)
          | None =>
              match ensureUniqueSlug db (c_name payload) with
              | None => Running
              | Some slug =>
                  match prismaSpaceCreate db now newId
                                          (createData user slug payload) with
                  | inl (db', space) => Responded db' (Ok 201 (formatSpace db' space))
                  | inr error => Responded db (Err (createCatch error))
                  end
              end
          end
      end
  end.

(** ** PATCH /{identifier} *)

Definition forbiddenUpdate : ErrorResponse :=
  mkError "Forbidden: You do not have permission to update this space." 403.

(** The slug key of [updateData]: set when the name is present and
    differs from the stored one.  [None]: the slug loop is running. *)
Definition regenerateSlug (db : Db) (existingSpace : Space) (payload : UpdatePayload)
  : option (Field string) :=
  match u_name payload with
  | Absent => Some Absent
  | Present n =>
      if negb (n =? name existingSpace)
      then option_map Present (ensureUniqueSlug db n)
      else Some Absent
  end.

(** [updateData] once every step has run: the keys copied from the
    payload, the slug, the relations and the normalized description. *)
Definition buildUpdateData (payload : UpdatePayload) (newSlug : Field string)
  : UpdateData :=
  mkUpdateData (u_name payload) newSlug
               (u_alternateNames payload)
               (normalizeDescription (u_description payload))
               (u_activities payload)
               (u_historicalContext payload)
               (u_architecturalStyle payload)
               (u_operatingHours payload)
               (u_entranceFee payload)
               (u_contactInfo payload)
               (u_accessibility payload)
               (u_typeId payload)
               (u_categoryIds payload)
               (u_featureIds payload).

Definition checkType (db : Db) (t : Field Id) : option ErrorResponse :=
  match t with
  | Absent => None
  | Present typeId =>
      match findTaxon (spaceTypes db) typeId with
      | None => Some (typeNotFound typeId)
      | Some _ => None
      end
  end.

Definition updateSpace (db : Db) (now : nat) (user : Id) (identifier : string)
           (payload : UpdatePayload) : Outcome :=
  match findFirstByIdOrSlug db identifier with
  | None => Responded db (Err spaceNotFound)
  | Some existingSpace =>
      if negb (submittedById existingSpace =? user)
      then Responded db (Err forbiddenUpdate)
      else
        match regenerateSlug db existingSpace payload with
        | None => Running
        | Some newSlug =>
            match checkType db (u_typeId payload) with
            | Some e => Responded db (Err e)
            | None =>
                match checkIds "Category" (spaceCategories db)
                               (orElse (u_categoryIds payload) []) with
                | Some e => Responded db (Err e)
                | None =>
                    match checkIds "Feature" (spaceFeatures db)
                                   (orElse (u_featureIds payload) []) with
                    | Some e => Responded db (Err e)
                    | None =>
                        match prismaSpaceUpdate db now (id existingSpace)
                                (buildUpdateData payload newSlug) with
                        | inl (db', updatedSpace) =>
                            Responded db' (Ok 200 (formatSpace db' updatedSpace))
                        | inr error => Responded db (Err (updateCatch error))
                        end
                    end
                end
            end
        end
  end.

(** ** DELETE /{id} *)

Definition forbiddenDelete : ErrorResponse :=
  mkError "Forbidden: You do not have permission to delete this space." 403.

Definition deleteSpace (db : Db) (authenticatedUser : option Id) (i : Id) : Outcome :=
  match authenticatedUser with
  | None => Responded db (Err (mkError "Authentication required." 401))
  | Some user =>
      match findUniqueById db i with
      | None => Responded db (Err spaceNotFound)
      | Some spaceToDelete =>
          if negb (submittedById spaceToDelete =? user)
          then Responded db (Err forbiddenDelete)
          else
            match prismaSpaceDelete db i with
            | inl db' => Responded db' NoContent
            | inr error => Responded db (Err (deleteCatch error))
            end
      end
  end.


(** ** Referential integrity

    Every reference a stored Space holds resolves: its type, its
    categories, its features and its author have a row.  (The foreign
    keys of the schema.) *)
Definition refsOk (db : Db) : bool :=
  forallb (fun sp =>
             mem (typeId sp) (map taxonId (spaceTypes db))
             && allExist (spaceCategories db) (categories sp)
             && allExist (spaceFeatures db) (features sp)
             && mem (submittedById sp) (users db))
          (spaces db).

(** ** The taxonomy routes

    [features/spaceType/route.ts], [features/spaceCategory/route.ts] and
    [features/spaceFeature/route.ts] are the same five handlers over the
    three taxonomy tables; they differ in the table and in one word of
    their messages. *)

Inductive TaxonKind : Type :=
| SpaceTypeKind
| SpaceCategoryKind
| SpaceFeatureKind.

Definition kindWord (kind : TaxonKind) : string :=
  match kind with
  | SpaceTypeKind => "type"
  | SpaceCategoryKind => "category"
  | SpaceFeatureKind => "feature"
  end.

Definition tableOf (kind : TaxonKind) (db : Db) : list Taxon :=
  match kind with
  | SpaceTypeKind => spaceTypes db
  | SpaceCategoryKind => spaceCategories db
  | SpaceFeatureKind => spaceFeatures db
  end.

Definition withTable (kind : TaxonKind) (db : Db) (rows : list Taxon) : Db :=
  match kind with
  | SpaceTypeKind =>
      mkDb (users db) (spaces db) rows (spaceCategories db) (spaceFeatures db)
  | SpaceCategoryKind =>
      mkDb (users db) (spaces db) (spaceTypes db) rows (spaceFeatures db)
  | SpaceFeatureKind =>
      mkDb (users db) (spaces db) (spaceTypes db) (spaceCategories db) rows
  end.

(** [CreateSpaceTypeRequestSchema] and its [.partial()]. *)
Record TaxonCreatePayload : Type := mkTaxonCreatePayload {
  tc_name : string;
  tc_description : Field (Nullable string)
}.

Record TaxonUpdatePayload : Type := mkTaxonUpdatePayload {
  tu_name : Field string;
  tu_description : Field (Nullable string)
}.

Inductive TaxonResponse : Type :=
| TaxonList (rows : list Taxon)               (* 200 *)
| TaxonOk (status : nat) (row : Taxon)
| TaxonDeleted (note : string)                (* 200, { message } *)
| TaxonErr (e : ErrorResponse).

Definition taxonNotFound (kind : TaxonKind) : ErrorResponse :=
  mkError ("Space " ++ kindWord kind ++ " not found.") 404.

Definition taxonFailed (verb : string) (kind : TaxonKind) : ErrorResponse :=
  mkError ("Failed to " ++ verb ++ " space " ++ kindWord kind ++ ".") 500.

Definition foreignKeyFailed : RawError :=
  PrismaKnown "P2003" "Foreign key constraint violated.".

(** [name] is a [VarChar(100)] with a unique index. *)
Definition nameTooLong (n : string) : bool := (100 <? String.length n)%nat.

(** [prisma.<taxonomy>.create({ data: payload })], the row receiving
    the generated identifier [newId]. *)
Definition prismaTaxonCreate (kind : TaxonKind) (db : Db) (newId : Id)
           (payload : TaxonCreatePayload) : (Db * Taxon) + RawError :=
  if nameTooLong (tc_name payload) then inr valueTooLong
  else if mem newId (map taxonId (tableOf kind db)) then inr uniqueConstraintFailed
  else if mem (tc_name payload) (map taxonName (tableOf kind db))
  then inr uniqueConstraintFailed
  else
    let row := mkTaxon newId (tc_name payload)
                       (nullableColumn (tc_description payload) None) in
    inl (withTable kind db (tableOf kind db ++ [row]), row).

(** The name [n] is held by a row other than the one of identifier [i]. *)
Definition nameTakenByOther (table : list Taxon) (i : Id) (n : string) : bool :=
  existsb (fun t => negb (taxonId t =? i) && (taxonName t =? n)) table.

Definition replaceTaxon (i : Id) (row : Taxon) (rows : list Taxon) : list Taxon :=
  map (fun t => if taxonId t =? i then row else t) rows.

(** [prisma.<taxonomy>.update({ where: { id }, data: payload })] *)
Definition prismaTaxonUpdate (kind : TaxonKind) (db : Db) (i : Id)
           (payload : TaxonUpdatePayload) : (Db * Taxon) + RawError :=
  match findTaxon (tableOf kind db) i with
  | None => inr requiredRecordMissing
  | Some t =>
      let newName := orElse (tu_name payload) (taxonName t) in
      if nameTooLong newName then inr valueTooLong
      else if nameTakenByOther (tableOf kind db) i newName
      then inr uniqueConstraintFailed
      else
        let row := mkTaxon (taxonId t) newName
                           (nullableColumn (tu_description payload)
                                           (taxonDescription t)) in
        inl (withTable kind db (replaceTaxon i row (tableOf kind db)), row)
  end.

Definition withCategories (sp : Space) (cats : list Id) : Space :=
  mkSpace (id sp) (name sp) (slug sp) (alternateNames sp) (description sp)
          (activities sp) (historicalContext sp) (architecturalStyle sp)
          (operatingHours sp) (entranceFee sp) (contactInfo sp) (accessibility sp)
          (typeId sp) cats (features sp) (submittedById sp)
          (createdAt sp) (updatedAt sp).

Definition withFeatures (sp : Space) (feats : list Id) : Space :=
  mkSpace (id sp) (name sp) (slug sp) (alternateNames sp) (description sp)
          (activities sp) (historicalContext sp) (architecturalStyle sp)
          (operatingHours sp) (entranceFee sp) (contactInfo sp) (accessibility sp)
          (typeId sp) (categories sp) feats (submittedById sp)
          (createdAt sp) (updatedAt sp).

Definition without (i : Id) (ids : list Id) : list Id :=
  filter (fun j => negb (j =? i)) ids.

(** [prisma.<taxonomy>.delete({ where: { id } })].  The foreign keys of
    the migration decide what happens to the spaces: [Space.typeId] is
    ON DELETE RESTRICT, the two join tables are ON DELETE CASCADE. *)
Definition prismaTaxonDelete (kind : TaxonKind) (db : Db) (i : Id) : Db + RawError :=
  match findTaxon (tableOf kind db) i with
  | None => inr requiredRecordMissing
  | Some _ =>
      let rows := filter (fun t => negb (taxonId t =? i)) (tableOf kind db) in
      match kind with
      | SpaceTypeKind =>
          if existsb (fun sp => typeId sp =? i) (spaces db)
          then inr foreignKeyFailed
          else inl (withTable kind db rows)
      | SpaceCategoryKind =>
          inl (withTable kind
                 (withSpaces db
                    (map (fun sp => withCategories sp (without i (categories sp)))
                         (spaces db)))
                 rows)
      | SpaceFeatureKind =>
          inl (withTable kind
                 (withSpaces db
                    (map (fun sp => withFeatures sp (without i (features sp)))
                         (spaces db)))
                 rows)
      end
  end.

(** GET / *)
Definition listTaxons (kind : TaxonKind) (db : Db) : TaxonResponse :=
  TaxonList (tableOf kind db).

(** GET /{id} *)
Definition getTaxon (kind : TaxonKind) (db : Db) (i : Id) : TaxonResponse :=
  match findTaxon (tableOf kind db) i with
  | None => TaxonErr (taxonNotFound kind)
  | Some t => TaxonOk 200 t
  end.

(** POST / *)
Definition createTaxon (kind : TaxonKind) (db : Db) (newId : Id)
           (payload : TaxonCreatePayload) : Db * TaxonResponse :=
  match prismaTaxonCreate kind db newId payload with
  | inl (db', row) => (db', TaxonOk 201 row)
  | inr _ => (db, TaxonErr (taxonFailed "create" kind))
  end.

(** PATCH /{id} *)
Definition updateTaxon (kind : TaxonKind) (db : Db) (i : Id)
           (payload : TaxonUpdatePayload) : Db * TaxonResponse :=
  match findTaxon (tableOf kind db) i with
  | None => (db, TaxonErr (taxonNotFound kind))
  | Some _ =>
      match prismaTaxonUpdate kind db i payload with
      | inl (db', row) => (db', TaxonOk 200 row)
      | inr _ => (db, TaxonErr (taxonFailed "update" kind))
      end
  end.

(** DELETE /{id} *)
Definition deleteTaxon (kind : TaxonKind) (db : Db) (i : Id) : Db * TaxonResponse :=
  match findTaxon (tableOf kind db) i with
  | None => (db, TaxonErr (taxonNotFound kind))
  | Some _ =>
      match prismaTaxonDelete kind db i with
      | inl db' =>
          (db', TaxonDeleted ("Space " ++ kindWord kind ++ " deleted successfully."))
      | inr _ => (db, TaxonErr (taxonFailed "delete" kind))
      end
  end.

(** The unique indexes on the taxonomy names. *)
Definition namesUnique (db : Db) : bool :=
  nodupb (map taxonName (spaceTypes db))
  && nodupb (map taxonName (spaceCategories db))
  && nodupb (map taxonName (spaceFeatures db)).

(** The references of one row resolve in [db]. *)
Definition rowRefsOk (db : Db) (sp : Space) : Prop :=
  In (typeId sp) (map taxonId (spaceTypes db))
  /\ (forall c, In c (categories sp) -> In c (map taxonId (spaceCategories db)))
  /\ (forall f, In f (features sp) -> In f (map taxonId (spaceFeatures db)))
  /\ In (submittedById sp) (users db).

(** ** Users

    The columns of the User table.  ([Db] keeps the identifiers only,
    which is all the handlers on spaces read.) *)
Record User : Type := mkUser {
  userId : Id;
  username : string;
  email : string;
  passwordHash : string;
  profilePicture : option string;
  bio : option string;
  userCreatedAt : nat;
  userUpdatedAt : nat
}.

(** Primary key and the unique indexes on [username] and [email]. *)
Definition wfUsers (accounts : list User) : bool :=
  nodupb (map userId accounts)
  && nodupb (map username accounts)
  && nodupb (map email accounts).

(** ** The read routes on spaces *)

(** A Space as GET returns it: the view, with the name of its author
    and of its type ([include: { submittedBy: { select: { username } },
    type: { select: { name } } }]).  The two names are [None] only in a
    database that breaks the foreign keys. *)
Record SpaceDetail : Type := mkDetail {
  detailView : SpaceView;
  detailSubmittedBy : option string;
  detailType : option string
}.

Definition spaceDetail (accounts : list User) (db : Db) (sp : Space) : SpaceDetail :=
  mkDetail (formatSpace db sp)
           (option_map username
              (find (fun u => userId u =? submittedById sp) accounts))
           (option_map taxonName (findTaxon (spaceTypes db) (typeId sp))).

Inductive ReadResponse : Type :=
| SpaceList (rows : list SpaceDetail)     (* 200 *)
| SpaceFound (row : SpaceDetail)          (* 200 *)
| ReadErr (e : ErrorResponse).

(** GET /api/spaces *)
Definition getSpaces (accounts : list User) (db : Db) : ReadResponse :=
  SpaceList (map (spaceDetail accounts db) (spaces db)).

(** GET /api/spaces/{identifier} *)
Definition getSpace (accounts : list User) (db : Db) (identifier : string)
  : ReadResponse :=
  match findFirstByIdOrSlug db identifier with
  | None => ReadErr spaceNotFound
  | Some space => SpaceFound (spaceDetail accounts db space)
  end.

(** GET /api/users/{identifier}/spaces: the user is looked up by email
    or username, then the spaces by author. *)
Definition getUserSpaces (accounts : list User) (db : Db) (identifier : string)
  : ReadResponse :=
  match find (fun u => (email u =? identifier) || (username u =? identifier))
             accounts with
  | None => ReadErr (mkError "User not found." 404)
  | Some user =>
      SpaceList (map (spaceDetail accounts db)
                     (filter (fun sp => submittedById sp =? userId user) (spaces db)))
  end.

(** ** Tokens ([utils/token.ts]) *)

(** What [createToken] signs. *)
Record TokenPayload : Type := mkTokenPayload {
  tokenUserId : string;
  tokenEmail : string;
  exp : nat
}.

(** [Math.floor(Date.now() / 1000) + 2 * 60 * 60], from the clock
    reading [nowMs] in milliseconds. *)
Definition expirationTimeInSeconds (nowMs : nat) : nat :=
  nowMs / 1000 + 2 * 60 * 60.

(** ** The Authorization header ([middlewares/auth.ts]) *)

(** [s.split(" ")] *)
Fixpoint splitOnSpace (s : string) : list string :=
  match s with
  | EmptyString => [EmptyString]
  | String c rest =>
      if (nat_of_ascii c =? 32)%nat then EmptyString :: splitOnSpace rest
      else
        match splitOnSpace rest with
        | [] => [String c EmptyString]
        | word :: words => String c word :: words
        end
  end.

(** [authHeader.split(" ")[1]], when the header is there, is not empty
    and starts with "Bearer "; [None] is the 401 of the first guard. *)
Definition bearerToken (authHeader : option string) : option (option string) :=
  match authHeader with
  | None => None
  | Some header =>
      if (header =? "") || negb (prefix "Bearer " header) then None
      else Some (nth_error (splitOnSpace header) 1)
  end.

(** What the middleware reads in a verified payload: each field is
    there when [typeof] says it is a string. *)
Record DecodedPayload : Type := mkDecoded {
  decodedUserId : option string;
  decodedEmail : option string
}.

(** [verify(token, secret)] resolves to a payload (or a falsy value), or
    throws an error with a name. *)
Inductive VerifyResult : Type :=
| Verified (payload : option DecodedPayload)
| VerifyThrows (errorName : string).

(** The value of [c.get("user")]. *)
Record AuthUser : Type := mkAuthUser {
  authId : Id;
  authUsername : string;
  authEmail : string
}.

Inductive AuthResult : Type :=
| Next (user : AuthUser)            (* c.set("user", ...); await next() *)
| Rejected (e : ErrorResponse).     (* c.json(..., 401) *)

Definition authenticationFailed (errorName : string) : ErrorResponse :=
  if errorName =? "TokenExpiredError"
  then mkError "Authentication failed: Token expired." 401
  else mkError "Authentication failed: Invalid token." 401.

(** ** Registration and login ([features/auth/route.ts]) *)

Record RegisterRequest : Type := mkRegisterRequest {
  r_username : string;
  r_email : string;
  r_password : string
}.

Record LoginRequest : Type := mkLoginRequest {
  l_email : string;
  l_password : string
}.

Inductive AuthResponse : Type :=
| AuthOk (token : string) (note : string) (responseUserId : string)   (* 200 *)
| AuthErr (e : ErrorResponse).

Definition invalidCredentials : ErrorResponse :=
  mkError "Invalid email or password." 401.

Definition authServerError : ErrorResponse :=
  mkError "Failed to process login due to an internal server error." 500.

(** [prisma.user.create({ data })] at time [now], the row receiving the
    generated identifier [newId]. *)
Definition prismaUserCreate (accounts : list User) (now : nat) (newId : Id)
           (name mail hash picture about : string) : (list User * User) + RawError :=
  if mem newId (map userId accounts) then inr uniqueConstraintFailed
  else if mem name (map username accounts) then inr uniqueConstraintFailed
  else if mem mail (map email accounts) then inr uniqueConstraintFailed
  else
    let row := mkUser newId name mail hash (Some picture) (Some about) now now in
    inl ((accounts ++ [row])%list, row).

(** Stand-ins for the collaborators of the authentication routes, used
    to run them on sample requests: a "hash" that is the password
    itself, and a "token" that is the user identifier. *)
Definition sampleHash (salt password : string) : string := password.
Definition sampleVerifyPassword (password hash : string) : bool := password =? hash.
Definition sampleSign (payload : TokenPayload) (secret : string) : string :=
  tokenUserId payload.
Definition sampleVerify (token secret : string) : VerifyResult :=
  if token =? "" then VerifyThrows "JwtTokenInvalid"
  else Verified (Some (mkDecoded (Some token) (Some "x@example.com"))).

Definition aliceRow : User :=
  mkUser "cluser0alice" "alice_explorer" "alice@example.com" "correct horse"
         (Some "https://i.pravatar.cc/150?img=1") (Some "Loves nature.") 1 1.

Definition budiRow : User :=
  mkUser "cluser0budi" "budi" "budi@example.com" "s3cret-pass"
         None None 1 1.

Definition sampleAccounts : list User := [aliceRow; budiRow].

(** The password hashing of Bun and the JWT functions of hono are not in
    the repository: the routes take them as parameters.  [hashPassword]
    takes the salt it draws as an argument. *)
Record Collaborators : Type := mkCollaborators {
  hashPassword : string -> string -> string;
  verifyPassword : string -> string -> bool;
  sign : TokenPayload -> string -> string;
  verify : string -> string -> VerifyResult;
  JWT_SECRET : string
}.

Definition sampleCollaborators : Collaborators :=
  mkCollaborators sampleHash sampleVerifyPassword sampleSign sampleVerify
                  "your_super_secret_jwt_key".

(** [createToken({ userId, email })] at the clock reading [nowMs]. *)
Definition createToken (lib : Collaborators) (uid mail : string) (nowMs : nat)
  : string :=
  sign lib (mkTokenPayload uid mail (expirationTimeInSeconds nowMs))
       (JWT_SECRET lib).

(** The middleware [authenticateUser]. *)
Definition authenticateUser (lib : Collaborators) (accounts : list User)
           (authHeader : option string) : AuthResult :=
  match bearerToken authHeader with
  | None =>
      Rejected (mkError
        "Authentication required: Invalid or missing Authorization header." 401)
  | Some None => Rejected (authenticationFailed "TypeError")
  | Some (Some token) =>
      match verify lib token (JWT_SECRET lib) with
      | VerifyThrows errorName => Rejected (authenticationFailed errorName)
      | Verified None => Rejected (authenticationFailed "Error")
      | Verified (Some payload) =>
          match decodedUserId payload, decodedEmail payload with
          | Some uid, Some _ =>
              match find (fun u => userId u =? uid) accounts with
              | None =>
                  Rejected (mkError "Authentication failed: User not found." 401)
              | Some user =>
                  Next (mkAuthUser (userId user) (username user) (email user))
              end
          | _, _ => Rejected (authenticationFailed "Error")
          end
      end
  end.

(** POST /login, at the clock reading [nowMs]. *)
Definition login (lib : Collaborators) (accounts : list User) (nowMs : nat)
           (request : LoginRequest) : AuthResponse :=
  match find (fun u => email u =? l_email request) accounts with
  | None => AuthErr invalidCredentials
  | Some user =>
      if negb (verifyPassword lib (l_password request) (passwordHash user))
      then AuthErr invalidCredentials
      else AuthOk (createToken lib (userId user) (email user) nowMs)
                  "Login successful." (email user)
  end.

(** POST /register, at the clock reading [nowMs], with the salt and the
    identifier that are drawn. *)
Definition register (lib : Collaborators) (accounts : list User) (nowMs : nat)
           (newId : Id) (salt : string) (request : RegisterRequest)
  : list User * AuthResponse :=
  match find (fun u => email u =? r_email request) accounts with
  | Some _ => (accounts, AuthErr (mkError "Email already registered." 409))
  | None =>
      match find (fun u => username u =? r_username request) accounts with
      | Some _ => (accounts, AuthErr (mkError "Username already registered." 409))
      | None =>
          let hashedPassword := hashPassword lib salt (r_password request) in
          let avatarUrl :=
            "https://api.dicebear.com/9.x/adventurer-neutral/svg?seed="
            ++ r_username request ++ "&size=64" in
          match prismaUserCreate accounts nowMs newId (r_username request)
                                 (r_email request) hashedPassword avatarUrl
                                 "about me" with
          | inl (accounts', newuser) =>
              (accounts',
               AuthOk (createToken lib (userId newuser) (email newuser) nowMs)
                      "Registration successful." (userId newuser))
          | inr _ => (accounts, AuthErr authServerError)
          end
      end
  end.

(** The string holds no space. *)
Fixpoint noSpace (s : string) : bool :=
  match s with
  | EmptyString => true
  | String c rest => negb (nat_of_ascii c =? 32)%nat && noSpace rest
  end.

(** ** The seed script ([prisma/seed.ts]), its loop over spaces *)

(** An entry of [rawSpacesData]; some entries have no
    [historicalContext] or no [architecturalStyle]. *)
Record RawSpaceData : Type := mkRawSpaceData {
  raw_name : string;
  raw_alternateNames : list string;
  raw_description : string;
  raw_activities : list string;
  raw_historicalContext : Field string;
  raw_architecturalStyle : Field string;
  raw_typeId : Id;
  raw_categoryIds : list Id;
  raw_featureIds : list Id;
  raw_submittedById : Id;
  raw_operatingHours : Json;
  raw_entranceFee : Json;
  raw_contactInfo : Json;
  raw_accessibility : Json
}.

Definition notNull (f : Field string) : Field (Nullable string) :=
  match f with
  | Absent => Absent
  | Present s => Present (NotNull s)
  end.

(** The [create] argument of the upsert. *)
Definition seedCreateData (uniqueSlug : string) (raw : RawSpaceData) : CreateData :=
  mkCreateData (raw_name raw) uniqueSlug
               (Present (raw_alternateNames raw))
               (NotNull (raw_description raw))
               (Present (raw_activities raw))
               (notNull (raw_historicalContext raw))
               (notNull (raw_architecturalStyle raw))
               (Present (raw_operatingHours raw))
               (Present (raw_entranceFee raw))
               (Present (raw_contactInfo raw))
               (Present (raw_accessibility raw))
               (raw_submittedById raw)
               (raw_typeId raw)
               (raw_categoryIds raw)
               (raw_featureIds raw).

(** The row [existing] after the [update] argument of the upsert is
    applied: every attribute but the name is set, the type and the
    author are connected anew, the categories and features listed are
    connected besides those the row has. *)
Definition seedUpdateRow (now : nat) (uniqueSlug : string) (raw : RawSpaceData)
           (existing : Space) : Space :=
  mkSpace (id existing) (name existing) uniqueSlug
          (raw_alternateNames raw)
          (raw_description raw)
          (raw_activities raw)
          (nullableColumn (notNull (raw_historicalContext raw))
                          (historicalContext existing))
          (nullableColumn (notNull (raw_architecturalStyle raw))
                          (architecturalStyle existing))
          (Some (raw_operatingHours raw))
          (Some (raw_entranceFee raw))
          (Some (raw_contactInfo raw))
          (Some (raw_accessibility raw))
          (raw_typeId raw)
          (nodup string_dec (categories existing ++ raw_categoryIds raw)%list)
          (nodup string_dec (features existing ++ raw_featureIds raw)%list)
          (raw_submittedById raw)
          (createdAt existing)
          now.

(** [prisma.space.upsert({ where: { slug: uniqueSlug }, update, create })] *)
Definition prismaSpaceUpsert (db : Db) (now : nat) (newId : Id) (uniqueSlug : string)
           (raw : RawSpaceData) : (Db * Space) + RawError :=
  match findUniqueBySlug db uniqueSlug with
  | Some existing =>
      if negb (mem (raw_submittedById raw) (users db)) then inr requiredRecordMissing
      else if negb (mem (raw_typeId raw) (map taxonId (spaceTypes db)))
      then inr requiredRecordMissing
      else if negb (allExist (spaceCategories db) (raw_categoryIds raw))
      then inr requiredRecordMissing
      else if negb (allExist (spaceFeatures db) (raw_featureIds raw))
      then inr requiredRecordMissing
      else if tooLong (notNull (raw_architecturalStyle raw)) then inr valueTooLong
      else
        let row := seedUpdateRow now uniqueSlug raw existing in
        inl (withSpaces db (replaceRow (id existing) row (spaces db)), row)
  | None => prismaSpaceCreate db now newId (seedCreateData uniqueSlug raw)
  end.

(** One turn of the loop: the slug, then the upsert.  [None]: the slug
    loop is running. *)
Definition seedSpace (db : Db) (now : nat) (newId : Id) (raw : RawSpaceData)
  : option ((Db * Space) + RawError) :=
  match ensureUniqueSlug db (raw_name raw) with
  | None => None
  | Some uniqueSlug => Some (prismaSpaceUpsert db now newId uniqueSlug raw)
  end.

(** [for (const rawSpaceData of rawSpacesData)]; each entry comes with
    the identifier generated for it should a row be created.  An error
    thrown by a write ends the script. *)
Fixpoint seedSpaces (db : Db) (now : nat) (items : list (Id * RawSpaceData))
  : option (Db + RawError) :=
  match items with
  | [] => Some (inl db)
  | (newId, raw) :: rest =>
      match seedSpace db now newId raw with
      | None => None
      | Some (inr error) => Some (inr error)
      | Some (inl (db', _)) => seedSpaces db' now rest
      end
  end.

(** ** More sample data *)

(** The row a second create of [hiddenGem], by [alice] at time 6,
    stores after [gem]. *)
Definition gemAgain : Space :=
  mkSpace "cmcvyolex000jv3ik9new0002" "Hidden Gem" "Hidden-Gem-1"
          [] "" [] None None None None None None
          "cltype0park" ["clcat0hist"] [] alice 6 6.

(** [{ name: "Natural" }] and [{ name: "Recreational" }] *)
Definition naturalCategory : TaxonCreatePayload :=
  mkTaxonCreatePayload "Natural" Absent.

Definition renameToRecreational : TaxonUpdatePayload :=
  mkTaxonUpdatePayload (Present "Recreational") Absent.


Definition registerCitra : RegisterRequest :=
  mkRegisterRequest "citra" "citra@example.com" "batik-1234".

Definition citraRow : User :=
  mkUser "cluser0citra" "citra" "citra@example.com" "batik-1234"
         (Some "https://api.dicebear.com/9.x/adventurer-neutral/svg?seed=citra&size=64")
         (Some "about me") 7 7.

(** The first entry of [rawSpacesData], with the identifiers of
    [sampleDb]. *)
Definition rawTaman : RawSpaceData :=
  mkRawSpaceData "Taman Bungkul" ["Bungkul Park"]
                 "A popular urban park in Surabaya." ["picnic"; "jogging"]
                 Absent Absent "cltype0park" ["clcat0recr"] ["clfeat0wifi"] alice
                 (JsonDoc "daily 24/7")
                 (JsonDoc "amount 0")
                 (JsonDoc "phone +62315678900")
                 (JsonDoc "wheelchair_accessible true").

(** * Properties *)

(** ** Lists and strings *)

Lemma mem_In (x : string) (xs : list string) : mem x xs = true <-> In x xs.
Proof.
  unfold mem. rewrite existsb_exists. split.
  - intros [y [Hy Heq]]. apply String.eqb_eq in Heq. now subst.
  - intros H. exists x. split; [assumption | apply String.eqb_refl].
Qed.

Lemma mem_false (x : string) (xs : list string) : mem x xs = false <-> ~ In x xs.
Proof.
  rewrite <- mem_In. destruct (mem x xs); split; congruence.
Qed.

Lemma nodupb_NoDup (xs : list string) : nodupb xs = true <-> NoDup xs.
Proof.
  induction xs as [|x xs IH]; simpl.
  - split; [constructor | reflexivity].
  - rewrite andb_true_iff, negb_true_iff, mem_false, IH. split.
    + intros [Hx Hxs]. now constructor.
    + intros H. inversion H; subst. now split.
Qed.

Lemma append_cancel (a x y : string) : a ++ x = a ++ y -> x = y.
Proof.
  induction a as [|c a IH]; simpl; intros H.
  - exact H.
  - injection H as H. now apply IH.
Qed.

Lemma numToString_inj (n m : nat) : numToString n = numToString m -> n = m.
Proof.
  unfold numToString. intros H.
  apply Unsigned.to_uint_inj.
  assert (Hs : Some (Nat.to_uint n) = Some (Nat.to_uint m)).
  { rewrite <- (NilEmpty.usu (Nat.to_uint n)), <- (NilEmpty.usu (Nat.to_uint m)).
    now rewrite H. }
  now injection Hs.
Qed.

(** ** The slug generator *)

Lemma candidate_inj (baseName : string) (j k : nat) :
  candidate baseName j = candidate baseName k -> j = k.
Proof.
  unfold candidate. intros H.
  apply append_cancel in H. apply append_cancel in H.
  now apply numToString_inj.
Qed.

Lemma findUniqueBySlug_None (db : Db) (s : string) :
  findUniqueBySlug db s = None <-> ~ In s (map slug (spaces db)).
Proof.
  unfold findUniqueBySlug. split.
  - intros Hnone Hin. apply in_map_iff in Hin. destruct Hin as [sp [Hs Hsp]].
    apply (find_none _ _ Hnone) in Hsp. simpl in Hsp.
    apply String.eqb_neq in Hsp. contradiction.
  - intros Hnot. destruct (find _ _) as [sp|] eqn:Hfind; [|reflexivity].
    apply find_some in Hfind. destruct Hfind as [Hin Heq].
    apply String.eqb_eq in Heq. exfalso. apply Hnot.
    apply in_map_iff. now exists sp.
Qed.

Lemma findUniqueBySlug_Some (db : Db) (s : string) (sp : Space) :
  findUniqueBySlug db s = Some sp -> In sp (spaces db) /\ slug sp = s.
Proof.
  unfold findUniqueBySlug. intros H. apply find_some in H.
  destruct H as [Hin Heq]. apply String.eqb_eq in Heq. now split.
Qed.

(** Among the first [length (spaces db) + 1] retry candidates one is not
    in use: they are pairwise distinct and the table has fewer rows. *)
Lemma some_candidate_unused (db : Db) (baseName : string) :
  exists k, 1 <= k <= length (spaces db) + 1
            /\ findUniqueBySlug db (candidate baseName k) = None.
Proof.
  set (n := length (spaces db)).
  set (ks := seq 1 (n + 1)).
  destruct (Exists_dec (fun k => findUniqueBySlug db (candidate baseName k) = None) ks)
    as [Hex | Hall].
  - intros k. destruct (findUniqueBySlug db (candidate baseName k));
      [right; discriminate | now left].
  - apply Exists_exists in Hex. destruct Hex as [k [Hin Hk]].
    exists k. split; [|exact Hk]. apply in_seq in Hin. lia.
  - exfalso.
    assert (Hincl : incl (map (candidate baseName) ks) (map slug (spaces db))).
    { intros s Hs. apply in_map_iff in Hs. destruct Hs as [k [Hk Hin]]. subst s.
      destruct (in_dec string_dec (candidate baseName k) (map slug (spaces db)))
        as [Hyes | Hno]; [exact Hyes|].
      exfalso. apply Hall. apply Exists_exists. exists k. split; [exact Hin|].
      now apply findUniqueBySlug_None. }
    assert (Hnodup : NoDup (map (candidate baseName) ks)).
    { apply Injective_map_NoDup.
      - intros j k. apply candidate_inj.
      - apply seq_NoDup. }
    pose proof (NoDup_incl_length Hnodup Hincl) as Hlen.
    rewrite !length_map in Hlen. unfold ks in Hlen. rewrite length_seq in Hlen.
    fold n in Hlen. lia.
Qed.

(** The loop from the state reached after a failed candidate: the
    current slug is [candidate baseName counter].  If the candidate
    [counter + d] is free and more than [d] iterations of fuel are left,
    the loop stops at the least free candidate [j]. *)
Lemma ensureUniqueSlugLoop_retry (db : Db) (baseName : string) (d : nat) :
  forall counter fuel,
    findUniqueBySlug db (candidate baseName (counter + d)) = None ->
    d < fuel ->
    exists j,
      counter <= j <= counter + d
      /\ ensureUniqueSlugLoop fuel db baseName (candidate baseName counter) (S counter)
         = Some (candidate baseName j, S (j - counter))
      /\ findUniqueBySlug db (candidate baseName j) = None
      /\ (forall i, counter <= i < j ->
                    findUniqueBySlug db (candidate baseName i) <> None).
Proof.
  induction d as [|d IH]; intros counter fuel Hfree Hfuel.
  - rewrite Nat.add_0_r in Hfree. exists counter.
    destruct fuel as [|fuel]; [lia|]. simpl. rewrite Hfree.
    rewrite Nat.sub_diag. repeat split; try assumption; lia.
  - destruct fuel as [|fuel]; [lia|]. simpl.
    destruct (findUniqueBySlug db (candidate baseName counter)) as [sp|] eqn:Hcur.
    + destruct (IH (S counter) fuel) as [j [Hj [Hloop [Hjfree Hused]]]].
      * now replace (S counter + d) with (counter + S d) by lia.
      * lia.
      * exists j. rewrite Hloop.
        replace (S (j - S counter)) with (j - counter) by lia.
        repeat split; try lia; try assumption.
        intros i Hi. destruct (Nat.eq_dec i counter) as [->|Hne].
        -- rewrite Hcur. discriminate.
        -- apply Hused. lia.
    + exists counter. rewrite Nat.sub_diag.
      repeat split; try assumption; lia.
Qed.

(** More fuel does not change the result of a loop that has stopped. *)
Lemma ensureUniqueSlugLoop_more_fuel (db : Db) (baseName : string) (fuel : nat) :
  forall slug counter result extra,
    ensureUniqueSlugLoop fuel db baseName slug counter = Some result ->
    ensureUniqueSlugLoop (fuel + extra) db baseName slug counter = Some result.
Proof.
  induction fuel as [|fuel IH]; intros slug counter result extra H.
  - discriminate.
  - simpl in *. destruct (findUniqueBySlug db slug) as [sp|]; [|exact H].
    destruct (ensureUniqueSlugLoop fuel db baseName (candidate baseName counter)
                                   (S counter)) as [[s it]|] eqn:Hrec;
      [|discriminate].
    now rewrite (IH _ _ _ extra Hrec).
Qed.

(** What [ensureUniqueSlug] computes, with the iterations it takes, for
    every amount of fuel from [length (spaces db) + 2] on. *)
Lemma ensureUniqueSlugFuel_enough (db : Db) (baseName : string) (extra : nat) :
  exists s iterations,
    ensureUniqueSlugFuel (length (spaces db) + 2 + extra) db baseName
    = Some (s, iterations)
    /\ iterations <= length (spaces db) + 2
    /\ findUniqueBySlug db s = None
    /\ ((s = slugify baseName strictLower /\ iterations = 1)
        \/ (findUniqueBySlug db (slugify baseName strictLower) <> None
            /\ exists k, 1 <= k
                 /\ s = candidate baseName k
                 /\ iterations = k + 1
                 /\ forall i, 1 <= i < k ->
                      findUniqueBySlug db (candidate baseName i) <> None)).
Proof.
  unfold ensureUniqueSlugFuel.
  replace (length (spaces db) + 2 + extra)
    with (S (length (spaces db) + 1 + extra)) by lia.
  simpl.
  destruct (findUniqueBySlug db (slugify baseName strictLower)) as [sp|] eqn:Hfirst.
  - destruct (some_candidate_unused db baseName) as [k [Hk Hfree]].
    destruct (ensureUniqueSlugLoop_retry db baseName (k - 1) 1
                (length (spaces db) + 1 + extra))
      as [j [Hj [Hloop [Hjfree Hused]]]].
    + now replace (1 + (k - 1)) with k by lia.
    + lia.
    + rewrite Hloop. exists (candidate baseName j), (S (S (j - 1))).
      repeat split; try lia; try assumption.
      right. split; [discriminate|].
      exists j. repeat split; try lia. exact Hused.
  - exists (slugify baseName strictLower), 1.
    repeat split; try lia; try assumption. now left.
Qed.

Lemma ensureUniqueSlug_Some (db : Db) (baseName : string) :
  exists s, ensureUniqueSlug db baseName = Some s.
Proof.
  destruct (ensureUniqueSlugFuel_enough db baseName 0) as [s [it [H _]]].
  exists s. unfold ensureUniqueSlug.
  rewrite Nat.add_0_r in H. now rewrite H.
Qed.

Lemma ensureUniqueSlug_unused (db : Db) (baseName s : string) :
  ensureUniqueSlug db baseName = Some s -> findUniqueBySlug db s = None.
Proof.
  destruct (ensureUniqueSlugFuel_enough db baseName 0) as [s' [it [H [_ [Hfree _]]]]].
  unfold ensureUniqueSlug. rewrite Nat.add_0_r in H. rewrite H. simpl.
  intros Heq. injection Heq as <-. exact Hfree.
Qed.

(** C3. For every display name and every database, [ensureUniqueSlug]
    returns a slug that no existing Space uses.  The slug is the strict,
    lower-cased slugification of the name when that one is free;
    otherwise it is the default slugification of the original name, a
    hyphen and a counter [k >= 1], where [k] is the first counter, counting
    up from 1, whose candidate is free.  The loop returns that slug
    whatever fuel it is given beyond [length (spaces db) + 2]. *)
Theorem C3_ensureUniqueSlug_fresh (db : Db) (baseName : string) :
  exists s,
    ensureUniqueSlug db baseName = Some s
    /\ (forall extra,
          option_map fst
            (ensureUniqueSlugFuel (length (spaces db) + 2 + extra) db baseName)
          = Some s)
    /\ (forall sp, In sp (spaces db) -> slug sp <> s)
    /\ ((s = slugify baseName strictLower)
        \/ (In (slugify baseName strictLower) (map slug (spaces db))
            /\ exists k, 1 <= k
                 /\ s = slugify baseName defaultOptions ++ "-" ++ numToString k
                 /\ forall i, 1 <= i < k ->
                      In (slugify baseName defaultOptions ++ "-" ++ numToString i)
                         (map slug (spaces db)))).
Proof.
  destruct (ensureUniqueSlugFuel_enough db baseName 0)
    as [s [it [H [_ [Hfree Hshape]]]]].
  exists s. unfold ensureUniqueSlug. rewrite Nat.add_0_r in H. rewrite H.
  split; [reflexivity|]. split; [|split].
  - intros extra. unfold ensureUniqueSlugFuel in *.
    now rewrite (ensureUniqueSlugLoop_more_fuel _ _ _ _ _ _ extra H).
  - intros sp Hin Heq. apply findUniqueBySlug_None in Hfree. apply Hfree.
    apply in_map_iff. now exists sp.
  - destruct Hshape as [[Hs _] | [Hused [k [Hk [Hs [_ Hearlier]]]]]].
    + now left.
    + right. split.
      * destruct (in_dec string_dec (slugify baseName strictLower)
                         (map slug (spaces db))) as [Hin|Hnot]; [exact Hin|].
        apply findUniqueBySlug_None in Hnot. contradiction.
      * exists k. repeat split; try assumption.
        intros i Hi. specialize (Hearlier i Hi).
        destruct (in_dec string_dec (candidate baseName i)
                         (map slug (spaces db))) as [Hin|Hnot]; [exact Hin|].
        apply findUniqueBySlug_None in Hnot. contradiction.
Qed.

(** C8. For every display name and every database the retry loop of
    [ensureUniqueSlug] stops: given any fuel from
    [length (spaces db) + 2] on it returns a slug after at most
    [length (spaces db) + 2] iterations. *)
Theorem C8_ensureUniqueSlug_terminates (db : Db) (baseName : string) (extra : nat) :
  exists s iterations,
    ensureUniqueSlugFuel (length (spaces db) + 2 + extra) db baseName
    = Some (s, iterations)
    /\ iterations <= length (spaces db) + 2.
Proof.
  destruct (ensureUniqueSlugFuel_enough db baseName extra) as [s [it [H [Hle _]]]].
  now exists s, it.
Qed.

(** ** The error mapper *)

(** C1 (as amended). The response of every catch clause is a function of
    the raw error alone.  On update a unique-constraint violation yields
    409 and a missing related record 404; on delete a missing record
    yields 404.  An error that is neither of the two yields 500 with a
    fixed message on create and on delete, and on update too unless it is
    an Error outside Prisma's known-request class: those are classified
    by their message text (403, 404 carrying the text, 400, else 500). *)
Theorem C1_error_mapping (error : RawError) :
  (isUniqueViolation error = true ->
     updateCatch error = mkError "A space with this name or slug already exists." 409)
  /\ (isRelatedRecordMissing error = true ->
        updateCatch error
        = mkError "One or more related records (type, category, feature) not found." 404
        /\ deleteCatch error = mkError "Space not found." 404)
  /\ (isUniqueViolation error = false -> isRelatedRecordMissing error = false ->
        createCatch error
        = mkError "Failed to create space due to an internal server error." 500
        /\ deleteCatch error
           = mkError "Failed to delete space due to an internal server error." 500
        /\ (isPlainError error = false ->
              code (updateCatch error) = 500
              /\ (message (updateCatch error) = "Database operation failed unexpectedly."
                  \/ message (updateCatch error)
                     = "An entirely unexpected error occurred.")))
  /\ (forall msg, error = JsError msg ->
        updateCatch error
        = if includes "Forbidden" msg then mkError msg 403
          else if includes "not found" msg then mkError msg 404
          else if includes "Validation error" msg || includes "Invalid input" msg
               then mkError "Invalid input data provided." 400
               else mkError "An unexpected server error occurred." 500).
Proof.
  destruct error as [c m | m | ]; simpl.
  - destruct (c =? "P2002") eqn:H2002.
    + apply String.eqb_eq in H2002. subst c. simpl.
      repeat split; intros; try reflexivity; discriminate.
    + destruct (c =? "P2025") eqn:H2025;
        repeat split; intros; try reflexivity; try discriminate.
      now left.
  - repeat split; intros; try reflexivity; try discriminate.
    match goal with H : JsError _ = JsError _ |- _ => injection H as <- end.
    reflexivity.
  - repeat split; intros; try reflexivity; try discriminate.
    now right.
Qed.

(** ** Strings: [includes] and [join] *)

Lemma append_empty_r (s : string) : s ++ "" = s.
Proof.
  induction s as [|c s IH]; simpl; [reflexivity | now rewrite IH].
Qed.

Lemma append_assoc_string (a b c : string) : (a ++ b) ++ c = a ++ (b ++ c).
Proof.
  induction a as [|x a IH]; simpl; [reflexivity | now rewrite IH].
Qed.

Lemma prefix_append (n rest : string) : prefix n (n ++ rest) = true.
Proof.
  induction n as [|c n IH]; simpl.
  - now destruct rest.
  - destruct (ascii_dec c c) as [_|Hne]; [exact IH | now elim Hne].
Qed.

Lemma includes_unfold (n hay : string) :
  includes n hay
  = prefix n hay
    || match hay with
       | EmptyString => false
       | String _ rest => includes n rest
       end.
Proof.
  destruct hay; reflexivity.
Qed.

Lemma includes_infix (n before after : string) :
  includes n (before ++ n ++ after) = true.
Proof.
  induction before as [|c before IH].
  - change ("" ++ n ++ after) with (n ++ after).
    rewrite includes_unfold, prefix_append. reflexivity.
  - change (String c before ++ n ++ after) with (String c (before ++ n ++ after)).
    rewrite includes_unfold, IH. apply orb_true_r.
Qed.

Lemma join_infix (sep x : string) (xs : list string) :
  In x xs -> exists before after, join sep xs = before ++ x ++ after.
Proof.
  induction xs as [|y xs IH]; intros Hin; [contradiction|].
  destruct xs as [|z xs].
  - destruct Hin as [->|[]]. exists "", "". simpl. now rewrite append_empty_r.
  - change (join sep (y :: z :: xs)) with (y ++ sep ++ join sep (z :: xs)).
    destruct Hin as [->|Hin].
    + exists "", (sep ++ join sep (z :: xs)). reflexivity.
    + destruct (IH Hin) as [before [after Heq]]. rewrite Heq.
      exists (y ++ sep ++ before), after.
      now rewrite !append_assoc_string.
Qed.

(** ** The store *)

Lemma NoDup_map_eq {A : Type} (f : A -> string) (l : list A) (a b : A) :
  NoDup (map f l) -> In a l -> In b l -> f a = f b -> a = b.
Proof.
  induction l as [|x l IH]; simpl; intros Hnd Ha Hb Heq; [contradiction|].
  inversion Hnd as [|? ? Hx Hl]; subst.
  destruct Ha as [->|Ha], Hb as [->|Hb].
  - reflexivity.
  - exfalso. apply Hx. rewrite Heq. now apply in_map.
  - exfalso. apply Hx. rewrite <- Heq. now apply in_map.
  - now apply IH.
Qed.

Lemma wfDb_spaces (db : Db) :
  wfDb db = true -> NoDup (map id (spaces db)) /\ NoDup (map slug (spaces db)).
Proof.
  unfold wfDb. rewrite !andb_true_iff, !nodupb_NoDup. tauto.
Qed.

Lemma wfDb_taxonomies (db : Db) :
  wfDb db = true ->
  NoDup (map taxonId (spaceTypes db))
  /\ NoDup (map taxonId (spaceCategories db))
  /\ NoDup (map taxonId (spaceFeatures db)).
Proof.
  unfold wfDb. rewrite !andb_true_iff, !nodupb_NoDup. tauto.
Qed.

Lemma findFirstByIdOrSlug_Some (db : Db) (identifier : string) (sp : Space) :
  findFirstByIdOrSlug db identifier = Some sp ->
  In sp (spaces db) /\ (id sp = identifier \/ slug sp = identifier).
Proof.
  unfold findFirstByIdOrSlug. intros H. apply find_some in H.
  destruct H as [Hin Hmatch]. split; [exact Hin|].
  apply orb_true_iff in Hmatch. now rewrite !String.eqb_eq in Hmatch.
Qed.

Lemma findUniqueById_Some (db : Db) (i : Id) (sp : Space) :
  findUniqueById db i = Some sp -> In sp (spaces db) /\ id sp = i.
Proof.
  unfold findUniqueById. intros H. apply find_some in H.
  destruct H as [Hin Heq]. apply String.eqb_eq in Heq. now split.
Qed.

(** With unique identifiers, the row of a given identifier is found by
    that identifier. *)
Lemma findUniqueById_of_In (db : Db) (sp : Space) :
  NoDup (map id (spaces db)) -> In sp (spaces db) ->
  findUniqueById db (id sp) = Some sp.
Proof.
  intros Hnd Hin. unfold findUniqueById.
  destruct (find (fun s => id s =? id sp) (spaces db)) as [sp'|] eqn:Hfind.
  - apply find_some in Hfind. destruct Hfind as [Hin' Heq].
    apply String.eqb_eq in Heq. f_equal.
    now apply (NoDup_map_eq id (spaces db)).
  - apply (find_none _ _ Hfind) in Hin. simpl in Hin.
    now rewrite String.eqb_refl in Hin.
Qed.

Lemma find_replaceRow (i : Id) (row : Space) (rows : list Space) (sp : Space) :
  id row = i ->
  find (fun s => id s =? i) rows = Some sp ->
  find (fun s => id s =? i) (replaceRow i row rows) = Some row.
Proof.
  intros Hrow. induction rows as [|x rows IH]; simpl; [discriminate|].
  destruct (id x =? i) eqn:Hx.
  - intros _. simpl. now rewrite Hrow, String.eqb_refl.
  - intros H. simpl. rewrite Hx. now apply IH.
Qed.

Lemma replaceRow_other (i : Id) (row : Space) (rows : list Space) (sp : Space) :
  id sp <> i -> In sp rows -> In sp (replaceRow i row rows).
Proof.
  intros Hne Hin. unfold replaceRow. apply in_map_iff. exists sp.
  apply String.eqb_neq in Hne. now rewrite Hne.
Qed.

(** A successful [prisma.space.update], read backwards. *)
Lemma prismaSpaceUpdate_inl (db db' : Db) (now : nat) (i : Id) (data : UpdateData)
      (row : Space) :
  prismaSpaceUpdate db now i data = inl (db', row) ->
  exists sp descr,
    findUniqueById db i = Some sp
    /\ ud_description data <> Present JsNull
    /\ row = applyUpdate now data descr sp
    /\ id row = i
    /\ spaces db' = replaceRow i row (spaces db)
    /\ findUniqueById db' i = Some row
    /\ slugTakenByOther db i (slug row) = false.
Proof.
  unfold prismaSpaceUpdate.
  destruct (findUniqueById db i) as [sp|] eqn:Hfind; [|discriminate].
  pose proof (findUniqueById_Some _ _ _ Hfind) as [_ Hid].
  set (descr := match ud_description data with
                | Present (NotNull d) => d
                | _ => description sp
                end).
  assert (Hbody :
    (if negb (allExist (spaceTypes db)
                (match ud_type data with Absent => [] | Present t => [t] end))
     then inr requiredRecordMissing
     else if negb (allExist (spaceCategories db) (orElse (ud_categories data) []))
     then inr requiredRecordMissing
     else if negb (allExist (spaceFeatures db) (orElse (ud_features data) []))
     then inr requiredRecordMissing
     else if tooLong (ud_architecturalStyle data) then inr valueTooLong
     else if slugTakenByOther db i (orElse (ud_slug data) (slug sp))
     then inr uniqueConstraintFailed
     else inl (mkDb (users db) (replaceRow i (applyUpdate now data descr sp) (spaces db))
                 (spaceTypes db) (spaceCategories db) (spaceFeatures db),
               applyUpdate now data descr sp)) = inl (db', row) ->
    ud_description data <> Present JsNull ->
    exists sp0 descr0,
      Some sp = Some sp0
      /\ ud_description data <> Present JsNull
      /\ row = applyUpdate now data descr0 sp0
      /\ id row = i
      /\ spaces db' = replaceRow i row (spaces db)
      /\ findUniqueById db' i = Some row
      /\ slugTakenByOther db i (slug row) = false).
  { intros H Hnotnull.
    destruct (negb (allExist (spaceTypes db) _)); [discriminate|].
    destruct (negb (allExist (spaceCategories db) _)); [discriminate|].
    destruct (negb (allExist (spaceFeatures db) _)); [discriminate|].
    destruct (tooLong _); [discriminate|].
    destruct (slugTakenByOther db i _) eqn:Htaken; [discriminate|].
    injection H as Hdb Hrow. exists sp, descr. subst row db'. simpl.
    repeat split; try assumption.
    unfold findUniqueById. simpl.
    apply find_replaceRow with (sp := sp); [exact Hid | exact Hfind]. }
  destruct (ud_description data) as [|[|d]] eqn:Hdescr.
  - intros H. apply Hbody; [exact H | discriminate].
  - discriminate.
  - intros H. apply Hbody; [exact H | discriminate].
Qed.

(** ** Validation of reference lists *)

Lemma findManyIn_ids (table : list Taxon) (ids : list Id) (i : Id) :
  In i (map taxonId (findManyIn table ids))
  <-> In i ids /\ In i (map taxonId table).
Proof.
  unfold findManyIn. rewrite !in_map_iff. split.
  - intros [t [Ht Hin]]. apply filter_In in Hin. destruct Hin as [Hin Hmem].
    apply mem_In in Hmem. subst i. split; [exact Hmem|]. now exists t.
  - intros [Hids [t [Ht Hin]]]. exists t. split; [exact Ht|].
    apply filter_In. split; [exact Hin|]. apply mem_In. now rewrite Ht.
Qed.

Lemma findManyIn_ids_NoDup (table : list Taxon) (ids : list Id) :
  NoDup (map taxonId table) -> NoDup (map taxonId (findManyIn table ids)).
Proof.
  unfold findManyIn. induction table as [|t table IH]; simpl; intros Hnd.
  - constructor.
  - inversion Hnd as [|? ? Ht Htable]; subst.
    destruct (mem (taxonId t) ids); [|now apply IH].
    simpl. constructor; [|now apply IH].
    intros Hin. apply Ht. apply in_map_iff in Hin.
    destruct Hin as [t' [Heq Hin]]. apply filter_In in Hin.
    apply in_map_iff. exists t'. tauto.
Qed.

(** The identifiers reported missing are those of the list that have no
    row in the table. *)
Lemma missingIds_In (table : list Taxon) (ids : list Id) (i : Id) :
  In i (missingIds table ids) <-> In i ids /\ ~ In i (map taxonId table).
Proof.
  unfold missingIds. rewrite filter_In, negb_true_iff, mem_false, findManyIn_ids.
  tauto.
Qed.

Lemma allExist_In (table : list Taxon) (ids : list Id) :
  allExist table ids = true <-> forall i, In i ids -> In i (map taxonId table).
Proof.
  unfold allExist. rewrite forallb_forall. split; intros H i Hi.
  - apply mem_In. now apply H.
  - apply mem_In. now apply H.
Qed.

(** The check passes only on a list of distinct identifiers that all
    have a row. *)
Lemma checkIds_None (kind : string) (table : list Taxon) (ids : list Id) :
  NoDup (map taxonId table) ->
  checkIds kind table ids = None ->
  NoDup ids /\ allExist table ids = true.
Proof.
  intros Hnd. unfold checkIds.
  destruct (0 <? length ids)%nat eqn:Hlen.
  - destruct (length (findManyIn table ids) =? length ids)%nat eqn:Hsame;
      simpl; [|discriminate].
    intros _. apply Nat.eqb_eq in Hsame.
    pose proof (findManyIn_ids_NoDup table ids Hnd) as Hfound.
    assert (Hincl : incl (map taxonId (findManyIn table ids)) ids).
    { intros i Hi. now apply findManyIn_ids in Hi. }
    assert (Hle : length ids <= length (map taxonId (findManyIn table ids))).
    { rewrite length_map. lia. }
    split.
    + exact (NoDup_incl_NoDup Hfound Hle Hincl).
    + apply allExist_In. intros i Hi.
      apply (NoDup_length_incl Hfound Hle Hincl) in Hi.
      now apply findManyIn_ids in Hi.
  - intros _. apply Nat.ltb_ge in Hlen.
    destruct ids; [|simpl in Hlen; lia].
    split; [constructor | reflexivity].
Qed.

(** A list with an identifier that has no row fails the check, and the
    response lists the identifiers without a row. *)
Lemma checkIds_missing (kind : string) (table : list Taxon) (ids : list Id) (i : Id) :
  NoDup (map taxonId table) ->
  In i ids -> ~ In i (map taxonId table) ->
  checkIds kind table ids = Some (idsNotFound kind table ids).
Proof.
  intros Hnd Hin Hmissing. unfold checkIds.
  assert (Hpos : (0 <? length ids)%nat = true).
  { apply Nat.ltb_lt. destruct ids; [contradiction | simpl; lia]. }
  rewrite Hpos.
  assert (Hlt : length (findManyIn table ids) < length ids).
  { pose proof (findManyIn_ids_NoDup table ids Hnd) as Hfound.
    assert (Hnd' : NoDup (i :: map taxonId (findManyIn table ids))).
    { constructor; [|exact Hfound]. intros Hi.
      apply findManyIn_ids in Hi. tauto. }
    assert (Hincl : incl (i :: map taxonId (findManyIn table ids)) ids).
    { intros j [<-|Hj]; [exact Hin|]. now apply findManyIn_ids in Hj. }
    pose proof (NoDup_incl_length Hnd' Hincl) as Hlen.
    simpl in Hlen. rewrite length_map in Hlen. lia. }
  apply Nat.lt_neq in Hlt. apply Nat.eqb_neq in Hlt. rewrite Hlt. reflexivity.
Qed.

Lemma missing_named (kind : string) (table : list Taxon) (ids : list Id) (i : Id) :
  In i ids -> ~ In i (map taxonId table) ->
  includes i (message (idsNotFound kind table ids)) = true.
Proof.
  intros Hin Hmissing. unfold idsNotFound, message.
  assert (Hi : In i (missingIds table ids)) by now apply missingIds_In.
  destruct (join_infix ", " i _ Hi) as [before [after Heq]]. rewrite Heq.
  replace ("One or more " ++ kind ++ " IDs not found: "
           ++ (before ++ i ++ after) ++ ".")
    with (("One or more " ++ kind ++ " IDs not found: " ++ before)
          ++ i ++ (after ++ ".")).
  - apply includes_infix.
  - now rewrite !append_assoc_string.
Qed.

Lemma findTaxon_None (table : list Taxon) (i : Id) :
  findTaxon table i = None <-> ~ In i (map taxonId table).
Proof.
  unfold findTaxon. split.
  - intros Hnone Hin. apply in_map_iff in Hin. destruct Hin as [t [Ht Hin]].
    apply (find_none _ _ Hnone) in Hin. simpl in Hin.
    apply String.eqb_neq in Hin. contradiction.
  - intros Hnot. destruct (find _ table) as [t|] eqn:Hfind; [|reflexivity].
    apply find_some in Hfind. destruct Hfind as [Hin Heq].
    apply String.eqb_eq in Heq. exfalso. apply Hnot.
    apply in_map_iff. now exists t.
Qed.

(** ** The handlers *)

Lemma regenerateSlug_Some (db : Db) (existing : Space) (payload : UpdatePayload) :
  exists newSlug, regenerateSlug db existing payload = Some newSlug.
Proof.
  unfold regenerateSlug. destruct (u_name payload) as [|n]; [now exists Absent|].
  destruct (negb (n =? name existing)); [|now exists Absent].
  destruct (ensureUniqueSlug_Some db n) as [s Hs]. rewrite Hs.
  now exists (Present s).
Qed.

(** A successful PATCH, read backwards: every gate was passed and the
    response is the row written by [prisma.space.update] at the
    identifier of the space found. *)
Lemma updateSpace_Ok (db db' : Db) (now : nat) (user : Id) (identifier : string)
      (payload : UpdatePayload) (status : nat) (view : SpaceView) :
  updateSpace db now user identifier payload = Responded db' (Ok status view) ->
  exists existing newSlug,
    findFirstByIdOrSlug db identifier = Some existing
    /\ submittedById existing = user
    /\ regenerateSlug db existing payload = Some newSlug
    /\ checkType db (u_typeId payload) = None
    /\ checkIds "Category" (spaceCategories db) (orElse (u_categoryIds payload) []) = None
    /\ checkIds "Feature" (spaceFeatures db) (orElse (u_featureIds payload) []) = None
    /\ prismaSpaceUpdate db now (id existing) (buildUpdateData payload newSlug)
       = inl (db', viewRow view)
    /\ status = 200.
Proof.
  unfold updateSpace.
  destruct (findFirstByIdOrSlug db identifier) as [existing|] eqn:Hfind;
    [|discriminate].
  destruct (submittedById existing =? user) eqn:Hauthor; simpl; [|discriminate].
  apply String.eqb_eq in Hauthor.
  destruct (regenerateSlug db existing payload) as [newSlug|] eqn:Hslug;
    [|discriminate].
  destruct (checkType db (u_typeId payload)) eqn:Htype; [discriminate|].
  destruct (checkIds "Category" _ _) eqn:Hcats; [discriminate|].
  destruct (checkIds "Feature" _ _) eqn:Hfeats; [discriminate|].
  destruct (prismaSpaceUpdate db now (id existing) (buildUpdateData payload newSlug))
    as [[db1 row]|error] eqn:Hwrite; [|discriminate].
  intros H. injection H as Hdb Hstatus Hview. subst db1 view status. simpl.
  exists existing, newSlug. repeat split; try assumption; reflexivity.
Qed.

(** C2. After a successful update the category (resp. feature) set of
    the space is exactly the list of the payload when [categoryIds]
    (resp. [featureIds]) is present, the empty list included, and is
    what it was when the key is absent. *)
Theorem C2_relation_sets_replaced (db db' : Db) (now : nat) (user : Id)
        (identifier : string) (payload : UpdatePayload) (status : nat)
        (view : SpaceView) :
  wfDb db = true ->
  updateSpace db now user identifier payload = Responded db' (Ok status view) ->
  exists existing,
    findFirstByIdOrSlug db identifier = Some existing
    /\ findUniqueById db' (id existing) = Some (viewRow view)
    /\ categories (viewRow view)
       = match u_categoryIds payload with
         | Present ids => ids
         | Absent => categories existing
         end
    /\ features (viewRow view)
       = match u_featureIds payload with
         | Present ids => ids
         | Absent => features existing
         end.
Proof.
  intros Hwf Hok.
  destruct (updateSpace_Ok _ _ _ _ _ _ _ _ Hok)
    as [existing [newSlug [Hfind [_ [_ [_ [Hcats [Hfeats [Hwrite _]]]]]]]]].
  destruct (prismaSpaceUpdate_inl _ _ _ _ _ _ Hwrite)
    as [sp [descr [Hsp [_ [Hrow [_ [_ [Hstored _]]]]]]]].
  destruct (wfDb_spaces db Hwf) as [Hids _].
  destruct (wfDb_taxonomies db Hwf) as [_ [Hcat Hfeat]].
  pose proof (findFirstByIdOrSlug_Some _ _ _ Hfind) as [Hin _].
  rewrite (findUniqueById_of_In db existing Hids Hin) in Hsp.
  injection Hsp as <-.
  exists existing. repeat split; try assumption.
  - rewrite Hrow. simpl. destruct (u_categoryIds payload) as [|ids]; [reflexivity|].
    apply nodup_fixed_point. now apply (checkIds_None _ _ _ Hcat Hcats).
  - rewrite Hrow. simpl. destruct (u_featureIds payload) as [|ids]; [reflexivity|].
    apply nodup_fixed_point. now apply (checkIds_None _ _ _ Hfeat Hfeats).
Qed.

(** C4. An update or delete by a caller who is not the author of the
    space found is answered 403 and leaves the database as it was,
    whatever the payload holds; a request for a space that does not
    exist is answered 404 whoever the caller is. *)
Theorem C4_forbidden_before_validation (db : Db) (now : nat) (user : Id)
        (identifier : string) (payload : UpdatePayload) (target : Space) :
  submittedById target <> user ->
  (findFirstByIdOrSlug db identifier = Some target ->
     updateSpace db now user identifier payload = Responded db (Err forbiddenUpdate))
  /\ (findUniqueById db identifier = Some target ->
        deleteSpace db (Some user) identifier = Responded db (Err forbiddenDelete))
  /\ (findFirstByIdOrSlug db identifier = None ->
        updateSpace db now user identifier payload = Responded db (Err spaceNotFound))
  /\ (findUniqueById db identifier = None ->
        deleteSpace db (Some user) identifier = Responded db (Err spaceNotFound))
  /\ code forbiddenUpdate = 403 /\ code forbiddenDelete = 403
  /\ code spaceNotFound = 404.
Proof.
  intros Hauthor. apply String.eqb_neq in Hauthor.
  unfold updateSpace, deleteSpace.
  repeat split; intros H; rewrite H; try reflexivity; now rewrite Hauthor.
Qed.

Lemma typeNotFound_names (typeId : Id) :
  code (typeNotFound typeId) = 404
  /\ includes typeId (message (typeNotFound typeId)) = true.
Proof.
  split; [reflexivity|]. unfold typeNotFound, message.
  apply includes_infix.
Qed.

Lemma idsNotFound_names (kind : string) (table : list Taxon) (ids : list Id) :
  code (idsNotFound kind table ids) = 404
  /\ forall i, In i ids -> ~ In i (map taxonId table) ->
               includes i (message (idsNotFound kind table ids)) = true.
Proof.
  split; [reflexivity|]. intros i. apply missing_named.
Qed.

Lemma createSpace_missing_references (db : Db) (now : nat) (newId user : Id)
      (payload : CreatePayload) :
  wfDb db = true ->
  (findTaxon (spaceTypes db) (c_typeId payload) = None ->
     createSpace db now newId user payload
     = Responded db (Err (typeNotFound (c_typeId payload))))
  /\ (findTaxon (spaceTypes db) (c_typeId payload) <> None ->
      forall i, In i (orElse (c_categoryIds payload) []) ->
                ~ In i (map taxonId (spaceCategories db)) ->
        createSpace db now newId user payload
        = Responded db (Err (idsNotFound "Category" (spaceCategories db)
                                         (orElse (c_categoryIds payload) []))))
  /\ (findTaxon (spaceTypes db) (c_typeId payload) <> None ->
      checkIds "Category" (spaceCategories db) (orElse (c_categoryIds payload) [])
      = None ->
      forall i, In i (orElse (c_featureIds payload) []) ->
                ~ In i (map taxonId (spaceFeatures db)) ->
        createSpace db now newId user payload
        = Responded db (Err (idsNotFound "Feature" (spaceFeatures db)
                                         (orElse (c_featureIds payload) [])))).
Proof.
  intros Hwf. destruct (wfDb_taxonomies db Hwf) as [_ [Hcat Hfeat]].
  unfold createSpace. repeat split.
  - intros Htype. now rewrite Htype.
  - intros Htype i Hin Hmissing.
    destruct (findTaxon (spaceTypes db) (c_typeId payload)); [|contradiction].
    now rewrite (checkIds_missing "Category" _ _ i Hcat Hin Hmissing).
  - intros Htype Hcats i Hin Hmissing.
    destruct (findTaxon (spaceTypes db) (c_typeId payload)); [|contradiction].
    rewrite Hcats.
    now rewrite (checkIds_missing "Feature" _ _ i Hfeat Hin Hmissing).
Qed.

Lemma updateSpace_missing_references (db : Db) (now : nat) (user : Id)
      (identifier : string) (payload : UpdatePayload) (existing : Space) :
  wfDb db = true ->
  findFirstByIdOrSlug db identifier = Some existing ->
  submittedById existing = user ->
  (forall t, u_typeId payload = Present t -> findTaxon (spaceTypes db) t = None ->
     updateSpace db now user identifier payload = Responded db (Err (typeNotFound t)))
  /\ (checkType db (u_typeId payload) = None ->
      forall ids i, u_categoryIds payload = Present ids ->
                    In i ids -> ~ In i (map taxonId (spaceCategories db)) ->
        updateSpace db now user identifier payload
        = Responded db (Err (idsNotFound "Category" (spaceCategories db) ids)))
  /\ (checkType db (u_typeId payload) = None ->
      checkIds "Category" (spaceCategories db) (orElse (u_categoryIds payload) [])
      = None ->
      forall ids i, u_featureIds payload = Present ids ->
                    In i ids -> ~ In i (map taxonId (spaceFeatures db)) ->
        updateSpace db now user identifier payload
        = Responded db (Err (idsNotFound "Feature" (spaceFeatures db) ids))).
Proof.
  intros Hwf Hfind Hauthor. destruct (wfDb_taxonomies db Hwf) as [_ [Hcat Hfeat]].
  destruct (regenerateSlug_Some db existing payload) as [newSlug Hslug].
  apply String.eqb_eq in Hauthor.
  unfold updateSpace. rewrite Hfind, Hauthor, Hslug. simpl. repeat split.
  - intros t Ht Htype. unfold checkType. now rewrite Ht, Htype.
  - intros Htype ids i Hids Hin Hmissing. rewrite Htype, Hids. simpl.
    now rewrite (checkIds_missing "Category" _ _ i Hcat Hin Hmissing).
  - intros Htype Hcats ids i Hids Hin Hmissing. rewrite Htype, Hcats, Hids. simpl.
    now rewrite (checkIds_missing "Feature" _ _ i Hfeat Hin Hmissing).
Qed.

(** C5. A create or update whose type, category list or feature list
    names an identifier without a row is answered 404.  The kinds are
    checked in the order type, categories, features and the first that
    fails is the one reported: a missing type by its identifier, a
    category or feature list by every identifier of that list, and of
    that list only, that has no row. *)
Theorem C5_missing_references_named (db : Db) (now : nat) (newId user : Id)
        (identifier : string) (create : CreatePayload) (update : UpdatePayload)
        (existing : Space) :
  wfDb db = true ->
  ((findTaxon (spaceTypes db) (c_typeId create) = None ->
      createSpace db now newId user create
      = Responded db (Err (typeNotFound (c_typeId create))))
   /\ (findTaxon (spaceTypes db) (c_typeId create) <> None ->
       forall i, In i (orElse (c_categoryIds create) []) ->
                 ~ In i (map taxonId (spaceCategories db)) ->
         createSpace db now newId user create
         = Responded db (Err (idsNotFound "Category" (spaceCategories db)
                                          (orElse (c_categoryIds create) []))))
   /\ (findTaxon (spaceTypes db) (c_typeId create) <> None ->
       checkIds "Category" (spaceCategories db) (orElse (c_categoryIds create) [])
       = None ->
       forall i, In i (orElse (c_featureIds create) []) ->
                 ~ In i (map taxonId (spaceFeatures db)) ->
         createSpace db now newId user create
         = Responded db (Err (idsNotFound "Feature" (spaceFeatures db)
                                          (orElse (c_featureIds create) [])))))
  /\ (findFirstByIdOrSlug db identifier = Some existing ->
      submittedById existing = user ->
      (forall t, u_typeId update = Present t -> findTaxon (spaceTypes db) t = None ->
         updateSpace db now user identifier update
         = Responded db (Err (typeNotFound t)))
      /\ (checkType db (u_typeId update) = None ->
          forall ids i, u_categoryIds update = Present ids ->
                        In i ids -> ~ In i (map taxonId (spaceCategories db)) ->
            updateSpace db now user identifier update
            = Responded db (Err (idsNotFound "Category" (spaceCategories db) ids)))
      /\ (checkType db (u_typeId update) = None ->
          checkIds "Category" (spaceCategories db) (orElse (u_categoryIds update) [])
          = None ->
          forall ids i, u_featureIds update = Present ids ->
                        In i ids -> ~ In i (map taxonId (spaceFeatures db)) ->
            updateSpace db now user identifier update
            = Responded db (Err (idsNotFound "Feature" (spaceFeatures db) ids))))
  /\ (forall t, code (typeNotFound t) = 404
                /\ includes t (message (typeNotFound t)) = true)
  /\ (forall kind table ids,
        code (idsNotFound kind table ids) = 404
        /\ forall i, In i ids -> ~ In i (map taxonId table) ->
                     includes i (message (idsNotFound kind table ids)) = true).
Proof.
  intros Hwf. split; [|split; [|split]].
  - now apply createSpace_missing_references.
  - intros Hfind Hauthor. now apply updateSpace_missing_references with existing.
  - apply typeNotFound_names.
  - apply idsNotFound_names.
Qed.

Lemma findUniqueBySlug_of_In (db : Db) (sp : Space) :
  NoDup (map slug (spaces db)) -> In sp (spaces db) ->
  findUniqueBySlug db (slug sp) = Some sp.
Proof.
  intros Hnd Hin.
  destruct (findUniqueBySlug db (slug sp)) as [sp'|] eqn:Hfind.
  - apply findUniqueBySlug_Some in Hfind. destruct Hfind as [Hin' Heq].
    f_equal. now apply (NoDup_map_eq slug (spaces db)).
  - apply findUniqueBySlug_None in Hfind. exfalso. apply Hfind. now apply in_map.
Qed.

(** C6. On a successful update: a name that is present and differs from
    the stored one puts a freshly generated, unused slug in the update
    set; a name that is present and equal to the stored one, or absent,
    leaves the slug key out and the stored slug as it was.  The write is
    [prisma.space.update] at the identifier of the space found, so the
    row written keeps that identifier and no other row changes. *)
Theorem C6_slug_regenerated_on_rename (db db' : Db) (now : nat) (user : Id)
        (identifier : string) (payload : UpdatePayload) (status : nat)
        (view : SpaceView) :
  wfDb db = true ->
  updateSpace db now user identifier payload = Responded db' (Ok status view) ->
  exists existing newSlug,
    findFirstByIdOrSlug db identifier = Some existing
    /\ prismaSpaceUpdate db now (id existing) (buildUpdateData payload newSlug)
       = inl (db', viewRow view)
    /\ (forall n, u_name payload = Present n -> n <> name existing ->
          ensureUniqueSlug db n = Some (slug (viewRow view))
          /\ newSlug = Present (slug (viewRow view))
          /\ forall sp, In sp (spaces db) -> slug sp <> slug (viewRow view))
    /\ (forall n, u_name payload = Present n -> n = name existing ->
          newSlug = Absent /\ slug (viewRow view) = slug existing)
    /\ (u_name payload = Absent ->
          newSlug = Absent /\ slug (viewRow view) = slug existing)
    /\ id (viewRow view) = id existing
    /\ findUniqueById db' (id existing) = Some (viewRow view)
    /\ (forall sp, In sp (spaces db) -> id sp <> id existing -> In sp (spaces db')).
Proof.
  intros Hwf Hok.
  destruct (updateSpace_Ok _ _ _ _ _ _ _ _ Hok)
    as [existing [newSlug [Hfind [_ [Hslug [_ [_ [_ [Hwrite _]]]]]]]]].
  destruct (prismaSpaceUpdate_inl _ _ _ _ _ _ Hwrite)
    as [sp [descr [Hsp [_ [Hrow [Hid [Hspaces [Hstored _]]]]]]]].
  destruct (wfDb_spaces db Hwf) as [Hids _].
  pose proof (findFirstByIdOrSlug_Some _ _ _ Hfind) as [Hin _].
  rewrite (findUniqueById_of_In db existing Hids Hin) in Hsp.
  injection Hsp as <-.
  assert (Hslugrow : slug (viewRow view) = orElse newSlug (slug existing)).
  { rewrite Hrow. reflexivity. }
  exists existing, newSlug. unfold regenerateSlug in Hslug.
  split; [exact Hfind|]. split; [exact Hwrite|]. split.
  { intros n Hname Hdiff. rewrite Hname in Hslug.
    apply String.eqb_neq in Hdiff. rewrite Hdiff in Hslug. simpl in Hslug.
    destruct (ensureUniqueSlug db n) as [s|] eqn:Hgen; [|discriminate].
    injection Hslug as <-. simpl in Hslugrow. rewrite Hslugrow.
    split; [reflexivity|]. split; [reflexivity|].
    intros sp Hsp Heq.
    apply ensureUniqueSlug_unused in Hgen. apply findUniqueBySlug_None in Hgen.
    apply Hgen. apply in_map_iff. now exists sp. }
  split.
  { intros n Hname Hsame. rewrite Hname in Hslug.
    apply String.eqb_eq in Hsame. rewrite Hsame in Hslug. simpl in Hslug.
    injection Hslug as <-. now split. }
  split.
  { intros Hname. rewrite Hname in Hslug. injection Hslug as <-. now split. }
  split; [exact Hid|]. split; [exact Hstored|].
  intros sp Hsp Hne. rewrite Hspaces. now apply replaceRow_other.
Qed.

(** C9. The uniqueness check does not set the updated space aside: when
    a successful update renames a space to a name whose strict
    slugification is the slug the space already has, the first candidate
    collides with the space itself and the space receives a slug made of
    the default slugification of the new name, a hyphen and a counter;
    it does not keep its slug. *)
Theorem C9_rename_collides_with_itself (db db' : Db) (now : nat) (user : Id)
        (identifier : string) (payload : UpdatePayload) (status : nat)
        (view : SpaceView) (existing : Space) (newName : string) :
  wfDb db = true ->
  updateSpace db now user identifier payload = Responded db' (Ok status view) ->
  findFirstByIdOrSlug db identifier = Some existing ->
  u_name payload = Present newName ->
  newName <> name existing ->
  slugify newName strictLower = slug existing ->
  findUniqueBySlug db (slugify newName strictLower) = Some existing
  /\ findUniqueById db' (id existing) = Some (viewRow view)
  /\ slug (viewRow view) <> slug existing
  /\ exists k, 1 <= k
       /\ slug (viewRow view)
          = slugify newName defaultOptions ++ "-" ++ numToString k.
Proof.
  intros Hwf Hok Hfind Hname Hdiff Hstrict.
  destruct (updateSpace_Ok _ _ _ _ _ _ _ _ Hok)
    as [existing' [newSlug [Hfind' [_ [Hslug [_ [_ [_ [Hwrite _]]]]]]]]].
  rewrite Hfind in Hfind'. injection Hfind' as <-.
  destruct (prismaSpaceUpdate_inl _ _ _ _ _ _ Hwrite)
    as [sp [descr [Hsp [_ [Hrow [_ [_ [Hstored _]]]]]]]].
  destruct (wfDb_spaces db Hwf) as [_ Hslugs].
  pose proof (findFirstByIdOrSlug_Some _ _ _ Hfind) as [Hin _].
  assert (Hself : findUniqueBySlug db (slugify newName strictLower) = Some existing).
  { rewrite Hstrict. now apply findUniqueBySlug_of_In. }
  unfold regenerateSlug in Hslug. rewrite Hname in Hslug.
  apply String.eqb_neq in Hdiff. rewrite Hdiff in Hslug. simpl in Hslug.
  unfold ensureUniqueSlug in Hslug.
  destruct (ensureUniqueSlugFuel_enough db newName 0)
    as [s [it [Hrun [_ [Hfree Hshape]]]]].
  rewrite Nat.add_0_r in Hrun. rewrite Hrun in Hslug. simpl in Hslug.
  injection Hslug as <-.
  assert (Hslugrow : slug (viewRow view) = s) by (rewrite Hrow; reflexivity).
  rewrite Hslugrow. repeat split; try assumption.
  - intros Heq. rewrite Heq, <- Hstrict, Hself in Hfree. discriminate.
  - destruct Hshape as [[Hs _] | [_ [k [Hk [Hs _]]]]].
    + rewrite Hs, Hself in Hfree. discriminate.
    + now exists k.
Qed.

(** C10 (as amended). [deleteSpace] looks its target up by identifier
    only: for an existing space whose slug is not the identifier of any
    space, a delete at that slug is answered 404 and deletes nothing,
    although the lookup of read and update finds a space at that slug. *)
Theorem C10_delete_ignores_slug (db : Db) (user : Id) (target : Space) :
  In target (spaces db) ->
  (forall sp, In sp (spaces db) -> id sp <> slug target) ->
  deleteSpace db (Some user) (slug target) = Responded db (Err spaceNotFound)
  /\ code spaceNotFound = 404
  /\ exists found, findFirstByIdOrSlug db (slug target) = Some found
                   /\ slug found = slug target.
Proof.
  intros Hin Hnoid. unfold deleteSpace.
  assert (Hnone : findUniqueById db (slug target) = None).
  { destruct (findUniqueById db (slug target)) as [sp|] eqn:Hfind; [|reflexivity].
    apply findUniqueById_Some in Hfind. destruct Hfind as [Hsp Hid].
    exfalso. now apply (Hnoid sp). }
  rewrite Hnone. repeat split.
  destruct (findFirstByIdOrSlug db (slug target)) as [found|] eqn:Hfirst.
  - exists found. split; [reflexivity|].
    apply findFirstByIdOrSlug_Some in Hfirst. destruct Hfirst as [Hfound [Hid|Hs]].
    + exfalso. now apply (Hnoid found).
    + exact Hs.
  - unfold findFirstByIdOrSlug in Hfirst.
    apply (find_none _ _ Hfirst) in Hin. simpl in Hin.
    rewrite String.eqb_refl, orb_true_r in Hin. discriminate.
Qed.

(** A successful [prisma.space.create], read backwards. *)
Lemma prismaSpaceCreate_inl (db db' : Db) (now : nat) (newId : Id)
      (data : CreateData) (row : Space) :
  prismaSpaceCreate db now newId data = inl (db', row) ->
  cd_description data = NotNull (description row)
  /\ id row = newId
  /\ slug row = cd_slug data
  /\ spaces db' = (spaces db ++ [row])%list.
Proof.
  unfold prismaSpaceCreate.
  destruct (cd_description data) as [|descr]; [discriminate|].
  destruct (negb (mem (cd_submittedBy data) (users db))); [discriminate|].
  destruct (negb (mem (cd_type data) (map taxonId (spaceTypes db)))); [discriminate|].
  destruct (negb (allExist (spaceCategories db) (cd_categories data)));
    [discriminate|].
  destruct (negb (allExist (spaceFeatures db) (cd_features data))); [discriminate|].
  destruct (tooLong (cd_architecturalStyle data)); [discriminate|].
  destruct (mem newId (map id (spaces db))); [discriminate|].
  destruct (mem (cd_slug data) (map slug (spaces db))); [discriminate|].
  intros H. injection H as Hdb Hrow. subst row db'. simpl. now repeat split.
Qed.

(** A successful POST, read backwards. *)
Lemma createSpace_Ok (db db' : Db) (now : nat) (newId user : Id)
      (payload : CreatePayload) (status : nat) (view : SpaceView) :
  createSpace db now newId user payload = Responded db' (Ok status view) ->
  exists slug,
    ensureUniqueSlug db (c_name payload) = Some slug
    /\ prismaSpaceCreate db now newId (createData user slug payload)
       = inl (db', viewRow view)
    /\ status = 201.
Proof.
  unfold createSpace.
  destruct (findTaxon (spaceTypes db) (c_typeId payload)); [|discriminate].
  destruct (checkIds "Category" _ _); [discriminate|].
  destruct (checkIds "Feature" _ _); [discriminate|].
  destruct (ensureUniqueSlug db (c_name payload)) as [slug|]; [|discriminate].
  destruct (prismaSpaceCreate db now newId (createData user slug payload))
    as [[db1 row]|error] eqn:Hwrite; [|discriminate].
  intros H. injection H as Hdb Hstatus Hview. subst db1 view status. simpl.
  exists slug. now repeat split.
Qed.

(** C7. The description handed to the store is never null.  On create an
    absent or null description becomes the empty string and a string
    passes through as it is; on update a description that is present and
    null becomes the empty string in the update set.  The row stored by
    a successful create or update carries that description. *)
Theorem C7_description_never_null (db db' : Db) (now : nat) (newId user : Id)
        (identifier : string) (create : CreatePayload) (update : UpdatePayload)
        (status : nat) (view : SpaceView) :
  (forall slug, cd_description (createData user slug create)
                = NotNull (descriptionOrEmpty (c_description create)))
  /\ descriptionOrEmpty Absent = ""
  /\ descriptionOrEmpty (Present JsNull) = ""
  /\ (forall s, descriptionOrEmpty (Present (NotNull s)) = s)
  /\ (createSpace db now newId user create = Responded db' (Ok status view) ->
        In (viewRow view) (spaces db')
        /\ description (viewRow view) = descriptionOrEmpty (c_description create))
  /\ (forall newSlug,
        ud_description (buildUpdateData update newSlug) <> Present JsNull)
  /\ (forall newSlug, u_description update = Present JsNull ->
        ud_description (buildUpdateData update newSlug) = Present (NotNull ""))
  /\ (wfDb db = true ->
      updateSpace db now user identifier update = Responded db' (Ok status view) ->
      exists existing,
        findFirstByIdOrSlug db identifier = Some existing
        /\ findUniqueById db' (id existing) = Some (viewRow view)
        /\ description (viewRow view)
           = match u_description update with
             | Present JsNull => ""
             | Present (NotNull s) => s
             | Absent => description existing
             end).
Proof.
  split; [reflexivity|]. split; [reflexivity|]. split; [reflexivity|].
  split; [reflexivity|]. split; [|split; [|split]].
  - intros Hok.
    destruct (createSpace_Ok _ _ _ _ _ _ _ _ Hok) as [slug [_ [Hwrite _]]].
    apply prismaSpaceCreate_inl in Hwrite.
    destruct Hwrite as [Hdescr [_ [_ Hspaces]]]. split.
    + rewrite Hspaces. apply in_or_app. right. now left.
    + simpl in Hdescr. now injection Hdescr.
  - intros newSlug. simpl. destruct (u_description update) as [|[|s]]; discriminate.
  - intros newSlug Hnull. simpl. now rewrite Hnull.
  - intros Hwf Hok.
    destruct (updateSpace_Ok _ _ _ _ _ _ _ _ Hok)
      as [existing [newSlug [Hfind [_ [_ [_ [_ [_ [Hwrite _]]]]]]]]].
    pose proof Hwrite as Hwrite'.
    destruct (prismaSpaceUpdate_inl _ _ _ _ _ _ Hwrite)
      as [sp [descr [Hsp [_ [_ [_ [_ [Hstored _]]]]]]]].
    destruct (wfDb_spaces db Hwf) as [Hids _].
    pose proof (findFirstByIdOrSlug_Some _ _ _ Hfind) as [Hin _].
    rewrite (findUniqueById_of_In db existing Hids Hin) in Hsp.
    injection Hsp as <-.
    exists existing. repeat split; try assumption.
    unfold prismaSpaceUpdate in Hwrite'.
    rewrite (findUniqueById_of_In db existing Hids Hin) in Hwrite'.
    simpl in Hwrite'.
    destruct (u_description update) as [|[|s]]; simpl in Hwrite';
      repeat match type of Hwrite' with
             | (if ?c then _ else _) = _ => destruct c; [discriminate|]
             end;
      injection Hwrite' as _ Hrow; rewrite <- Hrow; reflexivity.
Qed.

(** * Further properties of the handlers *)

(** ** The key constraints are kept *)

Lemma replaceRow_ids (i : Id) (row : Space) (rows : list Space) :
  id row = i -> map id (replaceRow i row rows) = map id rows.
Proof.
  intros Hrow. induction rows as [|x rows IH]; simpl; [reflexivity|].
  rewrite IH. destruct (id x =? i) eqn:Hx; [|reflexivity].
  apply String.eqb_eq in Hx. now rewrite Hrow, Hx.
Qed.

Lemma replaceRow_In (i : Id) (row : Space) (rows : list Space) (y : Space) :
  In y (replaceRow i row rows) -> y = row \/ (In y rows /\ id y <> i).
Proof.
  unfold replaceRow. intros Hin. apply in_map_iff in Hin.
  destruct Hin as [x [Hy Hx]]. destruct (id x =? i) eqn:Hid.
  - left. now symmetry.
  - right. subst y. apply String.eqb_neq in Hid. now split.
Qed.

Lemma replaceRow_absent (i : Id) (row : Space) (rows : list Space) :
  ~ In i (map id rows) -> replaceRow i row rows = rows.
Proof.
  induction rows as [|x rows IH]; simpl; intros Hnot; [reflexivity|].
  destruct (id x =? i) eqn:Hx.
  - apply String.eqb_eq in Hx. exfalso. apply Hnot. now left.
  - rewrite IH; [reflexivity|]. intros Hin. apply Hnot. now right.
Qed.

Lemma slugTakenByOther_false (db : Db) (i : Id) (s : string) :
  slugTakenByOther db i s = false <->
  forall sp, In sp (spaces db) -> id sp <> i -> slug sp <> s.
Proof.
  unfold slugTakenByOther. split.
  - intros Hfalse sp Hin Hid Hslug.
    assert (Htrue : existsb (fun sp0 => negb (id sp0 =? i) && (slug sp0 =? s))
                            (spaces db) = true).
    { apply existsb_exists. exists sp. split; [exact Hin|].
      apply String.eqb_neq in Hid. rewrite Hid. simpl. now apply String.eqb_eq. }
    congruence.
  - intros Hall.
    destruct (existsb _ (spaces db)) eqn:Hex; [|reflexivity].
    apply existsb_exists in Hex. destruct Hex as [sp [Hin Hcond]].
    apply andb_true_iff in Hcond. destruct Hcond as [Hid Hslug].
    apply negb_true_iff, String.eqb_neq in Hid. apply String.eqb_eq in Hslug.
    exfalso. now apply (Hall sp).
Qed.

Lemma replaceRow_slugs_NoDup (i : Id) (row : Space) (rows : list Space) :
  NoDup (map id rows) -> NoDup (map slug rows) ->
  (forall sp, In sp rows -> id sp <> i -> slug sp <> slug row) ->
  NoDup (map slug (replaceRow i row rows)).
Proof.
  induction rows as [|x rows IH]; simpl; intros Hids Hslugs Hother; [constructor|].
  inversion Hids as [|? ? Hxid Hids']; subst.
  inversion Hslugs as [|? ? Hxslug Hslugs']; subst.
  destruct (id x =? i) eqn:Hx.
  - apply String.eqb_eq in Hx. subst i.
    rewrite (replaceRow_absent (id x) row rows Hxid).
    constructor; [|exact Hslugs'].
    intros Hin. apply in_map_iff in Hin. destruct Hin as [sp [Hs Hsp]].
    apply (Hother sp); [now right | | exact Hs].
    intros Heq. apply Hxid. rewrite <- Heq. now apply in_map.
  - apply String.eqb_neq in Hx. constructor.
    + intros Hin. apply in_map_iff in Hin. destruct Hin as [y [Hs Hy]].
      apply replaceRow_In in Hy. destruct Hy as [-> | [Hy _]].
      * apply (Hother x); [now left | exact Hx | now symmetry].
      * apply Hxslug. rewrite <- Hs. now apply in_map.
    + apply IH; try assumption.
      intros sp Hsp. apply Hother. now right.
Qed.

Lemma NoDup_map_filter {A : Type} (f : A -> string) (p : A -> bool) (l : list A) :
  NoDup (map f l) -> NoDup (map f (filter p l)).
Proof.
  induction l as [|x l IH]; simpl; intros Hnd; [constructor|].
  inversion Hnd as [|? ? Hx Hl]; subst.
  destruct (p x); [|now apply IH].
  simpl. constructor; [|now apply IH].
  intros Hin. apply Hx. apply in_map_iff in Hin. destruct Hin as [y [Hy Hin]].
  apply filter_In in Hin. apply in_map_iff. exists y. tauto.
Qed.

Lemma NoDup_map_snoc {A : Type} (f : A -> string) (l : list A) (x : A) :
  NoDup (map f l) -> ~ In (f x) (map f l) -> NoDup (map f (l ++ [x])%list).
Proof.
  intros Hnd Hx. rewrite map_app. simpl.
  apply NoDup_app; [exact Hnd | repeat constructor; intros [] |].
  intros y Hy [<-|[]]. contradiction.
Qed.

Lemma prismaSpaceCreate_wf (db db' : Db) (now : nat) (newId : Id)
      (data : CreateData) (row : Space) :
  wfDb db = true ->
  prismaSpaceCreate db now newId data = inl (db', row) ->
  wfDb db' = true.
Proof.
  intros Hwf. unfold prismaSpaceCreate.
  destruct (cd_description data) as [|descr]; [discriminate|].
  destruct (negb (mem (cd_submittedBy data) (users db))); [discriminate|].
  destruct (negb (mem (cd_type data) (map taxonId (spaceTypes db)))); [discriminate|].
  destruct (negb (allExist (spaceCategories db) (cd_categories data)));
    [discriminate|].
  destruct (negb (allExist (spaceFeatures db) (cd_features data))); [discriminate|].
  destruct (tooLong (cd_architecturalStyle data)); [discriminate|].
  destruct (mem newId (map id (spaces db))) eqn:Hid; [discriminate|].
  destruct (mem (cd_slug data) (map slug (spaces db))) eqn:Hslug; [discriminate|].
  intros H. injection H as Hdb Hrow. subst db'.
  apply mem_false in Hid. apply mem_false in Hslug.
  destruct (wfDb_spaces db Hwf) as [Hids Hslugs].
  destruct (wfDb_taxonomies db Hwf) as [Htypes [Hcats Hfeats]].
  unfold wfDb. simpl. rewrite !andb_true_iff, !nodupb_NoDup.
  repeat split; try assumption.
  - now apply NoDup_map_snoc.
  - now apply NoDup_map_snoc.
Qed.

Lemma prismaSpaceUpdate_tables (db db' : Db) (now : nat) (i : Id)
      (data : UpdateData) (row : Space) :
  prismaSpaceUpdate db now i data = inl (db', row) ->
  users db' = users db
  /\ spaceTypes db' = spaceTypes db
  /\ spaceCategories db' = spaceCategories db
  /\ spaceFeatures db' = spaceFeatures db.
Proof.
  unfold prismaSpaceUpdate.
  destruct (findUniqueById db i) as [sp|]; [|discriminate].
  destruct (ud_description data) as [|[|d]]; try discriminate;
    repeat match goal with
           | |- (if ?c then _ else _) = _ -> _ => destruct c; [discriminate|]
           end;
    intros H; injection H as Hdb _; subst db'; now repeat split.
Qed.

Lemma prismaSpaceUpdate_wf (db db' : Db) (now : nat) (i : Id)
      (data : UpdateData) (row : Space) :
  wfDb db = true ->
  prismaSpaceUpdate db now i data = inl (db', row) ->
  wfDb db' = true.
Proof.
  intros Hwf Hwrite.
  destruct (prismaSpaceUpdate_tables _ _ _ _ _ _ Hwrite) as [_ [Ht [Hc Hf]]].
  destruct (prismaSpaceUpdate_inl _ _ _ _ _ _ Hwrite)
    as [sp [descr [_ [_ [_ [Hid [Hspaces [_ Htaken]]]]]]]].
  destruct (wfDb_spaces db Hwf) as [Hids Hslugs].
  destruct (wfDb_taxonomies db Hwf) as [Htypes [Hcats Hfeats]].
  unfold wfDb. rewrite Ht, Hc, Hf, Hspaces.
  rewrite !andb_true_iff, !nodupb_NoDup. repeat split; try assumption.
  - now rewrite replaceRow_ids.
  - apply replaceRow_slugs_NoDup; try assumption.
    now apply slugTakenByOther_false.
Qed.

Lemma prismaSpaceDelete_wf (db db' : Db) (i : Id) :
  wfDb db = true -> prismaSpaceDelete db i = inl db' -> wfDb db' = true.
Proof.
  intros Hwf. unfold prismaSpaceDelete.
  destruct (findUniqueById db i); [|discriminate].
  intros H. injection H as <-.
  destruct (wfDb_spaces db Hwf) as [Hids Hslugs].
  destruct (wfDb_taxonomies db Hwf) as [Htypes [Hcats Hfeats]].
  unfold wfDb. simpl. rewrite !andb_true_iff, !nodupb_NoDup.
  repeat split; try assumption; now apply NoDup_map_filter.
Qed.

(** A handler answers an error only with the database it was given. *)
Lemma createSpace_cases (db db' : Db) (now : nat) (newId user : Id)
      (payload : CreatePayload) (r : Response) :
  createSpace db now newId user payload = Responded db' r ->
  db' = db
  \/ exists slug row,
       prismaSpaceCreate db now newId (createData user slug payload) = inl (db', row)
       /\ ensureUniqueSlug db (c_name payload) = Some slug
       /\ r = Ok 201 (formatSpace db' row).
Proof.
  unfold createSpace.
  destruct (findTaxon (spaceTypes db) (c_typeId payload));
    [|intros H; injection H as <- _; now left].
  destruct (checkIds "Category" _ _); [intros H; injection H as <- _; now left|].
  destruct (checkIds "Feature" _ _); [intros H; injection H as <- _; now left|].
  destruct (ensureUniqueSlug db (c_name payload)) as [slug|]; [|discriminate].
  destruct (prismaSpaceCreate db now newId (createData user slug payload))
    as [[db1 row]|error] eqn:Hwrite; intros H; injection H as <- <-.
  - right. now exists slug, row.
  - now left.
Qed.

Lemma updateSpace_cases (db db' : Db) (now : nat) (user : Id) (identifier : string)
      (payload : UpdatePayload) (r : Response) :
  updateSpace db now user identifier payload = Responded db' r ->
  db' = db
  \/ exists existing newSlug row,
       findFirstByIdOrSlug db identifier = Some existing
       /\ prismaSpaceUpdate db now (id existing) (buildUpdateData payload newSlug)
          = inl (db', row)
       /\ r = Ok 200 (formatSpace db' row).
Proof.
  unfold updateSpace.
  destruct (findFirstByIdOrSlug db identifier) as [existing|];
    [|intros H; injection H as <- _; now left].
  destruct (negb (submittedById existing =? user));
    [intros H; injection H as <- _; now left|].
  destruct (regenerateSlug db existing payload) as [newSlug|]; [|discriminate].
  destruct (checkType db (u_typeId payload));
    [intros H; injection H as <- _; now left|].
  destruct (checkIds "Category" _ _); [intros H; injection H as <- _; now left|].
  destruct (checkIds "Feature" _ _); [intros H; injection H as <- _; now left|].
  destruct (prismaSpaceUpdate db now (id existing) (buildUpdateData payload newSlug))
    as [[db1 row]|error] eqn:Hwrite; intros H; injection H as <- <-.
  - right. now exists existing, newSlug, row.
  - now left.
Qed.

Lemma deleteSpace_cases (db db' : Db) (authenticatedUser : option Id) (i : Id)
      (r : Response) :
  deleteSpace db authenticatedUser i = Responded db' r ->
  db' = db \/ (prismaSpaceDelete db i = inl db' /\ r = NoContent).
Proof.
  unfold deleteSpace.
  destruct authenticatedUser as [user|]; [|intros H; injection H as <- _; now left].
  destruct (findUniqueById db i) as [sp|];
    [|intros H; injection H as <- _; now left].
  destruct (negb (submittedById sp =? user));
    [intros H; injection H as <- _; now left|].
  destruct (prismaSpaceDelete db i) as [db1|error] eqn:Hwrite;
    intros H; injection H as <- <-.
  - right. now split.
  - now left.
Qed.

(** X1. Whatever the request and whatever the answer, the three mutation
    handlers leave the primary keys and the slugs of the database
    pairwise distinct. *)
Theorem handlers_keep_keys_unique (db db' : Db) (now : nat) (newId user : Id)
        (authenticatedUser : option Id) (identifier : string)
        (create : CreatePayload) (update : UpdatePayload) (r : Response) :
  wfDb db = true ->
  (createSpace db now newId user create = Responded db' r -> wfDb db' = true)
  /\ (updateSpace db now user identifier update = Responded db' r ->
      wfDb db' = true)
  /\ (deleteSpace db authenticatedUser identifier = Responded db' r ->
      wfDb db' = true).
Proof.
  intros Hwf. repeat split; intros H.
  - destruct (createSpace_cases _ _ _ _ _ _ _ H) as [-> | [slug [row [Hwrite _]]]];
      [exact Hwf|]. now apply (prismaSpaceCreate_wf _ _ _ _ _ _ Hwf Hwrite).
  - destruct (updateSpace_cases _ _ _ _ _ _ _ H)
      as [-> | [existing [newSlug [row [_ [Hwrite _]]]]]]; [exact Hwf|].
    now apply (prismaSpaceUpdate_wf _ _ _ _ _ _ Hwf Hwrite).
  - destruct (deleteSpace_cases _ _ _ _ _ H) as [-> | [Hwrite _]]; [exact Hwf|].
    now apply (prismaSpaceDelete_wf _ _ _ Hwf Hwrite).
Qed.

(** ** Validation of reference lists, both ways *)

Lemma checkIds_pass (kind : string) (table : list Taxon) (ids : list Id) :
  NoDup (map taxonId table) ->
  NoDup ids -> allExist table ids = true ->
  checkIds kind table ids = None.
Proof.
  intros Htable Hids Hall. unfold checkIds.
  destruct (0 <? length ids)%nat; [|reflexivity].
  assert (Hsame : length (findManyIn table ids) = length ids).
  { rewrite <- (length_map taxonId). apply Nat.le_antisymm.
    - apply NoDup_incl_length; [now apply findManyIn_ids_NoDup|].
      intros i Hi. now apply findManyIn_ids in Hi.
    - apply NoDup_incl_length; [exact Hids|].
      intros i Hi. apply findManyIn_ids. split; [exact Hi|].
      now apply (proj1 (allExist_In table ids) Hall). }
  apply Nat.eqb_eq in Hsame. now rewrite Hsame.
Qed.

Lemma missingIds_nil (table : list Taxon) (ids : list Id) :
  allExist table ids = true -> missingIds table ids = [].
Proof.
  intros Hall. destruct (missingIds table ids) as [|i rest] eqn:Hm; [reflexivity|].
  assert (Hin : In i (missingIds table ids)) by (rewrite Hm; now left).
  unfold missingIds in Hin. apply filter_In in Hin. destruct Hin as [Hi Hnot].
  apply negb_true_iff, mem_false in Hnot.
  exfalso. apply Hnot. apply findManyIn_ids. split; [exact Hi|].
  now apply (proj1 (allExist_In table ids) Hall).
Qed.

(** X3. The check the handlers run on a category or feature list passes
    exactly on the lists of pairwise distinct identifiers that all have
    a row.  A list whose identifiers all have a row but which repeats
    one is refused with a 404 whose message names no identifier. *)
Theorem checkIds_passes_iff (kind : string) (table : list Taxon) (ids : list Id) :
  NoDup (map taxonId table) ->
  (checkIds kind table ids = None <-> NoDup ids /\ allExist table ids = true)
  /\ (allExist table ids = true -> ~ NoDup ids ->
      checkIds kind table ids
      = Some (mkError ("One or more " ++ kind ++ " IDs not found: .") 404)).
Proof.
  intros Htable. split.
  - split.
    + now apply checkIds_None.
    + intros [Hids Hall]. now apply checkIds_pass.
  - intros Hall Hdup.
    destruct (checkIds kind table ids) as [e|] eqn:Hcheck.
    + unfold checkIds in Hcheck.
      destruct (0 <? length ids)%nat; [|discriminate].
      destruct (negb (length (findManyIn table ids) =? length ids)%nat);
        [|discriminate].
      injection Hcheck as <-. unfold idsNotFound.
      now rewrite (missingIds_nil table ids Hall).
    + exfalso. apply Hdup. now apply (checkIds_None kind table ids Htable Hcheck).
Qed.

(** ** When a create succeeds *)



(** ** What a successful update writes *)

(** The checks of a successful [prisma.space.update]. *)
Lemma prismaSpaceUpdate_checks (db db' : Db) (now : nat) (i : Id)
      (data : UpdateData) (row : Space) :
  prismaSpaceUpdate db now i data = inl (db', row) ->
  exists sp,
    findUniqueById db i = Some sp
    /\ allExist (spaceTypes db)
                (match ud_type data with Absent => [] | Present t => [t] end) = true
    /\ allExist (spaceCategories db) (orElse (ud_categories data) []) = true
    /\ allExist (spaceFeatures db) (orElse (ud_features data) []) = true
    /\ tooLong (ud_architecturalStyle data) = false
    /\ row = applyUpdate now data
               (match ud_description data with
                | Present (NotNull d) => d
                | _ => description sp
                end) sp.
Proof.
  unfold prismaSpaceUpdate.
  destruct (findUniqueById db i) as [sp|]; [|discriminate].
  intros H. exists sp. split; [reflexivity|].
  destruct (allExist (spaceTypes db) _) eqn:Ht;
    [|destruct (ud_description data) as [|[|d]]; discriminate].
  destruct (allExist (spaceCategories db) _) eqn:Hc;
    [|destruct (ud_description data) as [|[|d]]; discriminate].
  destruct (allExist (spaceFeatures db) _) eqn:Hf;
    [|destruct (ud_description data) as [|[|d]]; discriminate].
  destruct (tooLong _) eqn:Hl;
    [destruct (ud_description data) as [|[|d]]; discriminate|].
  simpl in H.
  destruct (slugTakenByOther db i _);
    [destruct (ud_description data) as [|[|d]]; discriminate|].
  repeat split.
  destruct (ud_description data) as [|[|d]]; try discriminate;
    now injection H as _ <-.
Qed.



(** ** Delete *)

Lemma length_filter_one {A : Type} (f : A -> string) (i : string) (l : list A) :
  NoDup (map f l) -> In i (map f l) ->
  length (filter (fun x => negb (f x =? i)) l) + 1 = length l.
Proof.
  induction l as [|x l IH]; simpl; intros Hnd Hin; [contradiction|].
  inversion Hnd as [|? ? Hx Hl]; subst.
  destruct (f x =? i) eqn:Heq; simpl.
  - apply String.eqb_eq in Heq. subst i.
    assert (Hsame : filter (fun y => negb (f y =? f x)) l = l).
    { clear IH Hin Hnd Hl. induction l as [|y l IHl]; simpl; [reflexivity|].
      destruct (f y =? f x) eqn:Hy.
      - apply String.eqb_eq in Hy. exfalso. apply Hx. left. exact Hy.
      - simpl. f_equal. apply IHl. intros Hin. apply Hx. now right. }
    rewrite Hsame. lia.
  - apply String.eqb_neq in Heq. destruct Hin as [Hin|Hin]; [contradiction|].
    rewrite <- (IH Hl Hin). lia.
Qed.

(** X7. A delete by the author of an existing space is answered 204; the
    space is gone, every other space is still there unchanged, the table
    has one row less, and a second delete at the same identifier is
    answered 404. *)
Theorem deleteSpace_removes_exactly_one (db : Db) (user : Id) (i : Id)
        (target : Space) :
  wfDb db = true ->
  findUniqueById db i = Some target ->
  submittedById target = user ->
  let db' := withSpaces db (filter (fun sp => negb (id sp =? i)) (spaces db)) in
  deleteSpace db (Some user) i = Responded db' NoContent
  /\ findUniqueById db' i = None
  /\ (forall sp, In sp (spaces db') <-> In sp (spaces db) /\ sp <> target)
  /\ length (spaces db') + 1 = length (spaces db)
  /\ deleteSpace db' (Some user) i = Responded db' (Err spaceNotFound).
Proof.
  intros Hwf Hfind Hauthor db'.
  destruct (wfDb_spaces db Hwf) as [Hids _].
  pose proof (findUniqueById_Some _ _ _ Hfind) as [Hin Hid].
  assert (Hgone : findUniqueById db' i = None).
  { unfold findUniqueById, db'. simpl.
    destruct (find _ (filter _ (spaces db))) as [sp|] eqn:Hf; [|reflexivity].
    apply find_some in Hf. destruct Hf as [Hsp Heq].
    apply filter_In in Hsp. destruct Hsp as [_ Hne].
    rewrite Heq in Hne. discriminate. }
  split; [|split; [|split; [|split]]].
  - unfold deleteSpace, prismaSpaceDelete. rewrite Hfind.
    apply String.eqb_eq in Hauthor. now rewrite Hauthor.
  - exact Hgone.
  - intros sp. unfold db'. simpl. rewrite filter_In, negb_true_iff, String.eqb_neq.
    split; intros [Hsp Hne]; (split; [exact Hsp|]).
    + intros ->. contradiction.
    + intros Heq. apply Hne. apply (NoDup_map_eq id (spaces db)); try assumption.
      now rewrite Heq.
  - unfold db'. simpl. apply (length_filter_one id); [exact Hids|].
    rewrite <- Hid. now apply in_map.
  - unfold deleteSpace. now rewrite Hgone.
Qed.

(** ** Two creates never share a slug *)

(** X8. Two creates answered 201 one after the other store two rows with
    different identifiers and different slugs, whatever the two names
    are; when the names are the same the second slug is the default
    slugification of the name, a hyphen and a counter. *)
Theorem createSpace_twice_distinct_slugs (db db1 db2 : Db) (now1 now2 : nat)
        (id1 id2 user1 user2 : Id) (first second : CreatePayload)
        (status1 status2 : nat) (view1 view2 : SpaceView) :
  createSpace db now1 id1 user1 first = Responded db1 (Ok status1 view1) ->
  createSpace db1 now2 id2 user2 second = Responded db2 (Ok status2 view2) ->
  In (viewRow view1) (spaces db2)
  /\ In (viewRow view2) (spaces db2)
  /\ id (viewRow view1) <> id (viewRow view2)
  /\ slug (viewRow view1) <> slug (viewRow view2)
  /\ (c_name first = c_name second ->
      exists k, 1 <= k
        /\ slug (viewRow view2)
           = slugify (c_name second) defaultOptions ++ "-" ++ numToString k).
Proof.
  intros Hfirst Hsecond.
  destruct (createSpace_Ok _ _ _ _ _ _ _ _ Hfirst) as [s1 [Hgen1 [Hw1 _]]].
  destruct (createSpace_Ok _ _ _ _ _ _ _ _ Hsecond) as [s2 [Hgen2 [Hw2 _]]].
  destruct (prismaSpaceCreate_inl _ _ _ _ _ _ Hw1) as [_ [Hid1 [Hslug1 Hspaces1]]].
  destruct (prismaSpaceCreate_inl _ _ _ _ _ _ Hw2) as [_ [Hid2 [Hslug2 Hspaces2]]].
  simpl in Hslug1, Hslug2.
  assert (Hin1 : In (viewRow view1) (spaces db1)).
  { rewrite Hspaces1. apply in_or_app. right. now left. }
  split; [|split; [|split; [|split]]].
  - rewrite Hspaces2. apply in_or_app. now left.
  - rewrite Hspaces2. apply in_or_app. right. now left.
  - intros Heq. unfold prismaSpaceCreate in Hw2.
    destruct (cd_description _); [discriminate|].
    repeat match type of Hw2 with
           | (if mem id2 ?l then _ else _) = _ =>
               destruct (mem id2 l) eqn:Hmem; [discriminate|]
           | (if ?c then _ else _) = _ => destruct c; [discriminate|]
           end.
    apply mem_false in Hmem. apply Hmem. rewrite <- Hid2, <- Heq.
    now apply in_map.
  - intros Heq. pose proof (ensureUniqueSlug_unused _ _ _ Hgen2) as Hfree.
    apply findUniqueBySlug_None in Hfree. apply Hfree.
    rewrite <- Hslug2, <- Heq. now apply in_map.
  - intros Hname. rewrite Hslug2.
    unfold ensureUniqueSlug in Hgen2.
    destruct (ensureUniqueSlugFuel_enough db1 (c_name second) 0)
      as [s [it [Hrun [_ [Hfree Hshape]]]]].
    rewrite Nat.add_0_r in Hrun. rewrite Hrun in Hgen2. simpl in Hgen2.
    injection Hgen2 as <-.
    destruct Hshape as [[Hs _] | [_ [k [Hk [Hs _]]]]]; [|now exists k].
    exfalso.
    unfold ensureUniqueSlug in Hgen1.
    destruct (ensureUniqueSlugFuel_enough db (c_name first) 0)
      as [s' [it' [Hrun' [_ [_ Hshape']]]]].
    rewrite Nat.add_0_r in Hrun'. rewrite Hrun' in Hgen1. simpl in Hgen1.
    injection Hgen1 as <-.
    apply findUniqueBySlug_None in Hfree. apply Hfree. rewrite Hs, <- Hname.
    destruct Hshape' as [[Hs' _] | [Hused _]].
    + rewrite <- Hs', <- Hslug1. now apply in_map.
    + rewrite Hspaces1, map_app. apply in_or_app. left.
      destruct (in_dec string_dec (slugify (c_name first) strictLower)
                       (map slug (spaces db))) as [Hyes|Hno]; [exact Hyes|].
      apply findUniqueBySlug_None in Hno. contradiction.
Qed.

(** ** The taxonomy routes *)

Lemma tableOf_withTable (kind : TaxonKind) (db : Db) (rows : list Taxon) :
  tableOf kind (withTable kind db rows) = rows.
Proof. now destruct kind. Qed.

Lemma spaces_withTable (kind : TaxonKind) (db : Db) (rows : list Taxon) :
  spaces (withTable kind db rows) = spaces db
  /\ users (withTable kind db rows) = users db.
Proof. now destruct kind. Qed.

Lemma tableOf_other (kind kind' : TaxonKind) (db : Db) (rows : list Taxon) :
  kind' <> kind -> tableOf kind' (withTable kind db rows) = tableOf kind' db.
Proof. destruct kind, kind'; intros H; try reflexivity; now elim H. Qed.

Lemma findTaxon_Some (table : list Taxon) (i : Id) (t : Taxon) :
  findTaxon table i = Some t -> In t table /\ taxonId t = i.
Proof.
  unfold findTaxon. intros H. apply find_some in H. destruct H as [Hin Heq].
  apply String.eqb_eq in Heq. now split.
Qed.

Lemma findTaxon_snoc (table : list Taxon) (row : Taxon) (i : Id) :
  findTaxon (table ++ [row]) i
  = match findTaxon table i with
    | Some t => Some t
    | None => if taxonId row =? i then Some row else None
    end.
Proof.
  unfold findTaxon. induction table as [|t table IH]; simpl; [reflexivity|].
  destruct (taxonId t =? i); [reflexivity | exact IH].
Qed.

Lemma findTaxon_filter (table : list Taxon) (i j : Id) :
  findTaxon (filter (fun t => negb (taxonId t =? i)) table) j
  = if j =? i then None else findTaxon table j.
Proof.
  unfold findTaxon. induction table as [|t table IH]; simpl.
  - now destruct (j =? i).
  - destruct (taxonId t =? i) eqn:Hti; simpl.
    + rewrite IH. destruct (j =? i) eqn:Hji; [reflexivity|].
      apply String.eqb_eq in Hti. apply String.eqb_neq in Hji.
      assert (Hne : (taxonId t =? j) = false).
      { apply String.eqb_neq. congruence. }
      now rewrite Hne.
    + destruct (taxonId t =? j) eqn:Htj.
      * apply String.eqb_eq in Htj. subst j. now rewrite Hti.
      * exact IH.
Qed.

Lemma findTaxon_replace (table : list Taxon) (row : Taxon) (i j : Id) (t : Taxon) :
  taxonId row = i ->
  findTaxon table i = Some t ->
  findTaxon (replaceTaxon i row table) j
  = if j =? i then Some row else findTaxon table j.
Proof.
  intros Hrow. unfold findTaxon, replaceTaxon.
  induction table as [|x table IH]; simpl; [discriminate|].
  destruct (taxonId x =? i) eqn:Hxi.
  - intros _. apply String.eqb_eq in Hxi.
    destruct (j =? i) eqn:Hji.
    + apply String.eqb_eq in Hji. subst j. now rewrite Hrow, String.eqb_refl.
    + apply String.eqb_neq in Hji.
      assert (H1 : (taxonId row =? j) = false) by (apply String.eqb_neq; congruence).
      assert (H2 : (taxonId x =? j) = false) by (apply String.eqb_neq; congruence).
      rewrite H1, H2. clear IH.
      induction table as [|y table IHt]; simpl; [reflexivity|].
      destruct (taxonId y =? i) eqn:Hyi.
      * apply String.eqb_eq in Hyi.
        assert (H3 : (taxonId y =? j) = false) by (apply String.eqb_neq; congruence).
        now rewrite H1, H3.
      * destruct (taxonId y =? j); [reflexivity | exact IHt].
  - intros Hfind. destruct (taxonId x =? j) eqn:Hxj.
    + apply String.eqb_eq in Hxj. subst j. now rewrite Hxi.
    + now apply IH.
Qed.

(** X14. POST on a taxonomy.  A name that is already in use (or is longer
    than the column, or a generated identifier already in use) is
    answered 500 and nothing is stored.  Otherwise the row is stored
    under the generated identifier: it is answered 201, a GET at that
    identifier returns it, and every row a GET returned before is still
    returned. *)
Theorem createTaxon_result (kind : TaxonKind) (db : Db) (newId : Id)
        (payload : TaxonCreatePayload) :
  (In (tc_name payload) (map taxonName (tableOf kind db))
   \/ nameTooLong (tc_name payload) = true
   \/ In newId (map taxonId (tableOf kind db)) ->
   createTaxon kind db newId payload = (db, TaxonErr (taxonFailed "create" kind)))
  /\ (~ In (tc_name payload) (map taxonName (tableOf kind db)) ->
      nameTooLong (tc_name payload) = false ->
      ~ In newId (map taxonId (tableOf kind db)) ->
      let row := mkTaxon newId (tc_name payload)
                         (nullableColumn (tc_description payload) None) in
      let db' := withTable kind db (tableOf kind db ++ [row]) in
      createTaxon kind db newId payload = (db', TaxonOk 201 row)
      /\ getTaxon kind db' newId = TaxonOk 200 row
      /\ (forall j t, getTaxon kind db j = TaxonOk 200 t ->
                      getTaxon kind db' j = TaxonOk 200 t)
      /\ spaces db' = spaces db).
Proof.
  split.
  - unfold createTaxon, prismaTaxonCreate. intros [Hname | [Hlong | Hid]].
    + apply mem_In in Hname. rewrite Hname.
      destruct (nameTooLong _); [reflexivity|].
      now destruct (mem newId _).
    + now rewrite Hlong.
    + apply mem_In in Hid. rewrite Hid. now destruct (nameTooLong _).
  - intros Hname Hlong Hid row db'.
    pose proof Hid as Hfresh.
    apply mem_false in Hname. apply mem_false in Hid.
    unfold createTaxon, prismaTaxonCreate.
    rewrite Hlong, Hid, Hname. split; [reflexivity|].
    apply findTaxon_None in Hfresh.
    unfold getTaxon, db'. rewrite tableOf_withTable. repeat split.
    + rewrite findTaxon_snoc, Hfresh. simpl. now rewrite String.eqb_refl.
    + intros j t. rewrite findTaxon_snoc.
      destruct (findTaxon (tableOf kind db) j); [intros H; exact H | discriminate].
    + apply spaces_withTable.
Qed.

(** X15. PATCH on a taxonomy.  An unknown identifier is answered 404.  A new
    name held by another row (or longer than the column) is answered
    500 and nothing changes; a row may be given the name it already has.
    Otherwise the row keeps its identifier, takes the values sent and
    keeps the others, and no other row changes. *)
Theorem updateTaxon_result (kind : TaxonKind) (db : Db) (i : Id)
        (payload : TaxonUpdatePayload) :
  (findTaxon (tableOf kind db) i = None ->
   updateTaxon kind db i payload = (db, TaxonErr (taxonNotFound kind)))
  /\ (forall t, findTaxon (tableOf kind db) i = Some t ->
      let newName := orElse (tu_name payload) (taxonName t) in
      let row := mkTaxon i newName
                         (nullableColumn (tu_description payload)
                                         (taxonDescription t)) in
      let db' := withTable kind db (replaceTaxon i row (tableOf kind db)) in
      (nameTooLong newName = true
       \/ (exists other, In other (tableOf kind db) /\ taxonId other <> i
                         /\ taxonName other = newName) ->
       updateTaxon kind db i payload = (db, TaxonErr (taxonFailed "update" kind)))
      /\ (nameTooLong newName = false ->
          (forall other, In other (tableOf kind db) -> taxonId other <> i ->
                         taxonName other <> newName) ->
          updateTaxon kind db i payload = (db', TaxonOk 200 row)
          /\ getTaxon kind db' i = TaxonOk 200 row
          /\ (forall j, j <> i -> getTaxon kind db' j = getTaxon kind db j)
          /\ spaces db' = spaces db)).
Proof.
  split.
  - unfold updateTaxon. intros Hnone. now rewrite Hnone.
  - intros t Hfind newName row db'.
    unfold updateTaxon, prismaTaxonUpdate. rewrite Hfind.
    pose proof (findTaxon_Some _ _ _ Hfind) as [_ Hid].
    fold newName. split.
    + intros [Hlong | [other [Hin [Hne Hname]]]].
      * now rewrite Hlong.
      * destruct (nameTooLong newName); [reflexivity|].
        assert (Htaken : nameTakenByOther (tableOf kind db) i newName = true).
        { unfold nameTakenByOther. apply existsb_exists. exists other.
          split; [exact Hin|]. apply String.eqb_neq in Hne. rewrite Hne. simpl.
          now apply String.eqb_eq. }
        now rewrite Htaken.
    + intros Hlong Hfree. rewrite Hlong.
      assert (Htaken : nameTakenByOther (tableOf kind db) i newName = false).
      { unfold nameTakenByOther.
        destruct (existsb _ (tableOf kind db)) eqn:Hex; [|reflexivity].
        apply existsb_exists in Hex. destruct Hex as [other [Hin Hcond]].
        apply andb_true_iff in Hcond. destruct Hcond as [Hne Hname].
        apply negb_true_iff, String.eqb_neq in Hne. apply String.eqb_eq in Hname.
        exfalso. now apply (Hfree other). }
      rewrite Htaken, Hid. fold row. fold db'. split; [reflexivity|].
      unfold getTaxon, db'. rewrite tableOf_withTable. repeat split.
      * rewrite (findTaxon_replace _ row i i t eq_refl Hfind).
        now rewrite String.eqb_refl.
      * intros j Hj. rewrite (findTaxon_replace _ row i j t eq_refl Hfind).
        apply String.eqb_neq in Hj. now rewrite Hj.
      * apply spaces_withTable.
Qed.

(** X16. DELETE on a taxonomy.  An unknown identifier is answered 404.  A
    type that a space still has is not deleted: the answer is 500 and
    nothing changes.  A type no space has is removed and the spaces are
    untouched.  A category or a feature is always removed, and with it
    every association of a space with it; the other associations and
    the other rows stay. *)
Theorem deleteTaxon_result (db : Db) (i : Id) :
  (forall kind, findTaxon (tableOf kind db) i = None ->
     deleteTaxon kind db i = (db, TaxonErr (taxonNotFound kind)))
  /\ (findTaxon (spaceTypes db) i <> None ->
      (exists sp, In sp (spaces db) /\ typeId sp = i) ->
      deleteTaxon SpaceTypeKind db i
      = (db, TaxonErr (taxonFailed "delete" SpaceTypeKind)))
  /\ (findTaxon (spaceTypes db) i <> None ->
      (forall sp, In sp (spaces db) -> typeId sp <> i) ->
      exists db',
        deleteTaxon SpaceTypeKind db i
        = (db', TaxonDeleted "Space type deleted successfully.")
        /\ getTaxon SpaceTypeKind db' i = TaxonErr (taxonNotFound SpaceTypeKind)
        /\ (forall j, j <> i ->
              getTaxon SpaceTypeKind db' j = getTaxon SpaceTypeKind db j)
        /\ spaces db' = spaces db)
  /\ (findTaxon (spaceCategories db) i <> None ->
      exists db',
        deleteTaxon SpaceCategoryKind db i
        = (db', TaxonDeleted "Space category deleted successfully.")
        /\ getTaxon SpaceCategoryKind db' i
           = TaxonErr (taxonNotFound SpaceCategoryKind)
        /\ (forall j, j <> i ->
              getTaxon SpaceCategoryKind db' j = getTaxon SpaceCategoryKind db j)
        /\ spaces db'
           = map (fun sp => withCategories sp (without i (categories sp)))
                 (spaces db)
        /\ (forall sp, In sp (spaces db') -> ~ In i (categories sp)))
  /\ (findTaxon (spaceFeatures db) i <> None ->
      exists db',
        deleteTaxon SpaceFeatureKind db i
        = (db', TaxonDeleted "Space feature deleted successfully.")
        /\ getTaxon SpaceFeatureKind db' i
           = TaxonErr (taxonNotFound SpaceFeatureKind)
        /\ (forall j, j <> i ->
              getTaxon SpaceFeatureKind db' j = getTaxon SpaceFeatureKind db j)
        /\ spaces db'
           = map (fun sp => withFeatures sp (without i (features sp))) (spaces db)
        /\ (forall sp, In sp (spaces db') -> ~ In i (features sp))).
Proof.
  assert (Hwithout : forall ids, ~ In i (without i ids)).
  { intros ids Hin. unfold without in Hin. apply filter_In in Hin.
    destruct Hin as [_ Hne]. now rewrite String.eqb_refl in Hne. }
  split; [|split; [|split; [|split]]].
  - intros kind Hnone. unfold deleteTaxon. now rewrite Hnone.
  - intros Hfound [sp [Hin Htype]]. unfold deleteTaxon, prismaTaxonDelete. simpl.
    destruct (findTaxon (spaceTypes db) i); [|contradiction].
    assert (Hused : existsb (fun s => typeId s =? i) (spaces db) = true).
    { apply existsb_exists. exists sp. split; [exact Hin|]. now apply String.eqb_eq. }
    now rewrite Hused.
  - intros Hfound Hunused. unfold deleteTaxon, prismaTaxonDelete. simpl.
    destruct (findTaxon (spaceTypes db) i); [|contradiction].
    assert (Hfree : existsb (fun s => typeId s =? i) (spaces db) = false).
    { destruct (existsb _ (spaces db)) eqn:Hex; [|reflexivity].
      apply existsb_exists in Hex. destruct Hex as [sp [Hin Heq]].
      apply String.eqb_eq in Heq. exfalso. now apply (Hunused sp). }
    rewrite Hfree. eexists. split; [reflexivity|].
    unfold getTaxon. simpl. repeat split.
    + now rewrite findTaxon_filter, String.eqb_refl.
    + intros j Hj. rewrite findTaxon_filter.
      apply String.eqb_neq in Hj. now rewrite Hj.
  - intros Hfound. unfold deleteTaxon, prismaTaxonDelete. simpl.
    destruct (findTaxon (spaceCategories db) i); [|contradiction].
    eexists. split; [reflexivity|].
    unfold getTaxon. simpl. repeat split.
    + now rewrite findTaxon_filter, String.eqb_refl.
    + intros j Hj. rewrite findTaxon_filter.
      apply String.eqb_neq in Hj. now rewrite Hj.
    + intros sp Hin. apply in_map_iff in Hin. destruct Hin as [old [<- _]].
      simpl. apply Hwithout.
  - intros Hfound. unfold deleteTaxon, prismaTaxonDelete. simpl.
    destruct (findTaxon (spaceFeatures db) i); [|contradiction].
    eexists. split; [reflexivity|].
    unfold getTaxon. simpl. repeat split.
    + now rewrite findTaxon_filter, String.eqb_refl.
    + intros j Hj. rewrite findTaxon_filter.
      apply String.eqb_neq in Hj. now rewrite Hj.
    + intros sp Hin. apply in_map_iff in Hin. destruct Hin as [old [<- _]].
      simpl. apply Hwithout.
Qed.

(** ** Referential integrity is kept *)

Lemma refsOk_spec (db : Db) :
  refsOk db = true <-> forall sp, In sp (spaces db) -> rowRefsOk db sp.
Proof.
  unfold refsOk, rowRefsOk. rewrite forallb_forall.
  split; intros H sp Hin; specialize (H sp Hin).
  - rewrite !andb_true_iff, !mem_In, !allExist_In in H. tauto.
  - rewrite !andb_true_iff, !mem_In, !allExist_In. tauto.
Qed.

Lemma prismaSpaceCreate_refs (db db' : Db) (now : nat) (newId : Id)
      (data : CreateData) (row : Space) :
  prismaSpaceCreate db now newId data = inl (db', row) ->
  rowRefsOk db row
  /\ users db' = users db /\ spaceTypes db' = spaceTypes db
  /\ spaceCategories db' = spaceCategories db
  /\ spaceFeatures db' = spaceFeatures db.
Proof.
  unfold prismaSpaceCreate.
  destruct (cd_description data) as [|descr]; [discriminate|].
  destruct (mem (cd_submittedBy data) (users db)) eqn:Hu; [|discriminate].
  destruct (mem (cd_type data) (map taxonId (spaceTypes db))) eqn:Ht;
    [|discriminate].
  destruct (allExist (spaceCategories db) (cd_categories data)) eqn:Hc;
    [|discriminate].
  destruct (allExist (spaceFeatures db) (cd_features data)) eqn:Hf;
    [|discriminate].
  simpl.
  destruct (tooLong (cd_architecturalStyle data)); [discriminate|].
  destruct (mem newId (map id (spaces db))); [discriminate|].
  destruct (mem (cd_slug data) (map slug (spaces db))); [discriminate|].
  intros H. injection H as Hdb Hrow. subst row db'. unfold rowRefsOk. simpl.
  apply mem_In in Hu. apply mem_In in Ht.
  repeat split; try assumption.
  - intros c Hin. apply nodup_In in Hin.
    now apply (proj1 (allExist_In _ _) Hc).
  - intros f Hin. apply nodup_In in Hin.
    now apply (proj1 (allExist_In _ _) Hf).
Qed.

Lemma prismaSpaceUpdate_refs (db db' : Db) (now : nat) (i : Id)
      (data : UpdateData) (row : Space) :
  (forall sp, In sp (spaces db) -> rowRefsOk db sp) ->
  prismaSpaceUpdate db now i data = inl (db', row) ->
  rowRefsOk db row.
Proof.
  intros Hrefs Hwrite.
  destruct (prismaSpaceUpdate_checks _ _ _ _ _ _ Hwrite)
    as [sp [Hsp [Ht [Hc [Hf [_ Hrow]]]]]].
  apply findUniqueById_Some in Hsp. destruct Hsp as [Hin _].
  destruct (Hrefs sp Hin) as [Htype [Hcats [Hfeats Hauthor]]].
  rewrite Hrow. unfold rowRefsOk. simpl. repeat split.
  - destruct (ud_type data) as [|t]; [exact Htype|]. simpl.
    apply (proj1 (allExist_In _ _) Ht). now left.
  - intros c Hcin. destruct (ud_categories data) as [|ids]; [now apply Hcats|].
    apply nodup_In in Hcin. now apply (proj1 (allExist_In _ _) Hc).
  - intros f Hfin. destruct (ud_features data) as [|ids]; [now apply Hfeats|].
    apply nodup_In in Hfin. now apply (proj1 (allExist_In _ _) Hf).
  - exact Hauthor.
Qed.

Lemma replaceTaxon_ids (i : Id) (row : Taxon) (rows : list Taxon) :
  taxonId row = i -> map taxonId (replaceTaxon i row rows) = map taxonId rows.
Proof.
  intros Hrow. induction rows as [|x rows IH]; simpl; [reflexivity|].
  rewrite IH. destruct (taxonId x =? i) eqn:Hx; [|reflexivity].
  apply String.eqb_eq in Hx. now rewrite Hrow, Hx.
Qed.

Lemma rowRefsOk_tables (db db' : Db) (sp : Space) :
  users db' = users db ->
  incl (map taxonId (spaceTypes db)) (map taxonId (spaceTypes db')) ->
  incl (map taxonId (spaceCategories db)) (map taxonId (spaceCategories db')) ->
  incl (map taxonId (spaceFeatures db)) (map taxonId (spaceFeatures db')) ->
  rowRefsOk db sp -> rowRefsOk db' sp.
Proof.
  unfold rowRefsOk. intros Hu Ht Hc Hf [Htype [Hcats [Hfeats Hauthor]]].
  rewrite Hu. repeat split; auto.
Qed.

(** X2. The three handlers on spaces keep every stored reference resolvable:
    if every space of the database has a type, categories, features and
    an author that exist, so has every space of the database they leave,
    whatever the request and the answer. *)
Theorem space_handlers_keep_references (db db' : Db) (now : nat) (newId user : Id)
        (authenticatedUser : option Id) (identifier : string)
        (create : CreatePayload) (update : UpdatePayload) (r : Response) :
  refsOk db = true ->
  (createSpace db now newId user create = Responded db' r -> refsOk db' = true)
  /\ (updateSpace db now user identifier update = Responded db' r ->
      refsOk db' = true)
  /\ (deleteSpace db authenticatedUser identifier = Responded db' r ->
      refsOk db' = true).
Proof.
  intros Hrefs. pose proof (proj1 (refsOk_spec db) Hrefs) as Hall.
  repeat split; intros H.
  - destruct (createSpace_cases _ _ _ _ _ _ _ H) as [-> | [s [row [Hwrite _]]]];
      [exact Hrefs|].
    destruct (prismaSpaceCreate_refs _ _ _ _ _ _ Hwrite)
      as [Hrow [Hu [Ht [Hc Hf]]]].
    destruct (prismaSpaceCreate_inl _ _ _ _ _ _ Hwrite) as [_ [_ [_ Hspaces]]].
    apply refsOk_spec. intros sp Hin. rewrite Hspaces in Hin.
    apply (rowRefsOk_tables db db');
      try (rewrite ?Ht, ?Hc, ?Hf; apply incl_refl); [exact Hu|].
    apply in_app_or in Hin. destruct Hin as [Hin | [<-|[]]]; [now apply Hall|].
    exact Hrow.
  - destruct (updateSpace_cases _ _ _ _ _ _ _ H)
      as [-> | [existing [newSlug [row [_ [Hwrite _]]]]]]; [exact Hrefs|].
    pose proof (prismaSpaceUpdate_refs _ _ _ _ _ _ Hall Hwrite) as Hrow.
    destruct (prismaSpaceUpdate_tables _ _ _ _ _ _ Hwrite) as [Hu [Ht [Hc Hf]]].
    destruct (prismaSpaceUpdate_inl _ _ _ _ _ _ Hwrite)
      as [_ [_ [_ [_ [_ [_ [Hspaces _]]]]]]].
    apply refsOk_spec. intros sp Hin. rewrite Hspaces in Hin.
    apply (rowRefsOk_tables db db');
      try (rewrite ?Ht, ?Hc, ?Hf; apply incl_refl); [exact Hu|].
    apply replaceRow_In in Hin. destruct Hin as [-> | [Hin _]];
      [exact Hrow | now apply Hall].
  - destruct (deleteSpace_cases _ _ _ _ _ H) as [-> | [Hwrite _]]; [exact Hrefs|].
    unfold prismaSpaceDelete in Hwrite.
    destruct (findUniqueById db identifier); [|discriminate].
    injection Hwrite as <-. apply refsOk_spec. simpl. intros sp Hin.
    apply filter_In in Hin. destruct Hin as [Hin _].
    now apply (Hall sp).
Qed.

Lemma wfDb_withTable (kind : TaxonKind) (db : Db) (rows : list Taxon) :
  wfDb db = true -> NoDup (map taxonId rows) -> wfDb (withTable kind db rows) = true.
Proof.
  intros Hwf Hrows.
  destruct (wfDb_spaces db Hwf) as [Hids Hslugs].
  destruct (wfDb_taxonomies db Hwf) as [Ht [Hc Hf]].
  destruct kind; unfold wfDb; simpl;
    rewrite !andb_true_iff, !nodupb_NoDup; now repeat split.
Qed.

Lemma namesUnique_tables (db : Db) :
  namesUnique db = true <->
  forall kind, NoDup (map taxonName (tableOf kind db)).
Proof.
  unfold namesUnique. rewrite !andb_true_iff, !nodupb_NoDup. split.
  - intros [[Ht Hc] Hf] kind. now destruct kind.
  - intros H. repeat split.
    + exact (H SpaceTypeKind).
    + exact (H SpaceCategoryKind).
    + exact (H SpaceFeatureKind).
Qed.

Lemma wfDb_tables (db : Db) (kind : TaxonKind) :
  wfDb db = true -> NoDup (map taxonId (tableOf kind db)).
Proof.
  intros Hwf. destruct (wfDb_taxonomies db Hwf) as [Ht [Hc Hf]]. now destruct kind.
Qed.

Lemma namesUnique_withTable (kind : TaxonKind) (db : Db) (rows : list Taxon) :
  namesUnique db = true -> NoDup (map taxonName rows) ->
  namesUnique (withTable kind db rows) = true.
Proof.
  intros Hnames Hrows. apply namesUnique_tables. intros kind'.
  pose proof (proj1 (namesUnique_tables db) Hnames kind') as Hold.
  destruct kind, kind'; simpl in *; assumption.
Qed.

Lemma replaceTaxon_names_NoDup (i : Id) (row : Taxon) (rows : list Taxon) :
  NoDup (map taxonId rows) -> NoDup (map taxonName rows) ->
  (forall t, In t rows -> taxonId t <> i -> taxonName t <> taxonName row) ->
  NoDup (map taxonName (replaceTaxon i row rows)).
Proof.
  induction rows as [|x rows IH]; simpl; intros Hids Hnames Hother; [constructor|].
  inversion Hids as [|? ? Hxid Hids']; subst.
  inversion Hnames as [|? ? Hxname Hnames']; subst.
  destruct (taxonId x =? i) eqn:Hx.
  - apply String.eqb_eq in Hx. subst i.
    assert (Hsame : replaceTaxon (taxonId x) row rows = rows).
    { clear IH Hnames' Hxname Hother Hids' Hnames Hids.
      induction rows as [|y rows IHr]; simpl; [reflexivity|].
      destruct (taxonId y =? taxonId x) eqn:Hy.
      - apply String.eqb_eq in Hy. exfalso. apply Hxid. now left.
      - f_equal. apply IHr. intros Hin. apply Hxid. now right. }
    rewrite Hsame. constructor; [|exact Hnames'].
    intros Hin. apply in_map_iff in Hin. destruct Hin as [t [Hn Ht]].
    apply (Hother t); [now right | | exact Hn].
    intros Heq. apply Hxid. rewrite <- Heq. now apply in_map.
  - apply String.eqb_neq in Hx. constructor.
    + intros Hin. apply in_map_iff in Hin. destruct Hin as [y [Hn Hy]].
      unfold replaceTaxon in Hy. apply in_map_iff in Hy.
      destruct Hy as [z [Hz Hzin]]. destruct (taxonId z =? i).
      * subst y. apply (Hother x); [now left | exact Hx | now symmetry].
      * subst y. apply Hxname. rewrite <- Hn. now apply in_map.
    + apply IH; try assumption. intros t Ht. apply Hother. now right.
Qed.

Lemma without_In (i j : Id) (ids : list Id) :
  In j (without i ids) <-> In j ids /\ j <> i.
Proof.
  unfold without. now rewrite filter_In, negb_true_iff, String.eqb_neq.
Qed.

Lemma filter_ids_In (i j : Id) (table : list Taxon) :
  In j (map taxonId (filter (fun t => negb (taxonId t =? i)) table))
  <-> In j (map taxonId table) /\ j <> i.
Proof.
  rewrite !in_map_iff. split.
  - intros [t [Ht Hin]]. apply filter_In in Hin. destruct Hin as [Hin Hne].
    apply negb_true_iff, String.eqb_neq in Hne. subst j. split; [|exact Hne].
    now exists t.
  - intros [[t [Ht Hin]] Hne]. exists t. split; [exact Ht|].
    apply filter_In. split; [exact Hin|].
    apply negb_true_iff, String.eqb_neq. now rewrite Ht.
Qed.

(** X17. The handlers on the three taxonomies keep the constraints of the
    schema: primary keys, slugs and taxonomy names stay pairwise
    distinct and every reference a space holds still resolves, whatever
    the request and the answer.  (Deleting a category or feature takes
    the associations with it; a type in use is not deleted.) *)
Theorem taxonomy_handlers_keep_constraints (kind : TaxonKind) (db db' : Db)
        (newId i : Id) (create : TaxonCreatePayload) (update : TaxonUpdatePayload)
        (r : TaxonResponse) :
  wfDb db = true -> namesUnique db = true -> refsOk db = true ->
  createTaxon kind db newId create = (db', r)
  \/ updateTaxon kind db i update = (db', r)
  \/ deleteTaxon kind db i = (db', r) ->
  wfDb db' = true /\ namesUnique db' = true /\ refsOk db' = true.
Proof.
  intros Hwf Hnames Hrefs Hstep.
  pose proof (wfDb_tables db kind Hwf) as Hids.
  pose proof (proj1 (namesUnique_tables db) Hnames kind) as Hnm.
  pose proof (proj1 (refsOk_spec db) Hrefs) as Hall.
  destruct Hstep as [Hcreate | [Hupdate | Hdelete]].
  - unfold createTaxon, prismaTaxonCreate in Hcreate.
    destruct (nameTooLong (tc_name create));
      [injection Hcreate as <- _; now repeat split|].
    destruct (mem newId (map taxonId (tableOf kind db))) eqn:Hid;
      [injection Hcreate as <- _; now repeat split|].
    destruct (mem (tc_name create) (map taxonName (tableOf kind db))) eqn:Hname;
      injection Hcreate as <- _; [now repeat split|].
    apply mem_false in Hid. apply mem_false in Hname.
    split; [|split].
    + apply wfDb_withTable; [exact Hwf|]. now apply NoDup_map_snoc.
    + apply namesUnique_withTable; [exact Hnames|]. now apply NoDup_map_snoc.
    + apply refsOk_spec. intros sp Hin.
      rewrite (proj1 (spaces_withTable kind db _)) in Hin.
      apply (rowRefsOk_tables db); try (now apply Hall).
      * apply spaces_withTable.
      * destruct kind; simpl; try apply incl_refl.
        rewrite map_app. now apply incl_appl, incl_refl.
      * destruct kind; simpl; try apply incl_refl.
        rewrite map_app. now apply incl_appl, incl_refl.
      * destruct kind; simpl; try apply incl_refl.
        rewrite map_app. now apply incl_appl, incl_refl.
  - unfold updateTaxon, prismaTaxonUpdate in Hupdate.
    destruct (findTaxon (tableOf kind db) i) as [t|] eqn:Hfind;
      [|injection Hupdate as <- _; now repeat split].
    destruct (nameTooLong _); [injection Hupdate as <- _; now repeat split|].
    destruct (nameTakenByOther _ _ _) eqn:Htaken;
      injection Hupdate as <- _; [now repeat split|].
    pose proof (findTaxon_Some _ _ _ Hfind) as [_ Hti].
    set (row := mkTaxon (taxonId t) (orElse (tu_name update) (taxonName t))
                        (nullableColumn (tu_description update)
                                        (taxonDescription t))).
    assert (Hrow : taxonId row = i) by exact Hti.
    split; [|split].
    + apply wfDb_withTable; [exact Hwf|]. now rewrite replaceTaxon_ids.
    + apply namesUnique_withTable; [exact Hnames|].
      apply replaceTaxon_names_NoDup; try assumption.
      intros other Hin Hne Heq. simpl in Heq.
      assert (Htrue : nameTakenByOther (tableOf kind db) i
                        (orElse (tu_name update) (taxonName t)) = true).
      { unfold nameTakenByOther. apply existsb_exists. exists other.
        split; [exact Hin|]. apply String.eqb_neq in Hne. rewrite Hne. simpl.
        now apply String.eqb_eq. }
      congruence.
    + apply refsOk_spec. intros sp Hin.
      rewrite (proj1 (spaces_withTable kind db _)) in Hin.
      apply (rowRefsOk_tables db); try (now apply Hall).
      * apply spaces_withTable.
      * destruct kind; simpl; try apply incl_refl.
        rewrite (replaceTaxon_ids i row _ Hrow). apply incl_refl.
      * destruct kind; simpl; try apply incl_refl.
        rewrite (replaceTaxon_ids i row _ Hrow). apply incl_refl.
      * destruct kind; simpl; try apply incl_refl.
        rewrite (replaceTaxon_ids i row _ Hrow). apply incl_refl.
  - unfold deleteTaxon, prismaTaxonDelete in Hdelete.
    destruct (findTaxon (tableOf kind db) i) as [t|] eqn:Hfind;
      [|injection Hdelete as <- _; now repeat split].
    destruct (wfDb_spaces db Hwf) as [Hsid Hslug].
    destruct (wfDb_taxonomies db Hwf) as [Ht [Hc Hf]].
    pose proof (proj1 (namesUnique_tables db) Hnames) as Hn.
    destruct kind.
    + destruct (existsb (fun sp => typeId sp =? i) (spaces db)) eqn:Hused;
        injection Hdelete as <- _; [now repeat split|].
      split; [|split].
      * apply (wfDb_withTable SpaceTypeKind); [exact Hwf|].
        now apply NoDup_map_filter.
      * apply (namesUnique_withTable SpaceTypeKind); [exact Hnames|].
        now apply NoDup_map_filter.
      * apply refsOk_spec. simpl. intros sp Hin.
        destruct (Hall sp Hin) as [Htype [Hcats [Hfeats Hauthor]]].
        unfold rowRefsOk. simpl. repeat split; try assumption.
        apply filter_ids_In. split; [exact Htype|].
        intros Heq.
        assert (Htrue : existsb (fun s => typeId s =? i) (spaces db) = true).
        { apply existsb_exists. exists sp. split; [exact Hin|].
          now apply String.eqb_eq. }
        congruence.
    + injection Hdelete as <- _. split; [|split].
      * unfold wfDb. simpl. rewrite !map_map. simpl.
        rewrite !andb_true_iff, !nodupb_NoDup. repeat split; try assumption.
        now apply NoDup_map_filter.
      * apply namesUnique_tables. intros kind'. destruct kind'; simpl.
        -- exact (Hn SpaceTypeKind).
        -- apply NoDup_map_filter. exact (Hn SpaceCategoryKind).
        -- exact (Hn SpaceFeatureKind).
      * apply refsOk_spec. simpl. intros sp Hin.
        apply in_map_iff in Hin. destruct Hin as [old [<- Hold]].
        destruct (Hall old Hold) as [Htype [Hcats [Hfeats Hauthor]]].
        unfold rowRefsOk. simpl. repeat split; try assumption.
        intros c Hcin. apply without_In in Hcin. destruct Hcin as [Hcin Hne].
        apply filter_ids_In. split; [now apply Hcats | exact Hne].
    + injection Hdelete as <- _. split; [|split].
      * unfold wfDb. simpl. rewrite !map_map. simpl.
        rewrite !andb_true_iff, !nodupb_NoDup. repeat split; try assumption.
        now apply NoDup_map_filter.
      * apply namesUnique_tables. intros kind'. destruct kind'; simpl.
        -- exact (Hn SpaceTypeKind).
        -- exact (Hn SpaceCategoryKind).
        -- apply NoDup_map_filter. exact (Hn SpaceFeatureKind).
      * apply refsOk_spec. simpl. intros sp Hin.
        apply in_map_iff in Hin. destruct Hin as [old [<- Hold]].
        destruct (Hall old Hold) as [Htype [Hcats [Hfeats Hauthor]]].
        unfold rowRefsOk. simpl. repeat split; try assumption.
        intros f Hfin. apply without_In in Hfin. destruct Hfin as [Hfin Hne].
        apply filter_ids_In. split; [now apply Hfeats | exact Hne].
Qed.

(** ** Tokens and the Authorization header *)

(** X24. A token issued at the clock reading [nowMs] (milliseconds) expires
    two hours later, less the fraction of a second the clock reading is
    rounded down by: between 7199.001 and 7200 seconds after it was
    issued. *)
Theorem token_expires_within_two_hours (nowMs : nat) :
  nowMs + (2 * 60 * 60 * 1000 - 999) <= 1000 * expirationTimeInSeconds nowMs
  /\ 1000 * expirationTimeInSeconds nowMs <= nowMs + 2 * 60 * 60 * 1000.
Proof.
  unfold expirationTimeInSeconds.
  pose proof (Nat.div_mod_eq nowMs 1000) as Hdiv.
  pose proof (Nat.mod_upper_bound nowMs 1000 ltac:(discriminate)) as Hmod.
  lia.
Qed.

Lemma prefix_split (p s : string) :
  prefix p s = true -> exists rest, s = p ++ rest.
Proof.
  revert s. induction p as [|c p IH]; intros s H.
  - now exists s.
  - destruct s as [|d s]; simpl in H; [discriminate|].
    destruct (ascii_dec c d) as [->|]; [|discriminate].
    destruct (IH s H) as [rest ->]. now exists rest.
Qed.

Lemma splitOnSpace_head (s : string) :
  exists word words,
    splitOnSpace s = word :: words
    /\ noSpace word = true
    /\ prefix word s = true
    /\ (noSpace s = true -> word = s /\ words = []).
Proof.
  induction s as [|c s IH].
  - exists "", []. now repeat split.
  - destruct IH as [word [words [Hsplit [Hword [Hprefix Hwhole]]]]]. simpl.
    destruct (nat_of_ascii c =? 32)%nat eqn:Hc.
    + exists "", (splitOnSpace s). repeat split; discriminate.
    + rewrite Hsplit. exists (String c word), words. simpl. rewrite Hc. simpl.
      split; [reflexivity|]. split; [exact Hword|]. split.
      * destruct (ascii_dec c c) as [_|Hne]; [exact Hprefix | now elim Hne].
      * intros Hs. destruct (Hwhole Hs) as [-> ->]. now split.
Qed.

Lemma bearerToken_Some (authHeader : option string) (read : option string) :
  bearerToken authHeader = Some read ->
  exists token rest,
    read = Some token
    /\ authHeader = Some ("Bearer " ++ rest)
    /\ noSpace token = true
    /\ prefix token rest = true
    /\ (noSpace rest = true -> token = rest).
Proof.
  unfold bearerToken. destruct authHeader as [header|]; [|discriminate].
  destruct (header =? ""); simpl; [discriminate|].
  destruct (prefix "Bearer " header) eqn:Hprefix; simpl; [|discriminate].
  apply prefix_split in Hprefix. destruct Hprefix as [rest ->].
  intros H. injection H as <-.
  destruct (splitOnSpace_head rest) as [word [words [Hsplit [Hword [Hpre Hall]]]]].
  exists word, rest.
  change (splitOnSpace ("Bearer " ++ rest))
    with ("Bearer" :: splitOnSpace rest).
  rewrite Hsplit. simpl. repeat split; try assumption.
  intros Hrest. now destruct (Hall Hrest).
Qed.

(** X18. The token the middleware reads in an Authorization header.  The
    header is refused when it is missing, empty or does not start with
    "Bearer "; otherwise the token is what follows "Bearer " up to the
    next space: it is always defined, holds no space, and is the rest of
    the header when that rest holds no space. *)
Theorem bearerToken_reads_token (authHeader : option string) :
  (bearerToken authHeader = None <->
     authHeader = None \/ authHeader = Some ""
     \/ exists header, authHeader = Some header
                       /\ prefix "Bearer " header = false)
  /\ (forall read, bearerToken authHeader = Some read ->
        exists token rest,
          read = Some token
          /\ authHeader = Some ("Bearer " ++ rest)
          /\ noSpace token = true
          /\ prefix token rest = true
          /\ (noSpace rest = true -> token = rest)).
Proof.
  split.
  - unfold bearerToken. destruct authHeader as [header|].
    + destruct (header =? "") eqn:Hempty; simpl.
      * apply String.eqb_eq in Hempty. subst header. split; [|reflexivity].
        intros _. right. now left.
      * destruct (prefix "Bearer " header) eqn:Hprefix; simpl.
        -- split; [discriminate|].
           intros [Hnone | [Hsome | [h [Hh Hp]]]]; try discriminate.
           ++ injection Hsome as ->. discriminate.
           ++ injection Hh as <-. congruence.
        -- split; [|reflexivity]. intros _. right. right. now exists header.
    + split; [|reflexivity]. intros _. now left.
  - intros read. apply bearerToken_Some.
Qed.

(** ** Authentication *)

Lemma find_key_None {A : Type} (f : A -> string) (l : list A) (k : string) :
  find (fun x => f x =? k) l = None <-> ~ In k (map f l).
Proof.
  split.
  - intros Hnone Hin. apply in_map_iff in Hin. destruct Hin as [x [Hx Hin]].
    apply (find_none _ _ Hnone) in Hin. simpl in Hin.
    apply String.eqb_neq in Hin. contradiction.
  - intros Hnot. destruct (find _ l) as [x|] eqn:Hfind; [|reflexivity].
    apply find_some in Hfind. destruct Hfind as [Hin Heq].
    apply String.eqb_eq in Heq. exfalso. apply Hnot.
    apply in_map_iff. now exists x.
Qed.

Lemma find_key_Some {A : Type} (f : A -> string) (l : list A) (k : string) (x : A) :
  find (fun y => f y =? k) l = Some x -> In x l /\ f x = k.
Proof.
  intros H. apply find_some in H. destruct H as [Hin Heq].
  apply String.eqb_eq in Heq. now split.
Qed.

Lemma find_key_of_In {A : Type} (f : A -> string) (l : list A) (x : A) :
  NoDup (map f l) -> In x l -> find (fun y => f y =? f x) l = Some x.
Proof.
  intros Hnd Hin. destruct (find _ l) as [y|] eqn:Hfind.
  - apply find_key_Some in Hfind. destruct Hfind as [Hy Heq].
    f_equal. now apply (NoDup_map_eq f l).
  - apply find_key_None in Hfind. exfalso. apply Hfind. now apply in_map.
Qed.

Lemma find_key_snoc {A : Type} (f : A -> string) (l : list A) (x : A) :
  ~ In (f x) (map f l) -> find (fun y => f y =? f x) (l ++ [x])%list = Some x.
Proof.
  intros Hnot. induction l as [|y l IH]; simpl.
  - now rewrite String.eqb_refl.
  - destruct (f y =? f x) eqn:Hy.
    + apply String.eqb_eq in Hy. exfalso. apply Hnot. now left.
    + apply IH. intros Hin. apply Hnot. now right.
Qed.

(** X19. The middleware lets a request through only as a user of the table:
    the header carries a token, [verify] accepts it, the payload holds
    two strings, and the user forwarded is the row whose identifier the
    payload names, with the name and the email of that row.  Every
    refusal is a 401. *)
Theorem authenticateUser_sound (lib : Collaborators) (accounts : list User)
        (authHeader : option string) :
  (forall user, authenticateUser lib accounts authHeader = Next user ->
     exists token payload mail row,
       bearerToken authHeader = Some (Some token)
       /\ verify lib token (JWT_SECRET lib) = Verified (Some payload)
       /\ decodedUserId payload = Some (authId user)
       /\ decodedEmail payload = Some mail
       /\ In row accounts
       /\ user = mkAuthUser (userId row) (username row) (email row))
  /\ (forall e, authenticateUser lib accounts authHeader = Rejected e ->
        code e = 401).
Proof.
  unfold authenticateUser. split.
  - intros user.
    destruct (bearerToken authHeader) as [[token|]|] eqn:Hread; try discriminate.
    destruct (verify lib token (JWT_SECRET lib)) as [[payload|]|name] eqn:Hverify;
      try discriminate.
    destruct (decodedUserId payload) as [uid|] eqn:Huid; [|discriminate].
    destruct (decodedEmail payload) as [mail|] eqn:Hmail; [|discriminate].
    destruct (find (fun u => userId u =? uid) accounts) as [row|] eqn:Hfind;
      [|discriminate].
    intros H. injection H as <-.
    apply find_key_Some in Hfind. destruct Hfind as [Hin Hid].
    exists token, payload, mail, row. simpl. rewrite Hid. now repeat split.
  - assert (Hfailed : forall name, code (authenticationFailed name) = 401).
    { intros name. unfold authenticationFailed.
      now destruct (name =? "TokenExpiredError"). }
    intros e.
    destruct (bearerToken authHeader) as [[token|]|];
      try (intros H; injection H as <-; auto; fail).
    destruct (verify lib token (JWT_SECRET lib)) as [[payload|]|name];
      try (intros H; injection H as <-; auto; fail).
    destruct (decodedUserId payload) as [uid|];
      try (intros H; injection H as <-; auto; fail).
    destruct (decodedEmail payload) as [mail|];
      try (intros H; injection H as <-; auto; fail).
    destruct (find (fun u => userId u =? uid) accounts);
      [discriminate | intros H; injection H as <-; reflexivity].
Qed.

(** X20. The middleware lets through every request whose header is "Bearer "
    followed by a token without a space that [verify] accepts with a
    payload of two strings naming the identifier of a user of the
    table. *)
Theorem authenticateUser_complete (lib : Collaborators) (accounts : list User)
        (token mail : string) (row : User) :
  wfUsers accounts = true ->
  noSpace token = true ->
  verify lib token (JWT_SECRET lib)
  = Verified (Some (mkDecoded (Some (userId row)) (Some mail))) ->
  In row accounts ->
  authenticateUser lib accounts (Some ("Bearer " ++ token))
  = Next (mkAuthUser (userId row) (username row) (email row)).
Proof.
  intros Hwf Htoken Hverify Hin.
  unfold wfUsers in Hwf. rewrite !andb_true_iff, !nodupb_NoDup in Hwf.
  destruct Hwf as [[Hids _] _].
  unfold authenticateUser.
  destruct (bearerToken (Some ("Bearer " ++ token))) as [read|] eqn:Hread.
  - destruct (bearerToken_Some _ read Hread)
      as [tok [rest [-> [Hheader [_ [_ Hwhole]]]]]].
    injection Hheader as Hrest. subst rest.
    rewrite (Hwhole Htoken), Hverify. simpl.
    now rewrite (find_key_of_In userId accounts row Hids Hin).
  - unfold bearerToken in Hread.
    change ("Bearer " ++ token =? "") with false in Hread.
    rewrite prefix_append in Hread. discriminate.
Qed.


(** X22. A registration with an email or a username already in the table is
    answered 409 and stores nothing.  Otherwise (the generated
    identifier being new) the user is stored with the hash of the
    password, the avatar of the username and the default bio, and the
    answer carries the new identifier; emails, usernames and identifiers
    of the table stay pairwise distinct. *)
Theorem register_result (lib : Collaborators) (accounts : list User) (nowMs : nat)
        (newId : Id) (salt : string) (request : RegisterRequest) :
  (In (r_email request) (map email accounts) ->
   register lib accounts nowMs newId salt request
   = (accounts, AuthErr (mkError "Email already registered." 409)))
  /\ (~ In (r_email request) (map email accounts) ->
      In (r_username request) (map username accounts) ->
      register lib accounts nowMs newId salt request
      = (accounts, AuthErr (mkError "Username already registered." 409)))
  /\ (~ In (r_email request) (map email accounts) ->
      ~ In (r_username request) (map username accounts) ->
      ~ In newId (map userId accounts) ->
      let row :=
        mkUser newId (r_username request) (r_email request)
               (hashPassword lib salt (r_password request))
               (Some ("https://api.dicebear.com/9.x/adventurer-neutral/svg?seed="
                      ++ r_username request ++ "&size=64"))
               (Some "about me") nowMs nowMs in
      register lib accounts nowMs newId salt request
      = ((accounts ++ [row])%list,
         AuthOk (createToken lib newId (r_email request) nowMs)
                "Registration successful." newId)
      /\ (wfUsers accounts = true -> wfUsers (accounts ++ [row])%list = true)).
Proof.
  split; [|split].
  - intros Hmail. unfold register.
    destruct (find (fun u => email u =? r_email request) accounts) eqn:Hfind;
      [reflexivity|].
    apply find_key_None in Hfind. contradiction.
  - intros Hmail Hname. unfold register.
    apply (find_key_None email) in Hmail. rewrite Hmail.
    destruct (find (fun u => username u =? r_username request) accounts) eqn:Hfind;
      [reflexivity|].
    apply find_key_None in Hfind. contradiction.
  - intros Hmail Hname Hid row. split.
    + unfold register, prismaUserCreate.
      rewrite (proj2 (find_key_None email _ _) Hmail).
      rewrite (proj2 (find_key_None username _ _) Hname).
      rewrite (proj2 (mem_false _ _) Hmail), (proj2 (mem_false _ _) Hname),
        (proj2 (mem_false _ _) Hid).
      reflexivity.
    + unfold wfUsers. rewrite !andb_true_iff, !nodupb_NoDup.
      intros [[Hids Hnames] Hmails].
      repeat split; now apply NoDup_map_snoc.
Qed.

(** X23. Register, then log in.  When [verifyPassword] accepts every password
    against the hashes [hashPassword] makes of it, a login with the
    email and password of a registration that was answered 200 is
    answered 200, with a token for the identifier the registration gave. *)
Theorem register_then_login (lib : Collaborators) (accounts accounts' : list User)
        (now1 now2 : nat) (newId : Id) (salt : string) (request : RegisterRequest)
        (token note uid : string) :
  (forall s p, verifyPassword lib p (hashPassword lib s p) = true) ->
  register lib accounts now1 newId salt request = (accounts', AuthOk token note uid) ->
  uid = newId
  /\ login lib accounts' now2 (mkLoginRequest (r_email request) (r_password request))
     = AuthOk (createToken lib newId (r_email request) now2)
              "Login successful." (r_email request).
Proof.
  intros Hhash. unfold register.
  destruct (find (fun u => email u =? r_email request) accounts) eqn:Hmail;
    [discriminate|].
  destruct (find (fun u => username u =? r_username request) accounts);
    [discriminate|].
  unfold prismaUserCreate.
  destruct (mem newId (map userId accounts)); [discriminate|].
  destruct (mem (r_username request) (map username accounts)); [discriminate|].
  destruct (mem (r_email request) (map email accounts)); [discriminate|].
  intros H. injection H as <- _ _ <-. split; [reflexivity|].
  apply find_key_None in Hmail.
  unfold login. simpl l_email.
  match goal with
  | |- context [(accounts ++ [?r])%list] => set (row := r)
  end.
  change (r_email request) with (email row) at 1.
  rewrite (find_key_snoc email accounts row Hmail). simpl.
  now rewrite Hhash.
Qed.

(** ** Reading spaces *)

Lemma findFirstByIdOrSlug_None (db : Db) (identifier : string) :
  findFirstByIdOrSlug db identifier = None <->
  forall sp, In sp (spaces db) -> id sp <> identifier /\ slug sp <> identifier.
Proof.
  unfold findFirstByIdOrSlug. split.
  - intros Hnone sp Hin. apply (find_none _ _ Hnone) in Hin. simpl in Hin.
    apply orb_false_iff in Hin. now rewrite !String.eqb_neq in Hin.
  - intros Hall. destruct (find _ (spaces db)) as [sp|] eqn:Hfind; [|reflexivity].
    apply find_some in Hfind. destruct Hfind as [Hin Hmatch].
    destruct (Hall sp Hin) as [Hid Hslug].
    apply String.eqb_neq in Hid. apply String.eqb_neq in Hslug.
    now rewrite Hid, Hslug in Hmatch.
Qed.

Lemma findFirstByIdOrSlug_only (db : Db) (identifier : string) (sp : Space) :
  In sp (spaces db) ->
  id sp = identifier \/ slug sp = identifier ->
  (forall other, In other (spaces db) ->
     id other = identifier \/ slug other = identifier -> other = sp) ->
  findFirstByIdOrSlug db identifier = Some sp.
Proof.
  intros Hin Hmatch Honly.
  destruct (findFirstByIdOrSlug db identifier) as [found|] eqn:Hfind.
  - apply findFirstByIdOrSlug_Some in Hfind. destruct Hfind as [Hfound Hm].
    f_equal. now apply Honly.
  - exfalso.
    destruct (proj1 (findFirstByIdOrSlug_None _ _) Hfind sp Hin) as [Hid Hslug].
    destruct Hmatch as [Hm | Hm]; [now apply Hid | now apply Hslug].
Qed.

(** X9. GET /{identifier} answers 404 exactly when no space has the
    identifier as its identifier or as its slug, and otherwise returns a
    space that has.  A space is returned at its own identifier when no
    other space has that string as slug, and at its own slug when no
    other space has that string as identifier. *)
Theorem getSpace_finds (accounts : list User) (db : Db) (identifier : string) :
  (getSpace accounts db identifier = ReadErr spaceNotFound <->
     forall sp, In sp (spaces db) -> id sp <> identifier /\ slug sp <> identifier)
  /\ (forall row, getSpace accounts db identifier = SpaceFound row ->
        exists sp, In sp (spaces db)
                   /\ (id sp = identifier \/ slug sp = identifier)
                   /\ row = spaceDetail accounts db sp)
  /\ (wfDb db = true ->
      forall sp, In sp (spaces db) ->
        ((forall other, In other (spaces db) -> other <> sp -> slug other <> id sp) ->
         getSpace accounts db (id sp) = SpaceFound (spaceDetail accounts db sp))
        /\ ((forall other, In other (spaces db) -> other <> sp ->
                           id other <> slug sp) ->
            getSpace accounts db (slug sp)
            = SpaceFound (spaceDetail accounts db sp))).
Proof.
  unfold getSpace. split; [|split].
  - rewrite <- findFirstByIdOrSlug_None.
    destruct (findFirstByIdOrSlug db identifier); split; congruence.
  - intros row.
    destruct (findFirstByIdOrSlug db identifier) as [sp|] eqn:Hfind;
      [|discriminate].
    intros H. injection H as <-. exists sp.
    apply findFirstByIdOrSlug_Some in Hfind. destruct Hfind as [Hin Hmatch].
    split; [exact Hin|]. split; [exact Hmatch | reflexivity].
  - intros Hwf sp Hin. destruct (wfDb_spaces db Hwf) as [Hids Hslugs]. split.
    + intros Hother.
      rewrite (findFirstByIdOrSlug_only db (id sp) sp Hin (or_introl eq_refl));
        [reflexivity|].
      intros other Ho [Hid | Hslug].
      * now apply (NoDup_map_eq id (spaces db)).
      * destruct (string_dec (id other) (id sp)) as [Heq | Hne];
          [now apply (NoDup_map_eq id (spaces db))|].
        exfalso. apply (Hother other Ho); [|assumption].
        intros ->. now apply Hne.
    + intros Hother.
      rewrite (findFirstByIdOrSlug_only db (slug sp) sp Hin (or_intror eq_refl));
        [reflexivity|].
      intros other Ho [Hid | Hslug].
      * destruct (string_dec (id other) (id sp)) as [Heq | Hne];
          [now apply (NoDup_map_eq id (spaces db))|].
        exfalso. apply (Hother other Ho); [|assumption].
        intros ->. now apply Hne.
      * now apply (NoDup_map_eq slug (spaces db)).
Qed.

(** X10. Create, then read.  A space whose create was answered 201 is
    returned by GET at its slug when no stored space has that slug as
    identifier, and at its identifier when no stored space has that
    identifier as slug; GET shows the same view as the create did. *)
Theorem createSpace_then_getSpace (accounts : list User) (db db' : Db) (now : nat)
        (newId user : Id) (payload : CreatePayload) (status : nat)
        (view : SpaceView) :
  createSpace db now newId user payload = Responded db' (Ok status view) ->
  ((forall sp, In sp (spaces db) -> id sp <> slug (viewRow view)) ->
   exists row, getSpace accounts db' (slug (viewRow view)) = SpaceFound row
               /\ detailView row = view)
  /\ ((forall sp, In sp (spaces db) -> slug sp <> newId) ->
      exists row, getSpace accounts db' newId = SpaceFound row
                  /\ detailView row = view).
Proof.
  intros Hok.
  destruct (createSpace_cases _ _ _ _ _ _ _ Hok)
    as [-> | [s [row [Hwrite [Hgen Hview]]]]].
  { destruct (createSpace_Ok _ _ _ _ _ _ _ _ Hok) as [s [_ [Hwrite _]]].
    apply prismaSpaceCreate_inl in Hwrite. destruct Hwrite as [_ [_ [_ Hsp]]].
    exfalso. apply (f_equal (@length Space)) in Hsp.
    rewrite length_app in Hsp. simpl in Hsp. lia. }
  injection Hview as _ ->. simpl.
  pose proof Hwrite as Hchecks.
  destruct (prismaSpaceCreate_inl _ _ _ _ _ _ Hwrite) as [_ [Hid [Hslug Hspaces]]].
  simpl in Hslug.
  pose proof (ensureUniqueSlug_unused _ _ _ Hgen) as Hfree.
  apply findUniqueBySlug_None in Hfree.
  assert (Hnewid : ~ In newId (map id (spaces db))).
  { unfold prismaSpaceCreate in Hchecks.
    destruct (cd_description _); [discriminate|].
    repeat match type of Hchecks with
           | (if mem newId ?l then _ else _) = _ =>
               destruct (mem newId l) eqn:Hmem; [discriminate|]
           | (if ?c then _ else _) = _ => destruct c; [discriminate|]
           end.
    now apply mem_false. }
  assert (Hin : In row (spaces db')).
  { rewrite Hspaces. apply in_or_app. right. now left. }
  unfold getSpace. split.
  - intros Hnoid.
    rewrite (findFirstByIdOrSlug_only db' (slug row) row Hin (or_intror eq_refl)).
    + eexists. split; reflexivity.
    + intros other Ho Hmatch. rewrite Hspaces in Ho.
      apply in_app_or in Ho. destruct Ho as [Ho | [<-|[]]]; [|reflexivity].
      exfalso. destruct Hmatch as [Hm | Hm].
      * now apply (Hnoid other).
      * apply Hfree. rewrite <- Hslug, <- Hm. now apply in_map.
  - intros Hnoslug. rewrite <- Hid.
    rewrite (findFirstByIdOrSlug_only db' (id row) row Hin (or_introl eq_refl)).
    + eexists. split; reflexivity.
    + intros other Ho Hmatch. rewrite Hspaces in Ho.
      apply in_app_or in Ho. destruct Ho as [Ho | [<-|[]]]; [|reflexivity].
      exfalso. destruct Hmatch as [Hm | Hm].
      * apply Hnewid. rewrite <- Hid, <- Hm. now apply in_map.
      * apply (Hnoslug other Ho). now rewrite Hm.
Qed.

(** X11. Rename, then read.  After an update that changed the slug of a
    space, GET at the old slug answers 404 (no stored space having that
    string as identifier) and GET at the new slug returns the updated
    space (no stored space having that string as identifier). *)
Theorem updateSpace_then_getSpace (accounts : list User) (db db' : Db) (now : nat)
        (user : Id) (identifier : string) (payload : UpdatePayload) (status : nat)
        (view : SpaceView) (existing : Space) :
  wfDb db = true ->
  updateSpace db now user identifier payload = Responded db' (Ok status view) ->
  findFirstByIdOrSlug db identifier = Some existing ->
  slug (viewRow view) <> slug existing ->
  ((forall sp, In sp (spaces db) -> id sp <> slug existing) ->
   getSpace accounts db' (slug existing) = ReadErr spaceNotFound)
  /\ ((forall sp, In sp (spaces db) -> id sp <> slug (viewRow view)) ->
      exists row, getSpace accounts db' (slug (viewRow view)) = SpaceFound row
                  /\ detailView row = view).
Proof.
  intros Hwf Hok Hfind Hchanged.
  destruct (updateSpace_cases _ _ _ _ _ _ _ Hok)
    as [-> | [existing' [newSlug [row [Hfind' [Hwrite Hview]]]]]].
  { destruct (updateSpace_Ok _ _ _ _ _ _ _ _ Hok)
      as [ex [ns [Hf [_ [_ [_ [_ [_ [Hw _]]]]]]]]].
    rewrite Hfind in Hf. injection Hf as <-.
    destruct (prismaSpaceUpdate_inl _ _ _ _ _ _ Hw)
      as [sp [_ [_ [_ [_ [Hid [_ [Hstored _]]]]]]]].
    destruct (wfDb_spaces db Hwf) as [Hids _].
    pose proof (findFirstByIdOrSlug_Some _ _ _ Hfind) as [Hin _].
    rewrite (findUniqueById_of_In db existing Hids Hin) in Hstored.
    injection Hstored as Heq. exfalso. apply Hchanged. now rewrite <- Heq. }
  rewrite Hfind in Hfind'. injection Hfind' as <-.
  injection Hview as _ ->. simpl in *.
  destruct (prismaSpaceUpdate_inl _ _ _ _ _ _ Hwrite)
    as [sp [_ [_ [_ [_ [Hid [Hspaces [Hstored Htaken]]]]]]]].
  destruct (wfDb_spaces db Hwf) as [Hids Hslugs].
  pose proof (findFirstByIdOrSlug_Some _ _ _ Hfind) as [Hin _].
  pose proof (proj1 (slugTakenByOther_false _ _ _) Htaken) as Hfree.
  assert (Hrowin : In row (spaces db')).
  { apply findUniqueById_Some in Hstored. tauto. }
  unfold getSpace. split.
  - intros Hnoid.
    rewrite (proj2 (findFirstByIdOrSlug_None db' (slug existing))); [reflexivity|].
    intros other Ho. rewrite Hspaces in Ho. apply replaceRow_In in Ho.
    destruct Ho as [-> | [Ho Hne]].
    + split; [|exact Hchanged]. rewrite Hid. now apply Hnoid.
    + split; [now apply Hnoid|]. intros Hs. apply Hne. f_equal.
      now apply (NoDup_map_eq slug (spaces db)).
  - intros Hnoid.
    rewrite (findFirstByIdOrSlug_only db' (slug row) row Hrowin (or_intror eq_refl)).
    + eexists. split; reflexivity.
    + intros other Ho Hmatch. rewrite Hspaces in Ho. apply replaceRow_In in Ho.
      destruct Ho as [-> | [Ho Hne]]; [reflexivity|].
      exfalso. destruct Hmatch as [Hm | Hm].
      * now apply (Hnoid other).
      * now apply (Hfree other).
Qed.

(** X12. Delete, then read.  After a delete answered 204, GET answers 404 at
    the identifier of the deleted space (no other space having that
    string as slug) and at its slug (no other space having that string
    as identifier). *)
Theorem deleteSpace_then_getSpace (accounts : list User) (db db' : Db)
        (user : Id) (i : Id) (target : Space) :
  wfDb db = true ->
  findUniqueById db i = Some target ->
  deleteSpace db (Some user) i = Responded db' NoContent ->
  ((forall sp, In sp (spaces db) -> slug sp <> i) ->
   getSpace accounts db' i = ReadErr spaceNotFound)
  /\ ((forall sp, In sp (spaces db) -> id sp <> slug target) ->
      getSpace accounts db' (slug target) = ReadErr spaceNotFound).
Proof.
  intros Hwf Hfind Hdelete.
  destruct (wfDb_spaces db Hwf) as [Hids Hslugs].
  pose proof (findUniqueById_Some _ _ _ Hfind) as [Hin Hid].
  destruct (deleteSpace_cases _ _ _ _ _ Hdelete) as [-> | [Hwrite _]].
  { unfold deleteSpace in Hdelete. rewrite Hfind in Hdelete.
    destruct (negb (submittedById target =? user)); [discriminate|].
    unfold prismaSpaceDelete in Hdelete. rewrite Hfind in Hdelete.
    injection Hdelete as Hdb. exfalso.
    assert (Hgone : ~ In target (spaces db)).
    { rewrite <- Hdb. simpl. intros Hf. apply filter_In in Hf.
      destruct Hf as [_ Hne]. rewrite Hid, String.eqb_refl in Hne. discriminate. }
    contradiction. }
  unfold prismaSpaceDelete in Hwrite. rewrite Hfind in Hwrite.
  injection Hwrite as <-. unfold getSpace. split.
  - intros Hnoslug.
    rewrite (proj2 (findFirstByIdOrSlug_None _ i)); [reflexivity|].
    simpl. intros sp Hsp. apply filter_In in Hsp. destruct Hsp as [Hsp Hne].
    apply negb_true_iff, String.eqb_neq in Hne. split; [exact Hne|].
    now apply Hnoslug.
  - intros Hnoid.
    rewrite (proj2 (findFirstByIdOrSlug_None _ (slug target))); [reflexivity|].
    simpl. intros sp Hsp. apply filter_In in Hsp. destruct Hsp as [Hsp Hne].
    apply negb_true_iff, String.eqb_neq in Hne. split; [now apply Hnoid|].
    intros Hs. apply Hne. rewrite <- Hid. f_equal.
    now apply (NoDup_map_eq slug (spaces db)).
Qed.

(** X13. GET /api/users/{identifier}/spaces answers 404 when no user has the
    identifier as email or username.  For a user of the table it lists,
    in table order, exactly the spaces that user submitted, both at the
    username (no user having that string as email) and at the email (no
    user having that string as username). *)
Theorem getUserSpaces_lists_author (accounts : list User) (db : Db) (user : User) :
  wfUsers accounts = true ->
  In user accounts ->
  let listed :=
    SpaceList (map (spaceDetail accounts db)
                   (filter (fun sp => submittedById sp =? userId user) (spaces db))) in
  ((forall other, In other accounts -> email other <> username user) ->
   getUserSpaces accounts db (username user) = listed)
  /\ ((forall other, In other accounts -> username other <> email user) ->
      getUserSpaces accounts db (email user) = listed)
  /\ (forall identifier,
        (forall other, In other accounts ->
           email other <> identifier /\ username other <> identifier) ->
        getUserSpaces accounts db identifier
        = ReadErr (mkError "User not found." 404)).
Proof.
  intros Hwf Hin listed.
  unfold wfUsers in Hwf. rewrite !andb_true_iff, !nodupb_NoDup in Hwf.
  destruct Hwf as [[Hids Hnames] Hmails].
  assert (Hfound : forall identifier,
    email user = identifier \/ username user = identifier ->
    (forall other, In other accounts ->
       email other = identifier \/ username other = identifier -> other = user) ->
    find (fun u => (email u =? identifier) || (username u =? identifier)) accounts
    = Some user).
  { intros identifier Hmatch Honly.
    destruct (find _ accounts) as [found|] eqn:Hfind.
    - apply find_some in Hfind. destruct Hfind as [Hf Hm].
      apply orb_true_iff in Hm. rewrite !String.eqb_eq in Hm.
      f_equal. now apply Honly.
    - apply (find_none _ _ Hfind) in Hin. simpl in Hin.
      apply orb_false_iff in Hin. rewrite !String.eqb_neq in Hin.
      destruct Hin as [Hmail Hname].
      destruct Hmatch as [Hm | Hm]; [now elim Hmail | now elim Hname]. }
  unfold getUserSpaces. split; [|split].
  - intros Hother. rewrite (Hfound (username user)); [reflexivity | now right |].
    intros other Ho [Hm | Hm].
    + exfalso. now apply (Hother other).
    + now apply (NoDup_map_eq username accounts).
  - intros Hother. rewrite (Hfound (email user)); [reflexivity | now left |].
    intros other Ho [Hm | Hm].
    + now apply (NoDup_map_eq email accounts).
    + exfalso. now apply (Hother other).
  - intros identifier Hnone.
    destruct (find _ accounts) as [found|] eqn:Hfind; [|reflexivity].
    apply find_some in Hfind. destruct Hfind as [Hf Hm].
    apply orb_true_iff in Hm. rewrite !String.eqb_eq in Hm.
    destruct (Hnone found Hf) as [Hmail Hname].
    destruct Hm as [Hm | Hm]; [now elim Hmail | now elim Hname].
Qed.

(** ** The seed script *)

Lemma seedSpace_creates (db : Db) (now : nat) (newId : Id) (raw : RawSpaceData) :
  exists uniqueSlug,
    ensureUniqueSlug db (raw_name raw) = Some uniqueSlug
    /\ seedSpace db now newId raw
       = Some (prismaSpaceCreate db now newId (seedCreateData uniqueSlug raw)).
Proof.
  destruct (ensureUniqueSlug_Some db (raw_name raw)) as [s Hs].
  exists s. split; [exact Hs|].
  unfold seedSpace, prismaSpaceUpsert. rewrite Hs.
  now rewrite (ensureUniqueSlug_unused _ _ _ Hs).
Qed.

(** X25. The upsert of the seed loop never updates.  The slug it looks for is
    one [ensureUniqueSlug] has just found unused, so every turn creates:
    the loop ends, and when no write fails it leaves every row that was
    there as it was and adds one row per entry, named after the entry,
    under a slug that was not in use.  (Seeding a seeded database
    therefore stores every space a second time.) *)
Theorem seedSpaces_only_adds (db : Db) (now : nat) (items : list (Id * RawSpaceData)) :
  (exists result, seedSpaces db now items = Some result)
  /\ (forall db', seedSpaces db now items = Some (inl db') ->
        exists added,
          spaces db' = (spaces db ++ added)%list
          /\ map name added = map (fun item => raw_name (snd item)) items
          /\ map id added = map fst items
          /\ (forall row, In row added -> ~ In (slug row) (map slug (spaces db)))).
Proof.
  revert db. induction items as [|[newId raw] rest IH]; intros db.
  - split; [now exists (inl db)|].
    intros db' H. injection H as <-. exists []. rewrite app_nil_r.
    now repeat split.
  - destruct (seedSpace_creates db now newId raw) as [s [Hs Hseed]].
    simpl. rewrite Hseed.
    destruct (prismaSpaceCreate db now newId (seedCreateData s raw))
      as [[db1 row]|error] eqn:Hwrite.
    + destruct (IH db1) as [Hends Hadds]. split; [exact Hends|].
      intros db' Hrest. destruct (Hadds db' Hrest)
        as [added [Hspaces [Hnames [Hids Hfresh]]]].
      pose proof Hwrite as Hrow. unfold prismaSpaceCreate in Hrow. simpl in Hrow.
      repeat match type of Hrow with
             | (if ?c then _ else _) = _ => destruct c; [discriminate|]
             end.
      injection Hrow as Hdb1 Hrowdef.
      destruct (prismaSpaceCreate_inl _ _ _ _ _ _ Hwrite)
        as [_ [Hid [Hslug Hsp1]]].
      exists (row :: added). rewrite Hspaces, Hsp1, <- app_assoc. simpl.
      split; [reflexivity|]. split; [|split].
      * rewrite Hnames. f_equal. now rewrite <- Hrowdef.
      * now rewrite Hids, Hid.
      * intros r [<- | Hr].
        -- rewrite Hslug. simpl.
           now apply findUniqueBySlug_None, (ensureUniqueSlug_unused _ _ _ Hs).
        -- intros Hin. apply (Hfresh r Hr). rewrite Hsp1, map_app.
           apply in_or_app. now left.
    + split; [now exists (inr error) | discriminate].
Qed.

End Engine.

(** * The handlers on the sample data *)

Example ensureUniqueSlug_free :
  ensureUniqueSlug sampleSlugify sampleDb "Hidden Gem" = Some "hidden-gem".
Proof. reflexivity. Qed.

(** The retry candidate keeps the case of the name. *)
Example ensureUniqueSlug_taken :
  ensureUniqueSlugFuel sampleSlugify 3 sampleDb "Taman Bungkul"
  = Some ("Taman-Bungkul-1", 2).
Proof. reflexivity. Qed.

Example createSpace_hiddenGem :
  createSpace sampleSlugify sampleDb 5 "cmcvyolex000iv3ik9new0001" budi hiddenGem
  = Responded (withSpaces sampleDb [taman; gem])
              (Ok 201 (mkView gem ["Historical"] [])).
Proof. reflexivity. Qed.

(** [clashDb] is what a create of [namesakePayload] makes of [sampleDb]. *)
Example clashDb_reachable :
  createSpace sampleSlugify sampleDb 2 "cmcvyolex000hv3ik1abc234d" budi namesakePayload
  = Responded clashDb (Ok 201 (mkView namesake [] [])).
Proof. reflexivity. Qed.

(** A list that repeats an existing identifier fails the check, and the
    response names no identifier. *)
Example checkIds_repeated :
  checkIds "Category" (spaceCategories sampleDb) ["clcat0hist"; "clcat0hist"]
  = Some (mkError "One or more Category IDs not found: ." 404).
Proof. reflexivity. Qed.

(** C1, on sample errors. *)
Lemma C1_witness :
  updateCatch uniqueConstraintFailed
  = mkError "A space with this name or slug already exists." 409
  /\ deleteCatch requiredRecordMissing = mkError "Space not found." 404
  /\ createCatch valueTooLong
     = mkError "Failed to create space due to an internal server error." 500.
Proof.
  split; [|split].
  - exact (proj1 (C1_error_mapping uniqueConstraintFailed) eq_refl).
  - exact (proj2 (proj1 (proj2 (C1_error_mapping requiredRecordMissing)) eq_refl)).
  - exact (proj1 (proj1 (proj2 (proj2 (C1_error_mapping valueTooLong)))
                   eq_refl eq_refl)).
Defined.

(** C1 as stated fails: on create a unique-constraint violation and a
    missing related record are answered 500, and on update an Error
    outside the known-request class whose text holds "not found" is
    answered 404 with that text. *)
Lemma C1_counterexample :
  (isUniqueViolation uniqueConstraintFailed = true
   /\ createCatch uniqueConstraintFailed
      = mkError "Failed to create space due to an internal server error." 500)
  /\ (isRelatedRecordMissing requiredRecordMissing = true
      /\ createCatch requiredRecordMissing
         = mkError "Failed to create space due to an internal server error." 500)
  /\ (isUniqueViolation (JsError "Query engine library not found.") = false
      /\ isRelatedRecordMissing (JsError "Query engine library not found.") = false
      /\ updateCatch (JsError "Query engine library not found.")
         = mkError "Query engine library not found." 404).
Proof.
  repeat split.
Qed.

(** C2, on [clearCategories]. *)
Lemma C2_witness :
  exists existing,
    findFirstByIdOrSlug sampleDb "taman-bungkul" = Some existing
    /\ findUniqueById (withSpaces sampleDb [tamanCleared]) (id existing)
       = Some tamanCleared
    /\ categories tamanCleared = []
    /\ features tamanCleared = features existing.
Proof.
  exact (C2_relation_sets_replaced sampleSlugify sampleDb
           (withSpaces sampleDb [tamanCleared]) 5 alice "taman-bungkul"
           clearCategories 200 (mkView tamanCleared [] ["Wi-Fi"])
           eq_refl eq_refl).
Defined.

(** C4: [budi] may neither update nor delete [taman]. *)
Lemma C4_witness :
  updateSpace sampleSlugify sampleDb 5 budi "taman-bungkul" badCategoriesUpdate
  = Responded sampleDb (Err forbiddenUpdate)
  /\ deleteSpace sampleDb (Some budi) "cmcvyolex000gv3ik8qxx701q"
     = Responded sampleDb (Err forbiddenDelete).
Proof.
  assert (Hauthor : submittedById taman <> budi) by discriminate.
  split.
  - exact (proj1 (C4_forbidden_before_validation sampleSlugify sampleDb 5 budi
                    "taman-bungkul" badCategoriesUpdate taman Hauthor) eq_refl).
  - exact (proj1 (proj2 (C4_forbidden_before_validation sampleSlugify sampleDb 5 budi
                    "cmcvyolex000gv3ik8qxx701q" badCategoriesUpdate taman Hauthor))
                 eq_refl).
Defined.

(** C5: two unknown categories, both named. *)
Lemma C5_witness :
  createSpace sampleSlugify sampleDb 5 "cmcvyolex000iv3ik9new0001" alice
              badCategoriesCreate
  = Responded sampleDb
              (Err (mkError "One or more Category IDs not found: bad1, bad2." 404))
  /\ updateSpace sampleSlugify sampleDb 5 alice "taman-bungkul" badCategoriesUpdate
     = Responded sampleDb
                 (Err (mkError "One or more Category IDs not found: bad1, bad2." 404)).
Proof.
  destruct (C5_missing_references_named sampleSlugify sampleDb 5
              "cmcvyolex000iv3ik9new0001" alice "taman-bungkul"
              badCategoriesCreate badCategoriesUpdate taman eq_refl)
    as [[_ [Hcreate _]] [Hupdate _]].
  assert (Hbad : ~ In "bad1" (map taxonId (spaceCategories sampleDb))).
  { simpl. intros [H|[H|[]]]; discriminate. }
  split.
  - rewrite (Hcreate ltac:(discriminate) "bad1" ltac:(simpl; tauto) Hbad).
    reflexivity.
  - destruct (Hupdate eq_refl eq_refl) as [_ [Hcats _]].
    rewrite (Hcats eq_refl _ "bad1" eq_refl ltac:(simpl; tauto) Hbad).
    reflexivity.
Defined.

(** C6, on [renameKebun] sent at the identifier of [taman]. *)
Lemma C6_witness :
  exists existing newSlug,
    findFirstByIdOrSlug sampleDb "cmcvyolex000gv3ik8qxx701q" = Some existing
    /\ newSlug = Present "kebun-bibit"
    /\ slug tamanKebun = "kebun-bibit"
    /\ id tamanKebun = id existing.
Proof.
  destruct (C6_slug_regenerated_on_rename sampleSlugify sampleDb
              (withSpaces sampleDb [tamanKebun]) 5 alice
              "cmcvyolex000gv3ik8qxx701q" renameKebun 200
              (mkView tamanKebun ["Historical"; "Recreational"] ["Wi-Fi"])
              eq_refl eq_refl)
    as [existing [newSlug [Hfind [_ [Hrename [_ [_ [Hid _]]]]]]]].
  exists existing, newSlug. split; [exact Hfind|].
  assert (Hexisting : existing = taman).
  { simpl in Hfind. now injection Hfind. }
  subst existing.
  destruct (Hrename "Kebun Bibit" eq_refl ltac:(discriminate)) as [_ [Hslug _]].
  repeat split; assumption.
Defined.

(** C7, on [hiddenGem] (no description) and [clearCategories]
    (description null). *)
Lemma C7_witness :
  description gem = "" /\ description tamanCleared = "".
Proof.
  split.
  - destruct (C7_description_never_null sampleSlugify sampleDb
                (withSpaces sampleDb [taman; gem]) 5 "cmcvyolex000iv3ik9new0001"
                budi "taman-bungkul" hiddenGem emptyUpdate 201
                (mkView gem ["Historical"] []))
      as [_ [_ [_ [_ [Hcreate _]]]]].
    destruct (Hcreate eq_refl) as [_ Hdescr]. exact Hdescr.
  - destruct (C7_description_never_null sampleSlugify sampleDb
                (withSpaces sampleDb [tamanCleared]) 5 "cmcvyolex000iv3ik9new0001"
                alice "taman-bungkul" hiddenGem clearCategories 200
                (mkView tamanCleared [] ["Wi-Fi"]))
      as [_ [_ [_ [_ [_ [_ [_ Hupdate]]]]]]].
    destruct (Hupdate eq_refl eq_refl) as [existing [_ [_ Hdescr]]]. exact Hdescr.
Defined.

(** C9, on [renameLower]: [taman] renamed to its own name in lower case
    loses the slug "taman-bungkul". *)
Lemma C9_witness :
  findUniqueBySlug sampleDb (sampleSlugify "taman bungkul" strictLower) = Some taman
  /\ findUniqueById (withSpaces sampleDb [tamanLower]) (id taman) = Some tamanLower
  /\ slug tamanLower <> slug taman
  /\ exists k, 1 <= k
       /\ slug tamanLower
          = sampleSlugify "taman bungkul" defaultOptions ++ "-" ++ numToString k.
Proof.
  exact (C9_rename_collides_with_itself sampleSlugify sampleDb
           (withSpaces sampleDb [tamanLower]) 5 alice "taman-bungkul" renameLower
           200 (mkView tamanLower ["Historical"; "Recreational"] ["Wi-Fi"])
           taman "taman bungkul"
           eq_refl eq_refl eq_refl eq_refl ltac:(discriminate) eq_refl).
Defined.

(** C10: in [sampleDb] a delete at the slug of [taman] finds nothing. *)
Lemma C10_witness :
  deleteSpace sampleDb (Some alice) "taman-bungkul"
  = Responded sampleDb (Err spaceNotFound).
Proof.
  assert (Hnoid : forall sp, In sp (spaces sampleDb) -> id sp <> slug taman).
  { intros sp [<-|[]]. discriminate. }
  exact (proj1 (C10_delete_ignores_slug sampleDb alice taman
                  (or_introl eq_refl) Hnoid)).
Defined.

(** C10 as stated fails: in [clashDb] the slug of [namesake] is the
    identifier of [taman], and a delete at that slug by [alice] removes
    [taman]. *)
Lemma C10_counterexample :
  wfDb clashDb = true
  /\ In namesake (spaces clashDb)
  /\ deleteSpace clashDb (Some alice) (slug namesake)
     = Responded (withSpaces clashDb [namesake]) NoContent
  /\ deleteSpace clashDb (Some alice) (slug namesake)
     <> Responded clashDb (Err spaceNotFound).
Proof.
  repeat split.
  - right. now left.
  - discriminate.
Qed.


(** * Further properties, on the sample data *)

Lemma handlers_keep_keys_unique_witness :
  wfDb (withSpaces sampleDb [taman; gem]) = true.
Proof.
  exact (proj1 (handlers_keep_keys_unique sampleSlugify sampleDb
                  (withSpaces sampleDb [taman; gem]) 5
                  "cmcvyolex000iv3ik9new0001" budi None "" hiddenGem emptyUpdate
                  (Ok 201 (mkView gem ["Historical"] [])) eq_refl) eq_refl).
Defined.

(** X3, on the sample data. *)
Lemma checkIds_passes_iff_witness :
  checkIds "Category" (spaceCategories sampleDb) ["clcat0recr"; "clcat0hist"] = None.
Proof.
  assert (Htable : NoDup (map taxonId (spaceCategories sampleDb))).
  { apply nodupb_NoDup. reflexivity. }
  assert (Hids : NoDup ["clcat0recr"; "clcat0hist"]).
  { apply nodupb_NoDup. reflexivity. }
  exact (proj2 (proj1 (checkIds_passes_iff "Category" (spaceCategories sampleDb)
                         ["clcat0recr"; "clcat0hist"] Htable))
               (conj Hids eq_refl)).
Defined.




(** X7, on the sample data. *)
Lemma deleteSpace_removes_exactly_one_witness :
  deleteSpace sampleDb (Some alice) "cmcvyolex000gv3ik8qxx701q"
  = Responded (withSpaces sampleDb []) NoContent.
Proof.
  exact (proj1 (deleteSpace_removes_exactly_one sampleDb alice
                  "cmcvyolex000gv3ik8qxx701q" taman eq_refl eq_refl eq_refl)).
Defined.

(** X8, on the sample data. *)
Lemma createSpace_twice_distinct_slugs_witness :
  slug gem <> slug gemAgain
  /\ exists k, 1 <= k
       /\ slug gemAgain
          = sampleSlugify "Hidden Gem" defaultOptions ++ "-" ++ numToString k.
Proof.
  destruct (createSpace_twice_distinct_slugs sampleSlugify sampleDb
              (withSpaces sampleDb [taman; gem])
              (withSpaces sampleDb [taman; gem; gemAgain]) 5 6
              "cmcvyolex000iv3ik9new0001" "cmcvyolex000jv3ik9new0002" budi alice
              hiddenGem hiddenGem 201 201
              (mkView gem ["Historical"] []) (mkView gemAgain ["Historical"] [])
              eq_refl eq_refl)
    as [_ [_ [_ [Hslug Hsuffix]]]].
  split; [exact Hslug | exact (Hsuffix eq_refl)].
Defined.

(** X14, on the sample data. *)
Lemma createTaxon_result_witness :
  getTaxon SpaceCategoryKind
           (withTable SpaceCategoryKind sampleDb
              [catHistorical; catRecreational; mkTaxon "clcat0natu" "Natural" None])
           "clcat0natu"
  = TaxonOk 200 (mkTaxon "clcat0natu" "Natural" None).
Proof.
  assert (Hname : ~ In "Natural" (map taxonName (spaceCategories sampleDb))).
  { simpl. intros [H|[H|[]]]; discriminate. }
  assert (Hid : ~ In "clcat0natu" (map taxonId (spaceCategories sampleDb))).
  { simpl. intros [H|[H|[]]]; discriminate. }
  exact (proj1 (proj2 (proj2 (createTaxon_result SpaceCategoryKind sampleDb
                                "clcat0natu" naturalCategory)
                             Hname eq_refl Hid))).
Defined.

(** X15, on the sample data. *)
Lemma updateTaxon_result_witness :
  updateTaxon SpaceCategoryKind sampleDb "clcat0hist" renameToRecreational
  = (sampleDb, TaxonErr (taxonFailed "update" SpaceCategoryKind)).
Proof.
  apply (proj1 (proj2 (updateTaxon_result SpaceCategoryKind sampleDb "clcat0hist"
                         renameToRecreational) catHistorical eq_refl)).
  right. exists catRecreational. repeat split.
  - simpl. right. now left.
  - discriminate.
Defined.

(** X16, on the sample data. *)
Lemma deleteTaxon_result_witness :
  deleteTaxon SpaceTypeKind sampleDb "cltype0park"
  = (sampleDb, TaxonErr (taxonFailed "delete" SpaceTypeKind)).
Proof.
  apply (proj1 (proj2 (deleteTaxon_result sampleDb "cltype0park"))).
  - discriminate.
  - exists taman. split; [now left | reflexivity].
Defined.

(** X2, on the sample data. *)
Lemma space_handlers_keep_references_witness :
  refsOk (withSpaces sampleDb [taman; gem]) = true.
Proof.
  exact (proj1 (space_handlers_keep_references sampleSlugify sampleDb
                  (withSpaces sampleDb [taman; gem]) 5
                  "cmcvyolex000iv3ik9new0001" budi None "" hiddenGem emptyUpdate
                  (Ok 201 (mkView gem ["Historical"] [])) eq_refl) eq_refl).
Defined.

(** X17, on the sample data. *)
Lemma taxonomy_handlers_keep_constraints_witness :
  let db' := fst (deleteTaxon SpaceCategoryKind sampleDb "clcat0hist") in
  wfDb db' = true /\ namesUnique db' = true /\ refsOk db' = true.
Proof.
  exact (taxonomy_handlers_keep_constraints SpaceCategoryKind sampleDb
           (fst (deleteTaxon SpaceCategoryKind sampleDb "clcat0hist"))
           "clcat0natu" "clcat0hist" naturalCategory renameToRecreational
           (snd (deleteTaxon SpaceCategoryKind sampleDb "clcat0hist"))
           eq_refl eq_refl eq_refl (or_intror (or_intror eq_refl))).
Defined.

(** X18, on the sample data. *)
Lemma bearerToken_reads_token_witness :
  exists token rest,
    Some "cluser0alice" = Some token
    /\ Some "Bearer cluser0alice" = Some ("Bearer " ++ rest)
    /\ noSpace token = true
    /\ prefix token rest = true
    /\ (noSpace rest = true -> token = rest).
Proof.
  exact (proj2 (bearerToken_reads_token (Some "Bearer cluser0alice"))
               (Some "cluser0alice") eq_refl).
Defined.

(** X19, on the sample data. *)
Lemma authenticateUser_sound_witness :
  exists token payload mail row,
    bearerToken (Some "Bearer cluser0alice") = Some (Some token)
    /\ verify sampleCollaborators token (JWT_SECRET sampleCollaborators)
       = Verified (Some payload)
    /\ decodedUserId payload = Some "cluser0alice"
    /\ decodedEmail payload = Some mail
    /\ In row sampleAccounts
    /\ mkAuthUser "cluser0alice" "alice_explorer" "alice@example.com"
       = mkAuthUser (userId row) (username row) (email row).
Proof.
  exact (proj1 (authenticateUser_sound sampleCollaborators sampleAccounts
                  (Some "Bearer cluser0alice"))
               (mkAuthUser "cluser0alice" "alice_explorer" "alice@example.com")
               eq_refl).
Defined.

(** X20, on the sample data. *)
Lemma authenticateUser_complete_witness :
  authenticateUser sampleCollaborators sampleAccounts (Some "Bearer cluser0budi")
  = Next (mkAuthUser "cluser0budi" "budi" "budi@example.com").
Proof.
  exact (authenticateUser_complete sampleCollaborators sampleAccounts
           "cluser0budi" "x@example.com" budiRow eq_refl eq_refl eq_refl
           (or_intror (or_introl eq_refl))).
Defined.


(** X22, on the sample data. *)
Lemma register_result_witness :
  register sampleCollaborators sampleAccounts 7 "cluser0citra" "salt" registerCitra
  = ([aliceRow; budiRow; citraRow],
     AuthOk "cluser0citra" "Registration successful." "cluser0citra")
  /\ wfUsers [aliceRow; budiRow; citraRow] = true.
Proof.
  assert (Hmail : ~ In (r_email registerCitra) (map email sampleAccounts)).
  { simpl. intros [H|[H|[]]]; discriminate. }
  assert (Hname : ~ In (r_username registerCitra) (map username sampleAccounts)).
  { simpl. intros [H|[H|[]]]; discriminate. }
  assert (Hid : ~ In "cluser0citra" (map userId sampleAccounts)).
  { simpl. intros [H|[H|[]]]; discriminate. }
  destruct (proj2 (proj2 (register_result sampleCollaborators sampleAccounts 7
                            "cluser0citra" "salt" registerCitra))
                  Hmail Hname Hid) as [Hregister Hwf].
  split; [exact Hregister | exact (Hwf eq_refl)].
Defined.

(** X23, on the sample data. *)
Lemma register_then_login_witness :
  login sampleCollaborators [aliceRow; budiRow; citraRow] 4000
        (mkLoginRequest "citra@example.com" "batik-1234")
  = AuthOk "cluser0citra" "Login successful." "citra@example.com".
Proof.
  assert (Hhash : forall s p,
             verifyPassword sampleCollaborators p
                            (hashPassword sampleCollaborators s p) = true).
  { intros s p. apply String.eqb_refl. }
  exact (proj2 (register_then_login sampleCollaborators sampleAccounts
                  [aliceRow; budiRow; citraRow] 7 4000 "cluser0citra" "salt"
                  registerCitra "cluser0citra" "Registration successful."
                  "cluser0citra" Hhash eq_refl)).
Defined.

(** X9, on the sample data. *)
Lemma getSpace_finds_witness :
  getSpace sampleAccounts sampleDb "taman-bungkul"
  = SpaceFound (spaceDetail sampleAccounts sampleDb taman).
Proof.
  apply (proj2 (proj2 (proj2 (getSpace_finds sampleAccounts sampleDb "taman-bungkul"))
                      eq_refl taman (or_introl eq_refl))).
  intros other [<-|[]] Hne. now elim Hne.
Defined.

(** X10, on the sample data. *)
Lemma createSpace_then_getSpace_witness :
  exists row,
    getSpace sampleAccounts (withSpaces sampleDb [taman; gem]) "hidden-gem"
    = SpaceFound row
    /\ detailView row = mkView gem ["Historical"] [].
Proof.
  apply (proj1 (createSpace_then_getSpace sampleSlugify sampleAccounts sampleDb
                  (withSpaces sampleDb [taman; gem]) 5
                  "cmcvyolex000iv3ik9new0001" budi hiddenGem 201
                  (mkView gem ["Historical"] []) eq_refl)).
  intros sp [<-|[]]. discriminate.
Defined.

(** X11, on the sample data. *)
Lemma updateSpace_then_getSpace_witness :
  getSpace sampleAccounts (withSpaces sampleDb [tamanKebun]) "taman-bungkul"
  = ReadErr spaceNotFound.
Proof.
  apply (proj1 (updateSpace_then_getSpace sampleSlugify sampleAccounts sampleDb
                  (withSpaces sampleDb [tamanKebun]) 5 alice
                  "cmcvyolex000gv3ik8qxx701q" renameKebun 200
                  (mkView tamanKebun ["Historical"; "Recreational"] ["Wi-Fi"])
                  taman eq_refl eq_refl eq_refl ltac:(discriminate))).
  intros sp [<-|[]]. discriminate.
Defined.

(** X12, on the sample data. *)
Lemma deleteSpace_then_getSpace_witness :
  getSpace sampleAccounts (withSpaces sampleDb []) "cmcvyolex000gv3ik8qxx701q"
  = ReadErr spaceNotFound.
Proof.
  apply (proj1 (deleteSpace_then_getSpace sampleAccounts sampleDb
                  (withSpaces sampleDb []) alice "cmcvyolex000gv3ik8qxx701q" taman
                  eq_refl eq_refl eq_refl)).
  intros sp [<-|[]]. discriminate.
Defined.

(** X13, on the sample data. *)
Lemma getUserSpaces_lists_author_witness :
  getUserSpaces sampleAccounts sampleDb "alice_explorer"
  = SpaceList [spaceDetail sampleAccounts sampleDb taman].
Proof.
  apply (proj1 (getUserSpaces_lists_author sampleAccounts sampleDb aliceRow
                  eq_refl (or_introl eq_refl))).
  intros other [<-|[<-|[]]]; discriminate.
Defined.

(** X25, on the sample data. *)
Lemma seedSpaces_only_adds_witness :
  exists result,
    seedSpaces sampleSlugify sampleDb 9 [("cmcvyolex000kv3ik9seed001", rawTaman)]
    = Some result.
Proof.
  exact (proj1 (seedSpaces_only_adds sampleSlugify sampleDb 9
                  [("cmcvyolex000kv3ik9seed001", rawTaman)])).
Defined.

(** Seeding the first entry into [sampleDb], which holds a space of
    that name, stores a second row under the suffixed slug. *)
Example seedSpaces_again :
  option_map (fun result =>
                match result with
                | inl db' => map slug (spaces db')
                | inr _ => []
                end)
             (seedSpaces sampleSlugify sampleDb 9
                         [("cmcvyolex000kv3ik9seed001", rawTaman)])
  = Some ["taman-bungkul"; "Taman-Bungkul-1"].
Proof. reflexivity. Qed.
